(** * The user-item data layer of [reco_encoder/data/input_layer.py]

    A shallow embedding of [UserItemRecDataProvider]: the identifier maps
    built by [_build_maps], the aggregated table built by [__init__], and
    the two generators [iterate_one_epoch] and [iterate_one_epoch_eval].

    - Python [int] is [Z]; a list index follows Python's rules (negative
      indices count from the end, out of range raises [IndexError]).
    - The identifier maps are dicts of which only [in], [[]] and [len] are
      ever used: they are [gmap Z Z].  [self.data] is a dict whose key
      order is observed by [list(data.keys())]: it is an association list
      in insertion order.
    - An exception is a value of [exn]; code that can raise lives in the
      [result] monad.
    - A generator is a step function on its local variables; [gen_run]
      drives it for a given number of [next()] calls.
    - [torch.sparse.FloatTensor(i, v, size)] is the record of its three
      arguments. *)

From Stdlib Require Import ZArith QArith Lia Permutation.
From Stdlib Require Strings.Ascii.
From stdpp Require Import base option list gmap strings.

Local Open Scope Z_scope.

(** ** Exceptions *)

(** The exceptions this module can raise, one constructor per raising
    site.  [ValueError_major] is line 35, [ValueError_bad_line] is lines 66
    and 101; the others are raised by the Python runtime: [str.split] on an
    empty separator, [int()] and [float()] on a string that is no literal,
    a list index out of range, a dict lookup of an absent key (in an
    identifier map, in [self.data], in [self.src_data]), and reading the
    attribute [src_data] when it was never assigned. *)
Inductive exn : Type :=
  | ValueError_major (got : string)
  | ValueError_bad_line (source_file : string)
  | ValueError_empty_separator
  | ValueError_int (literal : string)
  | ValueError_float (literal : string)
  | IndexError
  | KeyError_id_map (k : Z)
  | KeyError_data (k : Z)
  | KeyError_src_data (k : Z)
  | AttributeError_src_data.

(** The four error kinds the specification declares, and the exceptions
    that realise them. *)
Inductive error_kind : Type :=
  | ConfigurationError
  | MalformedRecord
  | UnknownIdentifier
  | MissingSourceData.

Definition declared_kind (e : exn) : option error_kind :=
  match e with
  | ValueError_major _ => Some ConfigurationError
  | ValueError_bad_line _ => Some MalformedRecord
  | KeyError_id_map _ => Some UnknownIdentifier
  | KeyError_src_data _ | AttributeError_src_data => Some MissingSourceData
  | ValueError_empty_separator | ValueError_int _ | ValueError_float _
  | IndexError | KeyError_data _ => None
  end.

Inductive result (A : Type) : Type :=
  | Ok (a : A)
  | Raise (e : exn).
Arguments Ok {A} a.
Arguments Raise {A} e.

Global Instance result_ret : MRet result := @Ok.
Global Instance result_bind : MBind result := λ A B f m,
  match m with
  | Ok a => f a
  | Raise e => Raise e
  end.

Definition is_Ok {A} (r : result A) : Prop := ∃ a, r = Ok a.

(** [for x in xs: st = f st x], stopping at the first exception. *)
Fixpoint for_each {S A} (f : S → A → result S) (st : S) (xs : list A) : result S :=
  match xs with
  | [] => Ok st
  | x :: xs' => st' ← f st x; for_each f st' xs'
  end.

(** ** Python strings *)

Module PyStr.

(** [str.isspace] on the code points below 256. *)
Definition isspace (c : Strings.Ascii.ascii) : bool :=
  let n := Strings.Ascii.nat_of_ascii c in
  ((9 <=? n)%nat && (n <=? 13)%nat) || ((28 <=? n)%nat && (n <=? 32)%nat)
  || (n =? 133)%nat || (n =? 160)%nat.

Fixpoint lstrip (s : string) : string :=
  match s with
  | EmptyString => EmptyString
  | String c s' => if isspace c then lstrip s' else s
  end.

Definition rstrip (s : string) : string := String.rev (lstrip (String.rev s)).

(** [s.strip()] *)
Definition strip (s : string) : string := rstrip (lstrip s).

(** [s.startswith(p)] *)
Fixpoint startswith (p s : string) : bool :=
  match p, s with
  | EmptyString, _ => true
  | String a p', String b s' => if decide (a = b) then startswith p' s' else false
  | String _ _, EmptyString => false
  end.

(** [s.endswith(p)] *)
Definition endswith (p s : string) : bool :=
  startswith (String.rev p) (String.rev s).

(** [s.split(sep)] for a non-empty [sep]: the string is cut at every
    occurrence of [sep], found from the left without overlap.  [skip]
    counts the characters of a separator still to be passed over, [cur]
    is the field being read, reversed. *)
Fixpoint split_go (sep : string) (skip : nat) (cur : string) (s : string)
  : list string :=
  match s with
  | EmptyString => [String.rev cur]
  | String c s' =>
      match skip with
      | S k => split_go sep k cur s'
      | O =>
          if startswith sep s
          then String.rev cur :: split_go sep (String.length sep - 1) EmptyString s'
          else split_go sep 0 (String c cur) s'
      end
  end.

(** The string ["\t"]. *)
Definition tab : string := String (Strings.Ascii.ascii_of_nat 9) EmptyString.

(** [s.split(sep)]; an empty separator is refused. *)
Definition split (s sep : string) : result (list string) :=
  if decide (sep = "") then Raise ValueError_empty_separator
  else Ok (split_go sep 0 EmptyString s).

(** [os.path.join(a, b)] on a POSIX system. *)
Definition path_join (a b : string) : string :=
  if startswith "/" b then b
  else if decide (a = "") then b
  else if endswith "/" a then a +:+ b
  else a +:+ "/" +:+ b.

End PyStr.

(** ** Lists and dicts *)

(** [l[i]] *)
Definition getitem {A} (l : list A) (i : Z) : result A :=
  let n := Z.of_nat (length l) in
  let j := if i <? 0 then n + i else i in
  if (0 <=? j) && (j <? n)
  then match l !! Z.to_nat j with
       | Some x => Ok x
       | None => Raise IndexError
       end
  else Raise IndexError.

(** [range(a, b)] *)
Definition range (a b : Z) : list Z :=
  (λ i : nat, a + Z.of_nat i) <$> seq 0 (Z.to_nat (b - a)).

(** The aggregated table: major key to the list of its (minor, rating)
    pairs, keys in insertion order. *)
Definition table (R : Type) : Type := list (Z * list (Z * R)).

Section Table.
Context {R : Type}.

(** [t[k]] *)
Fixpoint table_get (t : table R) (k : Z) : option (list (Z * R)) :=
  match t with
  | [] => None
  | (k', vs) :: t' => if decide (k = k') then Some vs else table_get t' k
  end.

(** [list(t.keys())] *)
Definition table_keys (t : table R) : list Z := fst <$> t.

(** [if k not in t: t[k] = []] followed by [t[k].append(v)] *)
Fixpoint table_append (t : table R) (k : Z) (v : Z * R) : table R :=
  match t with
  | [] => [(k, [v])]
  | (k', vs) :: t' =>
      if decide (k = k') then (k', vs ++ [v]) :: t'
      else (k', vs) :: table_append t' k v
  end.
End Table.

(** ** The Python runtime *)

(** [int(s)] and [float(s)] on strings, and the type of Python floats.
    [None] is the [ValueError] the builtin raises. *)
Class Builtins : Type := {
  pyfloat : Type;
  int : string → option Z;
  float : string → option pyfloat;
}.

(** ** Configuration and corpus *)

(** The [params] dict: [batch_size] and [data_dir] are read without a
    default, a missing optional key is [None]. *)
Record params : Type := {
  batch_size : Z;
  itemIdInd : option Z;
  userIdInd : option Z;
  ratingInd : option Z;
  major : option string;
  data_dir : string;
  extension : option string;
  delimiter : option string;
}.

(** One entry of [listdir(data_dir)]: its name, [path.isfile] of it, and
    what [readlines()] returns for it. *)
Record dir_entry : Type := {
  d_name : string;
  d_isfile : bool;
  d_lines : list string;
}.

(** The list [src_files], each path with the lines of the file. *)
Definition src_files (dir ext : string) (fs : list dir_entry)
  : list (string * list string) :=
  (λ f, (PyStr.path_join dir (d_name f), d_lines f))
    <$> filter (λ f, d_isfile f && PyStr.endswith ext (d_name f)) fs.

(** [torch.sparse.FloatTensor(torch.LongTensor([inds1, inds2]),
    torch.FloatTensor(vals), torch.Size([rows, cols]))] *)
Record SparseFloatTensor (R : Type) : Type := {
  indices : list Z * list Z;
  values : list R;
  size : Z * Z;
}.
Arguments indices {R} _.
Arguments values {R} _.
Arguments size {R} _.

(** The (row, column, value) triples of a sparse tensor. *)
Definition triples {R} (t : SparseFloatTensor R) : list (Z * Z * R) :=
  zip (zip (indices t).1 (indices t).2) (values t).

(** ** Generators *)

Inductive gen_outcome (S : Type) : Type :=
  | Exhausted
  | Raised (e : exn)
  | Suspended (s : S).
Arguments Exhausted {S}.
Arguments Raised {S} e.
Arguments Suspended {S} s.

(** [gen_run next n s] calls [next()] at most [n] times on a generator in
    state [s]: the values yielded, and whether the generator returned,
    raised, or is still suspended at a [yield]. *)
Fixpoint gen_run {S A} (next : S → result (option (A * S))) (n : nat) (s : S)
  : list A * gen_outcome S :=
  match n with
  | O => ([], Suspended s)
  | Datatypes.S n' =>
      match next s with
      | Raise e => ([], Raised e)
      | Ok None => ([], Exhausted)
      | Ok (Some (a, s')) =>
          let '(l, o) := gen_run next n' s' in (a :: l, o)
      end
  end.

(** ** The provider *)

Section Provider.
Context `{Builtins}.

(** The attributes of an instance.  [src_data] is an attribute
    [__init__] does not create: it exists once a caller has assigned it. *)
Record UserItemRecDataProvider : Type := {
  _params : params;
  _batch_size : Z;
  _i_id : Z;
  _u_id : Z;
  _r_id : Z;
  _major : string;
  _major_ind : Z;
  _minor_ind : Z;
  _data_dir : string;
  _extension : string;
  _delimiter : string;
  _user_id_map : gmap Z Z;
  _item_id_map : gmap Z Z;
  _vector_dim : Z;
  data : table pyfloat;
  src_data : option (table pyfloat);
}.

Definition py_int (s : string) : result Z :=
  match int s with
  | Some z => Ok z
  | None => Raise (ValueError_int s)
  end.

Definition py_float (s : string) : result pyfloat :=
  match float s with
  | Some r => Ok r
  | None => Raise (ValueError_float s)
  end.

(** [line.strip().split(delimiter)] and the check of lines 65-66 and
    100-101. *)
Definition read_parts (delim source_file line : string) : result (list string) :=
  parts ← PyStr.split (PyStr.strip line) delim;
  if (length parts <? 3)%nat then Raise (ValueError_bad_line source_file)
  else Ok parts.

(** The local state of [_build_maps]: the two maps under construction and
    the counters [u_id] and [i_id]. *)
Record build_state : Type := {
  b_user_id_map : gmap Z Z;
  b_item_id_map : gmap Z Z;
  b_u_id : Z;
  b_i_id : Z;
}.

(** The body of the inner loop of [_build_maps], lines 99-113. *)
Definition build_line (u_ind i_ind : Z) (delim source_file : string)
  (st : build_state) (line : string) : result build_state :=
  parts ← read_parts delim source_file line;
  u_field ← getitem parts u_ind;
  u_id_orig ← py_int u_field;
  let st :=
    match b_user_id_map st !! u_id_orig with
    | None => {| b_user_id_map := <[u_id_orig := b_u_id st]> (b_user_id_map st);
                 b_item_id_map := b_item_id_map st;
                 b_u_id := b_u_id st + 1;
                 b_i_id := b_i_id st |}
    | Some _ => st
    end in
  i_field ← getitem parts i_ind;
  i_id_orig ← py_int i_field;
  Ok match b_item_id_map st !! i_id_orig with
     | None => {| b_user_id_map := b_user_id_map st;
                  b_item_id_map := <[i_id_orig := b_i_id st]> (b_item_id_map st);
                  b_u_id := b_u_id st;
                  b_i_id := b_i_id st + 1 |}
     | Some _ => st
     end.

(** The loop over the lines of one source file, lines 97-98. *)
Definition build_file (u_ind i_ind : Z) (delim : string)
  (st : build_state) (f : string * list string) : result build_state :=
  for_each (build_line u_ind i_ind delim f.1) st f.2.

(** [self._build_maps()], of which the state at the end holds the two
    maps.  It reads [self._u_id], [self._i_id] and [self._delimiter], and
    lists the data directory again (lines 89-91): [files] is that list,
    the one [__init__] made of the same directory. *)
Definition _build_maps (u_ind i_ind : Z) (delim : string)
  (files : list (string * list string)) : result build_state :=
  for_each (build_file u_ind i_ind delim)
    {| b_user_id_map := ∅; b_item_id_map := ∅; b_u_id := 0; b_i_id := 0 |}
    files.

(** [m[k]] on an identifier map. *)
Definition id_map_get (m : gmap Z Z) (k : Z) : result Z :=
  match m !! k with
  | Some v => Ok v
  | None => Raise (KeyError_id_map k)
  end.

(** The body of the inner loop of [__init__], lines 64-78. *)
Definition load_line (major_map minor_map : gmap Z Z)
  (major_ind minor_ind r_ind : Z) (delim source_file : string)
  (d : table pyfloat) (line : string) : result (table pyfloat) :=
  parts ← read_parts delim source_file line;
  major_field ← getitem parts major_ind;
  major_orig ← py_int major_field;
  key ← id_map_get major_map major_orig;
  minor_field ← getitem parts minor_ind;
  minor_orig ← py_int minor_field;
  value ← id_map_get minor_map minor_orig;
  r_field ← getitem parts r_ind;
  rating ← py_float r_field;
  Ok (table_append d key (value, rating)).

(** The loop over the lines of one source file, lines 61-62. *)
Definition load_file (major_map minor_map : gmap Z Z)
  (major_ind minor_ind r_ind : Z) (delim : string)
  (d : table pyfloat) (f : string * list string) : result (table pyfloat) :=
  for_each (load_line major_map minor_map major_ind minor_ind r_ind delim f.1) d f.2.

(** [UserItemRecDataProvider(params, user_id_map, item_id_map)] on a data
    directory whose listing is [fs]. *)
Definition __init__ (p : params) (user_id_map item_id_map : option (gmap Z Z))
  (fs : list dir_entry) : result UserItemRecDataProvider :=
  let i_id := default 0 (itemIdInd p) in
  let u_id := default 1 (userIdInd p) in
  let r_id := default 2 (ratingInd p) in
  let major := default "items" (major p) in
  if negb (bool_decide (major = "items") || bool_decide (major = "users"))
  then Raise (ValueError_major major)
  else
    let major_ind := if bool_decide (major = "items") then i_id else u_id in
    let minor_ind := if bool_decide (major = "items") then u_id else i_id in
    let ext := default ".txt" (extension p) in
    let delim := default PyStr.tab (delimiter p) in
    let files := src_files (data_dir p) ext fs in
    maps ← match user_id_map, item_id_map with
           | Some um, Some im => Ok (um, im)
           | _, _ =>
               st ← _build_maps u_id i_id delim files;
               Ok (b_user_id_map st, b_item_id_map st)
           end;
    let major_map := if bool_decide (major = "items") then maps.2 else maps.1 in
    let minor_map := if bool_decide (major = "items") then maps.1 else maps.2 in
    d ← for_each (load_file major_map minor_map major_ind minor_ind r_id delim)
          [] files;
    Ok {| _params := p;
          _batch_size := batch_size p;
          _i_id := i_id;
          _u_id := u_id;
          _r_id := r_id;
          _major := major;
          _major_ind := major_ind;
          _minor_ind := minor_ind;
          _data_dir := data_dir p;
          _extension := ext;
          _delimiter := delim;
          _user_id_map := maps.1;
          _item_id_map := maps.2;
          _vector_dim := Z.of_nat (base.size minor_map);
          data := d;
          src_data := None |}.

(** The assignment [provider.src_data = t] a caller makes before
    evaluation; [__init__] never sets the attribute. *)
Definition set_src_data (self : UserItemRecDataProvider) (t : table pyfloat)
  : UserItemRecDataProvider :=
  {| _params := _params self;
     _batch_size := _batch_size self;
     _i_id := _i_id self;
     _u_id := _u_id self;
     _r_id := _r_id self;
     _major := _major self;
     _major_ind := _major_ind self;
     _minor_ind := _minor_ind self;
     _data_dir := _data_dir self;
     _extension := _extension self;
     _delimiter := _delimiter self;
     _user_id_map := _user_id_map self;
     _item_id_map := _item_id_map self;
     _vector_dim := _vector_dim self;
     data := data self;
     src_data := Some t |}.

(** [d[k]] on [self.data]. *)
Definition data_get (d : table pyfloat) (k : Z) : result (list (Z * pyfloat)) :=
  match table_get d k with
  | Some vs => Ok vs
  | None => Raise (KeyError_data k)
  end.

(** The locals [local_ind], [inds1], [inds2], [vals] of one batch. *)
Record batch_acc : Type := {
  local_ind : Z;
  inds1 : list Z;
  inds2 : list Z;
  vals : list pyfloat;
}.

(** The body of the [for ind in range(s_ind, e_ind)] loop, lines 127-130. *)
Definition batch_row (d : table pyfloat) (keys : list Z)
  (acc : batch_acc) (ind : Z) : result batch_acc :=
  k ← getitem keys ind;
  vs ← data_get d k;
  Ok {| local_ind := local_ind acc + 1;
        inds1 := inds1 acc ++ replicate (length vs) (local_ind acc);
        inds2 := inds2 acc ++ (fst <$> vs);
        vals := vals acc ++ (snd <$> vs) |}.

(** One turn of the [while] loop of [iterate_one_epoch], from the test of
    line 121 to the [yield] of line 138.  The state is [(s_ind, e_ind)];
    [keys] is the key list after [shuffle(keys)]. *)
Definition iterate_one_epoch_next (self : UserItemRecDataProvider)
  (keys : list Z) (st : Z * Z)
  : result (option (SparseFloatTensor pyfloat * (Z * Z))) :=
  let '(s_ind, e_ind) := st in
  if e_ind <? Z.of_nat (length keys) then
    acc ← for_each (batch_row (data self) keys)
            {| local_ind := 0; inds1 := []; inds2 := []; vals := [] |}
            (range s_ind e_ind);
    Ok (Some ({| indices := (inds1 acc, inds2 acc);
                 values := vals acc;
                 size := (_batch_size self, _vector_dim self) |},
              (s_ind + _batch_size self, e_ind + _batch_size self)))
  else Ok None.

(** [iterate_one_epoch()] driven for [n] steps; [shuffle] is the
    permutation [random.shuffle] applies in this call. *)
Definition iterate_one_epoch (self : UserItemRecDataProvider)
  (shuffle : list Z → list Z) (n : nat)
  : list (SparseFloatTensor pyfloat) * gen_outcome (Z * Z) :=
  gen_run (iterate_one_epoch_next self (shuffle (table_keys (data self))))
    n (0, _batch_size self).

(** [self.src_data[k]] *)
Definition src_data_get (self : UserItemRecDataProvider) (k : Z)
  : result (list (Z * pyfloat)) :=
  match src_data self with
  | None => Raise AttributeError_src_data
  | Some t =>
      match table_get t k with
      | Some vs => Ok vs
      | None => Raise (KeyError_src_data k)
      end
  end.

(** What [iterate_one_epoch_eval] yields: the pair [mini_batch], with the
    key when [for_inf] is set. *)
Record eval_item : Type := {
  target : SparseFloatTensor pyfloat;
  source : SparseFloatTensor pyfloat;
  item_key : option Z;
}.

(** The single-row matrix of lines 144-146 and 152-153 (and, for the
    source, 148-150 and 155-156). *)
Definition single_row (vector_dim : Z) (vs : list (Z * pyfloat))
  : SparseFloatTensor pyfloat :=
  {| indices := (replicate (length vs) 0, fst <$> vs);
     values := snd <$> vs;
     size := (1, vector_dim) |}.

(** One turn of the [while] loop of [iterate_one_epoch_eval]; the state is
    [s_ind]. *)
Definition iterate_one_epoch_eval_next (self : UserItemRecDataProvider)
  (for_inf : bool) (keys : list Z) (s_ind : Z)
  : result (option (eval_item * Z)) :=
  if s_ind <? Z.of_nat (length keys) then
    k ← getitem keys s_ind;
    vs ← data_get (data self) k;
    src_vs ← src_data_get self k;
    let s_ind := s_ind + 1 in
    if negb for_inf then
      Ok (Some ({| target := single_row (_vector_dim self) vs;
                   source := single_row (_vector_dim self) src_vs;
                   item_key := None |}, s_ind))
    else
      k' ← getitem keys (s_ind - 1);
      Ok (Some ({| target := single_row (_vector_dim self) vs;
                   source := single_row (_vector_dim self) src_vs;
                   item_key := Some k' |}, s_ind))
  else Ok None.

(** [iterate_one_epoch_eval(for_inf)] driven for [n] steps. *)
Definition iterate_one_epoch_eval (self : UserItemRecDataProvider)
  (for_inf : bool) (n : nat) : list eval_item * gen_outcome Z :=
  gen_run (iterate_one_epoch_eval_next self for_inf (table_keys (data self))) n 0.

End Provider.

Arguments UserItemRecDataProvider {_}.
Arguments eval_item {_}.

(** ** Decimal literals

    An instance of the runtime for the examples: [int] reads an optional
    sign and decimal digits between optional white space, [float] reads in
    addition an optional fractional part and returns the exact rational
    the literal denotes.  Python agrees with both on every literal used
    below. *)

Module Decimal.

Definition digit (c : Strings.Ascii.ascii) : option Z :=
  let n := Strings.Ascii.nat_of_ascii c in
  if (48 <=? n)%nat && (n <=? 57)%nat then Some (Z.of_nat n - 48) else None.

(** The digits of [s] read as a number continuing [acc]; [None] when [s]
    has a character that is no digit. *)
Fixpoint digits (acc : Z) (s : string) : option Z :=
  match s with
  | EmptyString => Some acc
  | String c s' =>
      match digit c with
      | Some d => digits (10 * acc + d) s'
      | None => None
      end
  end.

Definition unsigned (s : string) : option Z :=
  match s with
  | EmptyString => None
  | _ => digits 0 s
  end.

Definition signed (f : string → option Z) (s : string) : option Z :=
  match s with
  | String c s' =>
      if decide (c = Strings.Ascii.ascii_of_nat 45) then Z.opp <$> f s'
      else if decide (c = Strings.Ascii.ascii_of_nat 43) then f s'
      else f s
  | EmptyString => None
  end.

Definition int_literal (s : string) : option Z :=
  signed unsigned (PyStr.strip s).

(** [ipart] or [ipart.fpart], with at least one digit on each side of the
    point. *)
Definition float_literal (s : string) : option Q :=
  match PyStr.split_go "." 0 EmptyString (PyStr.strip s) with
  | [ipart] => inject_Z <$> signed unsigned ipart
  | [ipart; fpart] =>
      match signed unsigned (ipart +:+ fpart), unsigned fpart with
      | Some m, Some _ =>
          Some (Qred (Qmake m (Pos.pow 10 (Pos.of_nat (String.length fpart)))))
      | _, _ => None
      end
  | _ => None
  end.

#[export] Instance builtins : Builtins :=
  {| pyfloat := Q; int := int_literal; float := float_literal |}.

End Decimal.

(** ** The scenario of the specification *)

Module Example.
Import Decimal.

Definition nl : string := String (Strings.Ascii.ascii_of_nat 10) EmptyString.

(** A line [a\tb\tc\n] as [readlines()] returns it. *)
Definition line3 (a b c : string) : string :=
  a +:+ PyStr.tab +:+ b +:+ PyStr.tab +:+ c +:+ nl.

(** The configuration with every optional key absent. *)
Definition config (b : Z) : params :=
  {| batch_size := b; itemIdInd := None; userIdInd := None; ratingInd := None;
     major := None; data_dir := "data"; extension := None; delimiter := None |}.

(** One file with the three records of the scenario. *)
Definition dir : list dir_entry :=
  [ {| d_name := "ratings.txt"; d_isfile := true;
       d_lines := [line3 "0" "0" "5.0"; line3 "1" "0" "3.0"; line3 "0" "1" "4.0"] |} ].

End Example.

(** ** Notions of the statements *)

(** The exception of a computation that raised. *)
Definition raised {A} (r : result A) : option exn :=
  match r with
  | Ok _ => None
  | Raise e => Some e
  end.

(** What an observer [f] sees of a computation that returned. *)
Definition on_Ok {A B} (f : A → B) (r : result A) : option B :=
  match r with
  | Ok a => Some (f a)
  | Raise _ => None
  end.

(** The number of distinct identifiers in a list. *)
Definition distinct (ids : list Z) : Z :=
  Z.of_nat (base.size (list_to_set ids : gset Z)).

(** Lines 105-107 (and 111-113): a new identifier gets the next index. *)
Definition assign (mn : gmap Z Z * Z) (r : Z) : gmap Z Z * Z :=
  match mn.1 !! r with
  | None => (<[r := mn.2]> mn.1, mn.2 + 1)
  | Some _ => mn
  end.

(** [m] indexes the identifiers of [ids] densely in the order in which
    they first occur, and [n] is the next free index. *)
Record indexed (ids : list Z) (m : gmap Z Z) (n : Z) : Prop := {
  ix_next : n = distinct ids;
  ix_size : Z.of_nat (base.size m) = n;
  ix_dom : ∀ r, is_Some (m !! r) ↔ r ∈ ids;
  ix_range : ∀ r i, m !! r = Some i → 0 ≤ i < n;
  ix_inj : ∀ r r' i, m !! r = Some i → m !! r' = Some i → r = r';
  ix_surj : ∀ i, 0 ≤ i < n → ∃ r, m !! r = Some i;
  ix_first : ∀ r i, m !! r = Some i →
    ∃ pre post, ids = pre ++ r :: post ∧ (r ∉ pre) ∧ i = distinct pre;
}.

(** [m] has one entry per distinct identifier of [ids], its values are a
    bijection onto [[0, K)] for [K] the number of distinct identifiers, and
    an identifier's index is the number of distinct identifiers seen
    before its first occurrence. *)
Definition dense_first_seen (ids : list Z) (m : gmap Z Z) : Prop :=
  Z.of_nat (base.size m) = distinct ids
  ∧ (∀ r, is_Some (m !! r) ↔ r ∈ ids)
  ∧ (∀ r i, m !! r = Some i → 0 ≤ i < distinct ids)
  ∧ (∀ r r' i, m !! r = Some i → m !! r' = Some i → r = r')
  ∧ (∀ i, 0 ≤ i < distinct ids → ∃ r, m !! r = Some i)
  ∧ (∀ r i, m !! r = Some i →
       ∃ pre post, ids = pre ++ r :: post ∧ (r ∉ pre) ∧ i = distinct pre).

(** All lines of the corpus, in the order of the scan. *)
Definition corpus_lines (files : list (string * list string)) : list string :=
  mjoin (snd <$> files).

(** The configured values with their defaults (lines 30-33 and 41-42),
    and the source files of line 43. *)
Definition cfg_i_id (p : params) : Z := default 0 (itemIdInd p).
Definition cfg_u_id (p : params) : Z := default 1 (userIdInd p).
Definition cfg_r_id (p : params) : Z := default 2 (ratingInd p).
Definition cfg_major (p : params) : string := default "items" (major p).
Definition cfg_delimiter (p : params) : string := default PyStr.tab (delimiter p).
Definition cfg_files (p : params) (fs : list dir_entry) : list (string * list string) :=
  src_files (data_dir p) (default ".txt" (extension p)) fs.
Definition cfg_major_ind (p : params) : Z :=
  if bool_decide (cfg_major p = "items") then cfg_i_id p else cfg_u_id p.
Definition cfg_minor_ind (p : params) : Z :=
  if bool_decide (cfg_major p = "items") then cfg_u_id p else cfg_i_id p.

Definition valid_major (p : params) : Prop :=
  cfg_major p = "items" ∨ cfg_major p = "users".

Section Notions.
Context `{Builtins}.

(** The fields of a line that splits into at least 3. *)
Definition fields (delim line : string) : option (list string) :=
  match PyStr.split (PyStr.strip line) delim with
  | Ok parts => if (length parts <? 3)%nat then None else Some parts
  | Raise _ => None
  end.

(** The field at a configured position. *)
Definition field (parts : list string) (ind : Z) : option string :=
  match getitem parts ind with
  | Ok s => Some s
  | Raise _ => None
  end.

(** The raw user and item identifiers of a line: both fields are there
    and are integer literals. *)
Definition raw_ids (u_ind i_ind : Z) (delim line : string) : option (Z * Z) :=
  parts ← fields delim line;
  u ← field parts u_ind ≫= int;
  i ← field parts i_ind ≫= int;
  Some (u, i).

(** One pass of the body of [_build_maps] on a parsed line. *)
Definition build_step (st : build_state) (ui : Z * Z) : build_state :=
  let um := assign (b_user_id_map st, b_u_id st) ui.1 in
  let im := assign (b_item_id_map st, b_i_id st) ui.2 in
  {| b_user_id_map := um.1; b_item_id_map := im.1; b_u_id := um.2; b_i_id := im.2 |}.

(** The entry a line contributes to the table: its major key and its
    (minor index, rating) pair. *)
Definition entry (major_map minor_map : gmap Z Z) (major_ind minor_ind r_ind : Z)
  (delim line : string) : option (Z * (Z * pyfloat)) :=
  parts ← fields delim line;
  major_orig ← field parts major_ind ≫= int;
  key ← major_map !! major_orig;
  minor_orig ← field parts minor_ind ≫= int;
  value ← minor_map !! minor_orig;
  rating ← field parts r_ind ≫= float;
  Some (key, (value, rating)).

(** Lines 76-78 on the entry of a line. *)
Definition add_entry (d : table pyfloat) (e : Z * (Z * pyfloat)) : table pyfloat :=
  table_append d e.1 e.2.

(** The locals [major_map] and [minor_map] of lines 54-55. *)
Definition major_map (self : UserItemRecDataProvider) : gmap Z Z :=
  if bool_decide (_major self = "items") then _item_id_map self else _user_id_map self.
Definition minor_map (self : UserItemRecDataProvider) : gmap Z Z :=
  if bool_decide (_major self = "items") then _user_id_map self else _item_id_map self.

(** What the generator yields for key [k] when both tables have it. *)
Definition eval_item_of (self : UserItemRecDataProvider) (for_inf : bool) (k : Z)
  : option eval_item :=
  vs ← table_get (data self) k;
  t ← src_data self;
  src_vs ← table_get t k;
  Some {| target := single_row (_vector_dim self) vs;
          source := single_row (_vector_dim self) src_vs;
          item_key := if for_inf then Some k else None |}.

(** Lines 49-53: the supplied maps when both are there, the maps of
    [_build_maps] otherwise. *)
Definition init_maps (p : params) (um im : option (gmap Z Z)) (fs : list dir_entry)
  : result (gmap Z Z * gmap Z Z) :=
  match um, im with
  | Some u, Some i => Ok (u, i)
  | _, _ =>
      st ← _build_maps (cfg_u_id p) (cfg_i_id p) (cfg_delimiter p) (cfg_files p fs);
      Ok (b_user_id_map st, b_item_id_map st)
  end.

(** Lines 54-78: the aggregation pass with the maps [maps]. *)
Definition init_load (p : params) (maps : gmap Z Z * gmap Z Z) (fs : list dir_entry)
  : result (table pyfloat) :=
  for_each
    (load_file (if bool_decide (cfg_major p = "items") then maps.2 else maps.1)
               (if bool_decide (cfg_major p = "items") then maps.1 else maps.2)
               (cfg_major_ind p) (cfg_minor_ind p) (cfg_r_id p) (cfg_delimiter p))
    [] (cfg_files p fs).

(** The first pass over a corpus: the map-building pass, or the
    aggregation pass when both maps are supplied and the former does not
    run.  [first_pass_Ok] says it runs through [files] without raising. *)
Definition first_pass_Ok (p : params) (um im : option (gmap Z Z))
  (files : list (string * list string)) : Prop :=
  match um, im with
  | Some u, Some i =>
      is_Ok (for_each
               (load_file (if bool_decide (cfg_major p = "items") then i else u)
                          (if bool_decide (cfg_major p = "items") then u else i)
                          (cfg_major_ind p) (cfg_minor_ind p) (cfg_r_id p) (cfg_delimiter p))
               [] files)
  | _, _ => is_Ok (_build_maps (cfg_u_id p) (cfg_i_id p) (cfg_delimiter p) files)
  end.

(** The attributes of a provider, the two maps as their lists of items. *)
Definition provider_view (self : UserItemRecDataProvider) :=
  (_params self, _batch_size self, (_i_id self, _u_id self, _r_id self),
   (_major self, _major_ind self, _minor_ind self),
   (_data_dir self, _extension self, _delimiter self),
   (map_to_list (_user_id_map self), map_to_list (_item_id_map self)),
   (_vector_dim self, data self, src_data self)).

End Notions.

Definition iterate_one_epoch_terminates `{Builtins} (self : UserItemRecDataProvider)
  (shuffle : list Z → list Z) : Prop :=
  ∃ n l o, iterate_one_epoch self shuffle n = (l, o) ∧ ∀ st, o ≠ Suspended st.

(** [self.src_data[k]] raises: the attribute was never assigned, or the
    table lacks the key. *)
Definition src_data_missing `{Builtins} (self : UserItemRecDataProvider) (k : Z) : Prop :=
  match src_data self with
  | None => True
  | Some t => table_get t k = None
  end.

(** The exception [self.src_data[k]] then raises. *)
Definition src_data_exn `{Builtins} (self : UserItemRecDataProvider) (k : Z) : exn :=
  match src_data self with
  | None => AttributeError_src_data
  | Some _ => KeyError_src_data k
  end.

(** The line splits into at least 3 fields and the three configured
    positions exist. *)
Definition well_shaped `{Builtins} (p : params) (line : string) : Prop :=
  ∃ parts, fields (cfg_delimiter p) line = Some parts
           ∧ is_Some (field parts (cfg_i_id p))
           ∧ is_Some (field parts (cfg_u_id p))
           ∧ is_Some (field parts (cfg_r_id p)).

(** Moreover the item and user fields are integer literals and the rating
    field is a float literal. *)
Definition parseable `{Builtins} (p : params) (line : string) : Prop :=
  ∃ parts, fields (cfg_delimiter p) line = Some parts
           ∧ is_Some (field parts (cfg_i_id p) ≫= int)
           ∧ is_Some (field parts (cfg_u_id p) ≫= int)
           ∧ is_Some (field parts (cfg_r_id p) ≫= float).

(** The exception is raised by [int()] or by [float()]. *)
Definition numeric_parse_failure (e : exn) : Prop :=
  ∃ s, e = ValueError_int s ∨ e = ValueError_float s.

(** ** Further scenarios *)

Module ExampleRun.
Import Decimal.

(** The provider construction returns on the scenario, for a batch size
    [b]: both maps are [{0: 0, 1: 1}], the table is
    [{0: [(0, 5.0), (1, 4.0)], 1: [(0, 3.0)]}] and [vector_dim] is 2. *)
Definition provider (b : Z) : UserItemRecDataProvider :=
  {| _params := Example.config b; _batch_size := b;
     _i_id := 0; _u_id := 1; _r_id := 2;
     _major := "items"; _major_ind := 0; _minor_ind := 1;
     _data_dir := "data"; _extension := ".txt"; _delimiter := PyStr.tab;
     _user_id_map := {[0 := 0; 1 := 1]}; _item_id_map := {[0 := 0; 1 := 1]};
     _vector_dim := 2;
     data := [(0, [(0, 5%Q); (1, 4%Q)]); (1, [(0, 3%Q)])];
     src_data := None |}.

(** The same three records in two files. *)
Definition dir_split : list dir_entry :=
  [ {| d_name := "a.txt"; d_isfile := true;
       d_lines := [Example.line3 "0" "0" "5.0"] |};
    {| d_name := "notes.md"; d_isfile := true; d_lines := ["not a record"] |};
    {| d_name := "b.txt"; d_isfile := true;
       d_lines := [Example.line3 "1" "0" "3.0"; Example.line3 "0" "1" "4.0"] |} ].

End ExampleRun.

Module ExampleEval.
Import Decimal.

(** The scenario's provider with a source table that lacks key 1. *)
Definition partial_source : UserItemRecDataProvider :=
  set_src_data (ExampleRun.provider 1) [(0, [(1, 2%Q)])].

(** The provider construction returns on an empty data directory. *)
Definition empty : UserItemRecDataProvider :=
  {| _params := Example.config 1; _batch_size := 1;
     _i_id := 0; _u_id := 1; _r_id := 2;
     _major := "items"; _major_ind := 0; _minor_ind := 1;
     _data_dir := "data"; _extension := ".txt"; _delimiter := PyStr.tab;
     _user_id_map := ∅; _item_id_map := ∅;
     _vector_dim := 0;
     data := [];
     src_data := None |}.

End ExampleEval.

Module ExampleBad.
Import Decimal.

(** A record with two fields only, between well-formed ones, and a later
    file. *)
Definition dir_short_line : list dir_entry :=
  [ {| d_name := "a.txt"; d_isfile := true;
       d_lines := [Example.line3 "0" "0" "5.0";
                   "1" +:+ PyStr.tab +:+ "2" +:+ Example.nl;
                   "no record at all"] |};
    {| d_name := "b.txt"; d_isfile := true;
       d_lines := [Example.line3 "zero" "0" "5.0"] |} ].

(** A rating that is no float literal, followed by a record with two
    fields only. *)
Definition dir_rating_then_short : list dir_entry :=
  [ {| d_name := "ratings.txt"; d_isfile := true;
       d_lines := [Example.line3 "0" "0" "x";
                   "1" +:+ PyStr.tab +:+ "2" +:+ Example.nl] |} ].

(** A rating that is no float literal, in a corpus of three-field
    records. *)
Definition dir_bad_rating : list dir_entry :=
  [ {| d_name := "ratings.txt"; d_isfile := true;
       d_lines := [Example.line3 "0" "0" "5.0"; Example.line3 "1" "0" "x"] |} ].

(** A record with two fields only. *)
Definition two_fields : string := "1" +:+ PyStr.tab +:+ "2" +:+ Example.nl.

(** An item identifier that is no integer literal, followed by a record
    with two fields only. *)
Definition dir_item_then_short : list dir_entry :=
  [ {| d_name := "ratings.txt"; d_isfile := true;
       d_lines := [Example.line3 "x" "0" "5.0"; two_fields] |} ].

(** Item 7, followed by a record with two fields only; for maps that do
    not have item 7. *)
Definition dir_item7_then_short : list dir_entry :=
  [ {| d_name := "ratings.txt"; d_isfile := true;
       d_lines := [Example.line3 "7" "0" "5.0"; two_fields] |} ].

End ExampleBad.

(** ** Further notions *)

(** The properties [vector_dim], [userIdMap], [itemIdMap] and [params] of
    lines 166-180. *)
Module Accessors.
Section Accessors.
Context `{Builtins}.

Definition vector_dim (self : UserItemRecDataProvider) : Z := _vector_dim self.
Definition userIdMap (self : UserItemRecDataProvider) : gmap Z Z := _user_id_map self.
Definition itemIdMap (self : UserItemRecDataProvider) : gmap Z Z := _item_id_map self.
Definition params (self : UserItemRecDataProvider) : params := _params self.

End Accessors.
End Accessors.

(** The pairs of a table with their keys, key by key. *)
Definition table_entries {R} (t : table R) : list (Z * (Z * R)) :=
  kv ← t; (λ v, (kv.1, v)) <$> kv.2.

(** The distinct elements of a list, in the order of their first
    occurrences. *)
Fixpoint nub (l : list Z) : list Z :=
  match l with
  | [] => []
  | x :: l' => x :: filter (λ y, y ≠ x) (nub l')
  end.

(** The pairs of the entries [es] that have key [k], in the order of
    [es]. *)
Definition pairs_of {R} (k : Z) (es : list (Z * (Z * R))) : list (Z * R) :=
  snd <$> filter (λ e, e.1 = k) es.

(** The triples of row [i] of a batch, for a key whose pairs are [vs]. *)
Definition row_triples {R} (i : Z) (vs : list (Z * R)) : list (Z * Z * R) :=
  (λ cv, (i, cv.1, cv.2)) <$> vs.

(** The triples of a batch whose rows, numbered from [i], hold the pairs
    [rows]. *)
Fixpoint rows_triples {R} (i : Z) (rows : list (list (Z * R))) : list (Z * Z * R) :=
  match rows with
  | [] => []
  | vs :: rows' => row_triples i vs ++ rows_triples (i + 1) rows'
  end.

Section FurtherNotions.
Context `{Builtins}.

(** The entries of the corpus lines, in the order of the scan, under the
    maps of [self]: [es] has the entry of each line. *)
Definition corpus_entries (p : params) (self : UserItemRecDataProvider)
  (fs : list dir_entry) (es : list (Z * (Z * pyfloat))) : Prop :=
  Forall2 (λ line e,
    entry (major_map self) (minor_map self) (cfg_major_ind p) (cfg_minor_ind p)
      (cfg_r_id p) (cfg_delimiter p) line = Some e)
    (corpus_lines (cfg_files p fs)) es.

(** The instance [__init__] returns once it has the maps [maps] and the
    table [d] (lines 23-56 and 59). *)
Definition provider_of (p : params) (maps : gmap Z Z * gmap Z Z) (d : table pyfloat)
  : UserItemRecDataProvider :=
  {| _params := p;
     _batch_size := batch_size p;
     _i_id := cfg_i_id p;
     _u_id := cfg_u_id p;
     _r_id := cfg_r_id p;
     _major := cfg_major p;
     _major_ind := cfg_major_ind p;
     _minor_ind := cfg_minor_ind p;
     _data_dir := data_dir p;
     _extension := default ".txt" (extension p);
     _delimiter := cfg_delimiter p;
     _user_id_map := maps.1;
     _item_id_map := maps.2;
     _vector_dim :=
       Z.of_nat (base.size (if bool_decide (cfg_major p = "items") then maps.1 else maps.2));
     data := d;
     src_data := None |}.

End FurtherNotions.

Section GeneratorNotions.
Context `{Builtins}.

(** [mb] is the batch of the [batch_size] keys of [keys] from position
    [start]: it has the declared shape, and row [i] holds the pairs of the
    key at position [start + i]. *)
Definition batch_from (self : UserItemRecDataProvider) (keys : list Z) (start : Z)
  (mb : SparseFloatTensor pyfloat) : Prop :=
  size mb = (_batch_size self, _vector_dim self)
  ∧ ∃ rows,
      Forall2 (λ k vs, table_get (data self) k = Some vs)
        (take (Z.to_nat (_batch_size self)) (drop (Z.to_nat start) keys)) rows
      ∧ triples mb = rows_triples 0 rows.

(** The batch without any triple that a loop turn over an empty range
    yields. *)
Definition empty_batch (self : UserItemRecDataProvider) : SparseFloatTensor pyfloat :=
  {| indices := ([], []); values := []; size := (_batch_size self, _vector_dim self) |}.

End GeneratorNotions.

(** The configuration [p] with [major] set to [m]. *)
Definition with_major (p : params) (m : string) : params :=
  {| batch_size := batch_size p;
     itemIdInd := itemIdInd p;
     userIdInd := userIdInd p;
     ratingInd := ratingInd p;
     major := Some m;
     data_dir := data_dir p;
     extension := extension p;
     delimiter := delimiter p |}.

(** An entry with the roles of its two identifiers exchanged. *)
Definition transpose_entry {R} (e : Z * (Z * R)) : Z * (Z * R) :=
  (e.2.1, (e.1, e.2.2)).

Module ExampleTranspose.
Import Decimal.

(** The provider construction returns on the scenario when the
    configuration names ["items"] as major. *)
Definition by_item : UserItemRecDataProvider :=
  {| _params := with_major (Example.config 1) "items"; _batch_size := 1;
     _i_id := 0; _u_id := 1; _r_id := 2;
     _major := "items"; _major_ind := 0; _minor_ind := 1;
     _data_dir := "data"; _extension := ".txt"; _delimiter := PyStr.tab;
     _user_id_map := {[0 := 0; 1 := 1]}; _item_id_map := {[0 := 0; 1 := 1]};
     _vector_dim := 2;
     data := [(0, [(0, 5%Q); (1, 4%Q)]); (1, [(0, 3%Q)])];
     src_data := None |}.

End ExampleTranspose.

Module ExampleConfig.

(** The scenario's configuration with a [major] that is neither of the
    two legal values. *)
Definition bad_major : params :=
  {| batch_size := 1; itemIdInd := None; userIdInd := None; ratingInd := None;
     major := Some "both"; data_dir := "data"; extension := None; delimiter := None |}.

(** The scenario's configuration with the user identifier expected in a
    sixth field. *)
Definition far_user : params :=
  {| batch_size := 1; itemIdInd := None; userIdInd := Some 5; ratingInd := None;
     major := None; data_dir := "data"; extension := None; delimiter := None |}.

(** The scenario's configuration with an empty delimiter. *)
Definition no_delimiter : params :=
  {| batch_size := 1; itemIdInd := None; userIdInd := None; ratingInd := None;
     major := None; data_dir := "data"; extension := None; delimiter := Some "" |}.

(** A directory entry the file filter leaves out: a subdirectory whose
    name ends like a data file. *)
Definition subdir : dir_entry :=
  {| d_name := "old.txt"; d_isfile := false; d_lines := ["no record"] |}.

End ExampleConfig.

Module ExampleSupplied.
Import Decimal.

(** Maps of a caller: they index a user the corpus does not have, and
    number the identifiers otherwise than the scan would. *)
Definition user_map : gmap Z Z := {[0 := 2; 1 := 0; 5 := 1]}.
Definition item_map : gmap Z Z := {[0 := 1; 1 := 0]}.

(** The provider construction returns on the scenario with these maps:
    the table is [{1: [(2, 5.0), (0, 4.0)], 0: [(2, 3.0)]}] and
    [vector_dim] is 3. *)
Definition provider : UserItemRecDataProvider :=
  {| _params := Example.config 1; _batch_size := 1;
     _i_id := 0; _u_id := 1; _r_id := 2;
     _major := "items"; _major_ind := 0; _minor_ind := 1;
     _data_dir := "data"; _extension := ".txt"; _delimiter := PyStr.tab;
     _user_id_map := user_map; _item_id_map := item_map;
     _vector_dim := 3;
     data := [(1, [(2, 5%Q); (0, 4%Q)]); (0, [(2, 3%Q)])];
     src_data := None |}.

End ExampleSupplied.

(** * Lemmas *)

(** ** Basic facts *)

(** Both sides of a characterisation fail: the code raised and the line
    has no parsed form. *)
Ltac raises_on_both_sides := split; [intros [=]|intros (? & [=] & _)].

Lemma for_each_app {S A} (f : S → A → result S) st xs ys :
  for_each f st (xs ++ ys) = st' ← for_each f st xs; for_each f st' ys.
Proof.
  revert st. induction xs as [|x xs IH]; intros st; simpl; [done|].
  destruct (f st x); simpl; auto.
Qed.

Lemma bind_Ok_inv {A B} (m : result A) (f : A → result B) b :
  m ≫= f = Ok b → ∃ a, m = Ok a ∧ f a = Ok b.
Proof. destruct m; simpl; [eauto|done]. Qed.

Lemma length_range a b : length (range a b) = Z.to_nat (b - a).
Proof. unfold range. by rewrite length_fmap, length_seq. Qed.

Lemma elem_of_range a b i : i ∈ range a b ↔ a ≤ i < b.
Proof.
  unfold range. rewrite list_elem_of_fmap. split.
  - intros (n & -> & Hn%elem_of_seq). lia.
  - intros Hi. exists (Z.to_nat (i - a)). split; [lia|].
    apply elem_of_seq. lia.
Qed.

Lemma getitem_Ok {A} (l : list A) (i : Z) :
  0 ≤ i < Z.of_nat (length l) → ∃ x, getitem l i = Ok x ∧ l !! Z.to_nat i = Some x.
Proof.
  intros Hi. unfold getitem.
  destruct (i <? 0) eqn:Hneg; [lia|].
  replace ((0 <=? i) && (i <? Z.of_nat (length l))) with true
    by (symmetry; apply andb_true_iff; lia).
  destruct (l !! Z.to_nat i) as [x|] eqn:Hx; [eauto|].
  apply lookup_ge_None in Hx. lia.
Qed.

Lemma Forall2_elem_of_l {A B} (P : A → B → Prop) l k x :
  Forall2 P l k → x ∈ l → ∃ y, y ∈ k ∧ P x y.
Proof.
  intros HF [i Hi]%list_elem_of_lookup.
  destruct (Forall2_lookup_l _ _ _ _ _ HF Hi) as (y & Hy & HP).
  exists y. split; [by eapply list_elem_of_lookup_2|done].
Qed.

Lemma Forall2_elem_of_r {A B} (P : A → B → Prop) l k y :
  Forall2 P l k → y ∈ k → ∃ x, x ∈ l ∧ P x y.
Proof.
  intros HF [i Hi]%list_elem_of_lookup.
  destruct (Forall2_lookup_r _ _ _ _ _ HF Hi) as (x & Hx & HP).
  exists x. split; [by eapply list_elem_of_lookup_2|done].
Qed.

Lemma table_get_is_Some {R} (t : table R) k :
  k ∈ table_keys t → is_Some (table_get t k).
Proof.
  unfold table_keys. induction t as [|[k' vs] t IH]; simpl.
  - by intros ?%elem_of_nil.
  - intros [->|Hk]%elem_of_cons; destruct (decide _); eauto; done.
Qed.

Lemma gen_run_S {S A} (next : S → result (option (A * S))) n s :
  gen_run next (Datatypes.S n) s
  = match next s with
    | Raise e => ([], Raised e)
    | Ok None => ([], Exhausted)
    | Ok (Some (a, s')) => let '(l, o) := gen_run next n s' in (a :: l, o)
    end.
Proof. done. Qed.

(** ** The training generator *)

Section Epoch.
Context `{Builtins}.
Implicit Types (self : UserItemRecDataProvider) (d : table pyfloat).

Lemma batch_row_Ok d keys acc i k vs :
  getitem keys i = Ok k → table_get d k = Some vs →
  batch_row d keys acc i
  = Ok {| local_ind := local_ind acc + 1;
          inds1 := inds1 acc ++ replicate (length vs) (local_ind acc);
          inds2 := inds2 acc ++ vs.*1;
          vals := vals acc ++ vs.*2 |}.
Proof. intros Hk Hvs. unfold batch_row, data_get. by rewrite Hk; simpl; rewrite Hvs. Qed.

Lemma batch_rows_Ok d keys idxs acc :
  (∀ k, k ∈ keys → is_Some (table_get d k)) →
  (∀ i, i ∈ idxs → 0 ≤ i < Z.of_nat (length keys)) →
  is_Ok (for_each (batch_row d keys) acc idxs).
Proof.
  intros Hkeys. revert acc. induction idxs as [|i idxs IH]; intros acc Hidx; simpl.
  - by eexists.
  - destruct (getitem_Ok keys i) as (k & Hk & Hlk); [apply Hidx; left|].
    destruct (Hkeys k) as [vs Hvs]; [by eapply list_elem_of_lookup_2|].
    rewrite (batch_row_Ok _ _ _ _ _ _ Hk Hvs). simpl.
    apply IH. intros j Hj. apply Hidx. by right.
Qed.

(** A step that passes the test of the [while] yields a batch and moves
    both indices by the batch size. *)
Lemma epoch_next_yield self keys s e :
  (∀ k, k ∈ keys → is_Some (table_get (data self) k)) →
  0 ≤ s → e < Z.of_nat (length keys) →
  ∃ mb, iterate_one_epoch_next self keys (s, e)
        = Ok (Some (mb, (s + _batch_size self, e + _batch_size self))).
Proof.
  intros Hkeys Hs He. unfold iterate_one_epoch_next.
  destruct (e <? _) eqn:Hlt; [|lia].
  edestruct (batch_rows_Ok (data self) keys (range s e)) as [acc ->]; [done| |].
  - intros i Hi%elem_of_range. lia.
  - simpl. eauto.
Qed.

Lemma epoch_next_stop self keys s e :
  Z.of_nat (length keys) ≤ e → iterate_one_epoch_next self keys (s, e) = Ok None.
Proof. intros He. unfold iterate_one_epoch_next. destruct (e <? _) eqn:Hlt; [lia|done]. Qed.

(** With a batch size of at least 1 the loop ends, after as many batches
    as there are multiples of the batch size strictly below the number of
    keys, counted from [e]. *)
Lemma epoch_run_exhausts self keys (n : nat) s e :
  (∀ k, k ∈ keys → is_Some (table_get (data self) k)) →
  1 ≤ _batch_size self → 0 ≤ s →
  Z.max 0 (Z.of_nat (length keys) - e) < Z.of_nat n →
  ∃ l, gen_run (iterate_one_epoch_next self keys) n (s, e) = (l, Exhausted)
       ∧ Z.of_nat (length l)
         = Z.max 0 ((Z.of_nat (length keys) - e + _batch_size self - 1)
                    `div` _batch_size self).
Proof.
  intros Hkeys Hb. revert s e. induction n as [|n IH]; intros s e Hs Hn.
  - lia.
  - rewrite gen_run_S. destruct (decide (e < Z.of_nat (length keys))) as [He|He].
    + destruct (epoch_next_yield self keys s e) as [mb ->]; [done..|].
      destruct (IH (s + _batch_size self) (e + _batch_size self)) as (l & -> & Hl);
        [lia..|].
      exists (mb :: l). split; [done|]. simpl length. rewrite Nat2Z.inj_succ, Hl.
      set (y := Z.of_nat (length keys) - (e + _batch_size self) + _batch_size self - 1).
      replace (Z.of_nat (length keys) - e + _batch_size self - 1)
        with (y + 1 * _batch_size self) by (unfold y; lia).
      rewrite Z.div_add by lia.
      assert (0 ≤ y `div` _batch_size self); [|lia].
      apply Z.div_pos; unfold y; lia.
    + rewrite epoch_next_stop by lia. exists []. split; [done|]. simpl.
      assert (((Z.of_nat (length keys) - e + _batch_size self - 1)
               `div` _batch_size self) < 1); [|lia].
      apply Z.div_lt_upper_bound; lia.
Qed.

(** With a batch size of 0 and at least one key the loop never ends: state
    [(0, 0)] yields an empty batch and comes back to itself. *)
Lemma epoch_next_zero self keys :
  _batch_size self = 0 → keys ≠ [] →
  iterate_one_epoch_next self keys (0, 0)
  = Ok (Some ({| indices := ([], []); values := []; size := (0, _vector_dim self) |},
              (0, 0))).
Proof.
  intros Hb Hkeys. unfold iterate_one_epoch_next.
  assert ((0 <? Z.of_nat (length keys)) = true) as ->.
  { apply Z.ltb_lt. destruct keys; [done|]. simpl length. lia. }
  rewrite Hb. done.
Qed.

Lemma epoch_run_zero_suspended self keys (n : nat) :
  _batch_size self = 0 → keys ≠ [] →
  ∃ l, gen_run (iterate_one_epoch_next self keys) n (0, 0) = (l, Suspended (0, 0))
       ∧ length l = n.
Proof.
  intros Hb Hkeys. induction n as [|n (l & IH & Hl)].
  - by exists [].
  - rewrite gen_run_S, epoch_next_zero, IH by done.
    eexists. split; [done|]. simpl. by rewrite Hl.
Qed.

End Epoch.

(** ** Dense indices in first-seen order *)

Lemma list_to_set_snoc (ids : list Z) r :
  (list_to_set (ids ++ [r]) : gset Z) = list_to_set ids ∪ {[r]}.
Proof. rewrite list_to_set_app_L. simpl. by rewrite union_empty_r_L. Qed.

Lemma distinct_snoc_old ids r : r ∈ ids → distinct (ids ++ [r]) = distinct ids.
Proof.
  intros Hr. unfold distinct. rewrite list_to_set_snoc.
  assert (r ∈ (list_to_set ids : gset Z)) as Hr' by by apply elem_of_list_to_set.
  assert ((list_to_set ids : gset Z) ∪ {[r]} = list_to_set ids) as ->; [|done].
  rewrite (comm_L (∪)). by apply subseteq_union_1_L, singleton_subseteq_l.
Qed.

Lemma distinct_snoc_new ids r : r ∉ ids → distinct (ids ++ [r]) = distinct ids + 1.
Proof.
  intros Hr. unfold distinct. rewrite list_to_set_snoc, size_union, size_singleton.
  - lia.
  - apply disjoint_singleton_r. by rewrite elem_of_list_to_set.
Qed.

Lemma indexed_nil : indexed [] ∅ 0.
Proof.
  split; try done.
  - intros r. rewrite lookup_empty. split; [by intros [? ?]|by intros ?%elem_of_nil].
  - lia.
Qed.

Lemma indexed_snoc ids m n r :
  indexed ids m n → indexed (ids ++ [r]) (assign (m, n) r).1 (assign (m, n) r).2.
Proof.
  intros [Hn Hsz Hdom Hran Hinj Hsur Hfst]. unfold assign. simpl.
  destruct (m !! r) as [j|] eqn:Hr; simpl.
  - assert (r ∈ ids) as Hin by (apply Hdom; eauto).
    split; rewrite ?distinct_snoc_old by done; try done.
    + intros r'. rewrite Hdom, elem_of_app, list_elem_of_singleton.
      split; [auto|intros [?| ->]; auto].
    + intros r' i Hi. destruct (Hfst r' i Hi) as (pre & post & -> & ? & ->).
      exists pre, (post ++ [r]). by rewrite <-app_assoc.
  - assert (r ∉ ids) as Hin.
    { intros Hin%Hdom. rewrite Hr in Hin. by destruct Hin. }
    split; rewrite ?distinct_snoc_new by done.
    + lia.
    + rewrite map_size_insert_None by done. lia.
    + intros r'. rewrite lookup_insert_is_Some, Hdom, elem_of_app, list_elem_of_singleton.
      destruct (decide (r = r')); split; intros [?|?]; auto; tauto.
    + intros r' i. rewrite lookup_insert. case_decide; [intros [= <-]; lia|].
      intros ?%Hran. lia.
    + intros r1 r2 i. rewrite !lookup_insert.
      repeat case_decide; subst; try done.
      * intros [= <-] ?%Hran. lia.
      * intros ?%Hran [= <-]. lia.
      * apply Hinj.
    + intros i Hi. destruct (decide (i = n)) as [->|].
      * exists r. by rewrite lookup_insert_eq.
      * destruct (Hsur i) as [r' Hr']; [lia|]. exists r'.
        rewrite lookup_insert_ne; [done|]. intros <-. congruence.
    + intros r' i. rewrite lookup_insert. case_decide as Heq.
      * intros [= <-]. subst r'. exists ids, []. by rewrite Hn.
      * intros Hi. destruct (Hfst r' i Hi) as (pre & post & -> & ? & ->).
        exists pre, (post ++ [r]). by rewrite <-app_assoc.
Qed.

Lemma indexed_fold ids seen m n :
  indexed seen m n →
  indexed (seen ++ ids) (fold_left assign ids (m, n)).1 (fold_left assign ids (m, n)).2.
Proof.
  revert seen m n. induction ids as [|r ids IH]; intros seen m n Hix; simpl.
  - by rewrite app_nil_r.
  - replace (seen ++ r :: ids) with ((seen ++ [r]) ++ ids) by by rewrite <-app_assoc.
    destruct (assign (m, n) r) as [m' n'] eqn:Ha.
    apply IH. pose proof (indexed_snoc _ _ _ r Hix) as Hix'. by rewrite Ha in Hix'.
Qed.

(** The whole scan, from the empty map. *)
Lemma indexed_scan ids :
  indexed ids (fold_left assign ids (∅, 0)).1 (fold_left assign ids (∅, 0)).2.
Proof. apply (indexed_fold ids [] ∅ 0 indexed_nil). Qed.

(** ** Well-formed lines *)

Section Lines.
Context `{Builtins}.

Lemma read_parts_fields delim source_file line parts :
  read_parts delim source_file line = Ok parts ↔ fields delim line = Some parts.
Proof.
  unfold read_parts, fields. destruct (PyStr.split _ _) as [ps|e]; simpl; [|done].
  destruct (length ps <? 3)%nat; split; congruence.
Qed.

Lemma getitem_field parts ind s : getitem parts ind = Ok s ↔ field parts ind = Some s.
Proof. unfold field. destruct (getitem parts ind); split; congruence. Qed.

Lemma py_int_Ok s z : py_int s = Ok z ↔ int s = Some z.
Proof. unfold py_int. destruct (int s); split; congruence. Qed.

Lemma build_line_Ok u_ind i_ind delim source_file st line st' :
  build_line u_ind i_ind delim source_file st line = Ok st' ↔
  ∃ ui, raw_ids u_ind i_ind delim line = Some ui ∧ st' = build_step st ui.
Proof.
  unfold build_line, raw_ids, fields, read_parts, field, py_int.
  destruct (PyStr.split _ _) as [parts|e]; simpl; [|raises_on_both_sides].
  destruct (length parts <? 3)%nat; simpl; [raises_on_both_sides|].
  destruct (getitem parts u_ind) as [us|e]; simpl; [|raises_on_both_sides].
  destruct (int us) as [u|]; simpl; [|raises_on_both_sides].
  destruct (getitem parts i_ind) as [i_s|e]; simpl; [|raises_on_both_sides].
  destruct (int i_s) as [i|]; simpl; [|raises_on_both_sides].
  match goal with
  | |- Ok ?x = _ ↔ _ => assert (x = build_step st (u, i)) as ->
  end.
  { unfold build_step, assign. destruct st as [um im un i_n]; simpl.
    destruct (um !! u); simpl; by destruct (im !! i). }
  split; [intros [= <-]; eauto|by intros (ui & [= <-] & ->)].
Qed.

Lemma build_lines_Ok u_ind i_ind delim source_file lines st st' :
  for_each (build_line u_ind i_ind delim source_file) st lines = Ok st' ↔
  ∃ ids, Forall2 (λ line ui, raw_ids u_ind i_ind delim line = Some ui) lines ids
         ∧ st' = fold_left build_step ids st.
Proof.
  revert st. induction lines as [|line lines IH]; intros st; simpl.
  - split.
    + intros [= <-]. exists []. by split; [constructor|].
    + intros (ids & ->%Forall2_nil_inv_l & ->). done.
  - split.
    + intros (st1 & (ui & Hui & ->)%build_line_Ok & (ids & Hids & ->)%IH)%bind_Ok_inv.
      exists (ui :: ids). by split; [constructor|].
    + intros (ids & (ui & ids' & Hui & Hids & ->)%Forall2_cons_inv_l & ->).
      assert (build_line u_ind i_ind delim source_file st line = Ok (build_step st ui)) as ->.
      { apply build_line_Ok. eauto. }
      simpl. apply IH. eauto.
Qed.

Lemma for_each_cons {S A} (f : S → A → result S) st x xs :
  for_each f st (x :: xs) = st' ← f st x; for_each f st' xs.
Proof. done. Qed.

Lemma build_files_Ok u_ind i_ind delim files st st' :
  for_each (build_file u_ind i_ind delim) st files = Ok st' ↔
  ∃ ids, Forall2 (λ line ui, raw_ids u_ind i_ind delim line = Some ui)
           (corpus_lines files) ids
         ∧ st' = fold_left build_step ids st.
Proof.
  revert st. induction files as [|[f lines] files IH]; intros st.
  - simpl. split.
    + intros [= <-]. exists []. by split; [constructor|].
    + intros (ids & ->%Forall2_nil_inv_l & ->). done.
  - rewrite for_each_cons.
    change (build_file u_ind i_ind delim st (f, lines))
      with (for_each (build_line u_ind i_ind delim f) st lines).
    change (corpus_lines ((f, lines) :: files)) with (lines ++ corpus_lines files).
    split.
    + intros (st1 & (ids1 & H1 & ->)%build_lines_Ok & (ids2 & H2 & ->)%IH)%bind_Ok_inv.
      exists (ids1 ++ ids2). split; [by apply Forall2_app|]. by rewrite fold_left_app.
    + intros (ids & (ids1 & ids2 & H1 & H2 & ->)%Forall2_app_inv_l & ->).
      assert (for_each (build_line u_ind i_ind delim f) st lines
              = Ok (fold_left build_step ids1 st)) as ->.
      { apply build_lines_Ok. eauto. }
      simpl. apply IH. exists ids2. by rewrite fold_left_app.
Qed.

(** The two components of the scan are independent. *)
Lemma fold_build_step ids st :
  let st' := fold_left build_step ids st in
  (b_user_id_map st', b_u_id st')
    = fold_left assign ids.*1 (b_user_id_map st, b_u_id st)
  ∧ (b_item_id_map st', b_i_id st')
    = fold_left assign ids.*2 (b_item_id_map st, b_i_id st).
Proof.
  revert st. induction ids as [|ui ids IH]; intros st; simpl; [done|].
  destruct (IH (build_step st ui)) as [-> ->]. unfold build_step. simpl.
  by rewrite <-!surjective_pairing.
Qed.

(** [_build_maps] succeeds exactly on the corpora all of whose lines have
    raw identifiers, and then indexes both identifier sequences. *)
Lemma build_maps_Ok u_ind i_ind delim files st :
  _build_maps u_ind i_ind delim files = Ok st ↔
  ∃ ids, Forall2 (λ line ui, raw_ids u_ind i_ind delim line = Some ui)
           (corpus_lines files) ids
         ∧ (b_user_id_map st, b_u_id st) = fold_left assign ids.*1 (∅, 0)
         ∧ (b_item_id_map st, b_i_id st) = fold_left assign ids.*2 (∅, 0).
Proof.
  unfold _build_maps. rewrite build_files_Ok. split.
  - intros (ids & Hids & ->). exists ids. split; [done|]. apply fold_build_step.
  - intros (ids & Hids & Hu & Hi). exists ids. split; [done|].
    destruct (fold_build_step ids
      {| b_user_id_map := ∅; b_item_id_map := ∅; b_u_id := 0; b_i_id := 0 |}) as [Hu' Hi'].
    simpl in *. rewrite <-Hu in Hu'. rewrite <-Hi in Hi'.
    destruct st, (fold_left build_step ids _). simpl in *. congruence.
Qed.

Lemma build_maps_indexed u_ind i_ind delim files st ids :
  _build_maps u_ind i_ind delim files = Ok st →
  Forall2 (λ line ui, raw_ids u_ind i_ind delim line = Some ui) (corpus_lines files) ids →
  indexed ids.*1 (b_user_id_map st) (b_u_id st)
  ∧ indexed ids.*2 (b_item_id_map st) (b_i_id st).
Proof.
  intros (ids' & Hids' & Hu & Hi)%build_maps_Ok Hids.
  assert (ids' = ids) as ->.
  { clear Hu Hi. revert ids' Hids'. induction Hids; intros ids' Hids'.
    - by apply Forall2_nil_inv_l in Hids'.
    - apply Forall2_cons_inv_l in Hids' as (? & ? & ? & ? & ->).
      f_equal; [congruence|auto]. }
  pose proof (indexed_scan ids.*1) as H1. rewrite <-Hu in H1.
  pose proof (indexed_scan ids.*2) as H2. rewrite <-Hi in H2. done.
Qed.

End Lines.

(** ** The aggregation pass *)

Section Load.
Context `{Builtins}.
Implicit Types (d : table pyfloat) (e : Z * (Z * pyfloat)).

Lemma load_line_Ok major_map minor_map major_ind minor_ind r_ind delim source_file d line d' :
  load_line major_map minor_map major_ind minor_ind r_ind delim source_file d line = Ok d' ↔
  ∃ e, entry major_map minor_map major_ind minor_ind r_ind delim line = Some e
       ∧ d' = add_entry d e.
Proof.
  unfold load_line, entry, fields, read_parts, field, py_int, py_float, id_map_get, add_entry.
  destruct (PyStr.split _ _) as [parts|?]; simpl; [|raises_on_both_sides].
  destruct (length parts <? 3)%nat; simpl; [raises_on_both_sides|].
  destruct (getitem parts major_ind) as [s1|?]; simpl; [|raises_on_both_sides].
  destruct (int s1) as [a|]; simpl; [|raises_on_both_sides].
  destruct (major_map !! a) as [key|]; simpl; [|raises_on_both_sides].
  destruct (getitem parts minor_ind) as [s2|?]; simpl; [|raises_on_both_sides].
  destruct (int s2) as [b|]; simpl; [|raises_on_both_sides].
  destruct (minor_map !! b) as [value|]; simpl; [|raises_on_both_sides].
  destruct (getitem parts r_ind) as [s3|?]; simpl; [|raises_on_both_sides].
  destruct (float s3) as [r|]; simpl; [|raises_on_both_sides].
  split; [intros [= <-]; eauto|by intros (e & [= <-] & ->)].
Qed.

Lemma load_lines_Ok major_map minor_map major_ind minor_ind r_ind delim source_file lines d d' :
  for_each (load_line major_map minor_map major_ind minor_ind r_ind delim source_file)
    d lines = Ok d' ↔
  ∃ es, Forall2 (λ line e,
          entry major_map minor_map major_ind minor_ind r_ind delim line = Some e) lines es
        ∧ d' = fold_left add_entry es d.
Proof.
  revert d. induction lines as [|line lines IH]; intros d.
  - simpl. split.
    + intros [= <-]. exists []. by split; [constructor|].
    + intros (es & ->%Forall2_nil_inv_l & ->). done.
  - rewrite for_each_cons. split.
    + intros (d1 & (e & He & ->)%load_line_Ok & (es & Hes & ->)%IH)%bind_Ok_inv.
      exists (e :: es). by split; [constructor|].
    + intros (es & (e & es' & He & Hes & ->)%Forall2_cons_inv_l & ->).
      assert (load_line major_map minor_map major_ind minor_ind r_ind delim source_file d line
              = Ok (add_entry d e)) as ->.
      { apply load_line_Ok. eauto. }
      simpl. apply IH. eauto.
Qed.

Lemma load_files_Ok major_map minor_map major_ind minor_ind r_ind delim files d d' :
  for_each (load_file major_map minor_map major_ind minor_ind r_ind delim) d files = Ok d' ↔
  ∃ es, Forall2 (λ line e,
          entry major_map minor_map major_ind minor_ind r_ind delim line = Some e)
          (corpus_lines files) es
        ∧ d' = fold_left add_entry es d.
Proof.
  revert d. induction files as [|[f lines] files IH]; intros d.
  - simpl. split.
    + intros [= <-]. exists []. by split; [constructor|].
    + intros (es & ->%Forall2_nil_inv_l & ->). done.
  - rewrite for_each_cons.
    change (load_file major_map minor_map major_ind minor_ind r_ind delim d (f, lines))
      with (for_each (load_line major_map minor_map major_ind minor_ind r_ind delim f) d lines).
    change (corpus_lines ((f, lines) :: files)) with (lines ++ corpus_lines files).
    split.
    + intros (d1 & (es1 & H1 & ->)%load_lines_Ok & (es2 & H2 & ->)%IH)%bind_Ok_inv.
      exists (es1 ++ es2). split; [by apply Forall2_app|]. by rewrite fold_left_app.
    + intros (es & (es1 & es2 & H1 & H2 & ->)%Forall2_app_inv_l & ->).
      assert (for_each (load_line major_map minor_map major_ind minor_ind r_ind delim f) d lines
              = Ok (fold_left add_entry es1 d)) as ->.
      { apply load_lines_Ok. eauto. }
      simpl. apply IH. exists es2. by rewrite fold_left_app.
Qed.

(** *** Invariants of the table *)

Lemma table_keys_append d k v :
  table_keys (table_append d k v)
  = if decide (k ∈ table_keys d) then table_keys d else table_keys d ++ [k].
Proof.
  unfold table_keys. induction d as [|[k' vs] d IH].
  - destruct (decide (k ∈ _)) as [Hin|]; [by apply elem_of_nil in Hin|done].
  - rewrite fmap_cons. simpl table_append. simpl fst.
    destruct (decide (k = k')) as [->|Hne].
    + rewrite fmap_cons. simpl fst.
      destruct (decide (k' ∈ k' :: d.*1)) as [|Hn]; [done|]. destruct Hn. by left.
    + rewrite fmap_cons, IH. simpl fst.
      destruct (decide (k ∈ d.*1)) as [Hin|Hin];
        destruct (decide (k ∈ k' :: d.*1)) as [Hin'|Hin']; try done.
      * destruct Hin'. by right.
      * by apply elem_of_cons in Hin' as [?|?].
Qed.

Lemma table_append_NoDup d k v :
  NoDup (table_keys d) → NoDup (table_keys (table_append d k v)).
Proof.
  intros Hd. rewrite table_keys_append. case_decide; [done|].
  apply NoDup_app. split_and!; [done| |apply NoDup_singleton].
  intros x Hx ->%list_elem_of_singleton. done.
Qed.

(** Every pair stored in the table satisfies [P] when every appended pair
    does. *)
Lemma table_append_Forall (P : Z * pyfloat → Prop) d k v :
  Forall (λ kv, Forall P kv.2) d → P v → Forall (λ kv, Forall P kv.2) (table_append d k v).
Proof.
  intros Hd Hv. induction Hd as [|[k' vs] d Hvs Hd IH]; simpl.
  - repeat constructor. done.
  - destruct (decide (k = k')); constructor; simpl in *; auto.
    apply Forall_app. split; [done|]. by constructor.
Qed.

Lemma fold_add_entry_NoDup es d :
  NoDup (table_keys d) → NoDup (table_keys (fold_left add_entry es d)).
Proof.
  revert d. induction es as [|e es IH]; intros d Hd; simpl; [done|].
  apply IH. by apply table_append_NoDup.
Qed.

Lemma fold_add_entry_Forall (P : Z * pyfloat → Prop) es d :
  Forall (λ kv, Forall P kv.2) d → Forall (λ e, P e.2) es →
  Forall (λ kv, Forall P kv.2) (fold_left add_entry es d).
Proof.
  revert d. induction es as [|e es IH]; intros d Hd Hes; simpl; [done|].
  apply Forall_cons in Hes as [He Hes]. apply IH; [|done].
  by apply table_append_Forall.
Qed.

(** The minor index of an entry is a value of the minor map. *)
Lemma entry_minor major_map minor_map major_ind minor_ind r_ind delim line e :
  entry major_map minor_map major_ind minor_ind r_ind delim line = Some e →
  ∃ raw, minor_map !! raw = Some e.2.1.
Proof.
  unfold entry. intros Hentry.
  repeat (apply bind_Some in Hentry as (? & ? & Hentry)).
  injection Hentry as <-. eauto.
Qed.

End Load.

(** ** Construction *)

Section Construction.
Context `{Builtins}.

Lemma init_invalid_major p um im fs :
  ¬ valid_major p → __init__ p um im fs = Raise (ValueError_major (cfg_major p)).
Proof.
  unfold valid_major, __init__, cfg_major. intros Hm.
  destruct (bool_decide (default "items" (major p) = "items")) eqn:H1;
    [apply bool_decide_eq_true in H1; tauto|].
  destruct (bool_decide (default "items" (major p) = "users")) eqn:H2;
    [apply bool_decide_eq_true in H2; tauto|]. done.
Qed.

(** What a successful construction has done. *)
Lemma init_Ok_inv p um im fs self :
  __init__ p um im fs = Ok self →
  valid_major p
  ∧ _batch_size self = batch_size p
  ∧ _major self = cfg_major p
  ∧ _vector_dim self = Z.of_nat (base.size (minor_map self))
  ∧ src_data self = None
  ∧ match um, im with
    | Some u, Some i => _user_id_map self = u ∧ _item_id_map self = i
    | _, _ =>
        ∃ st, _build_maps (cfg_u_id p) (cfg_i_id p) (cfg_delimiter p) (cfg_files p fs) = Ok st
              ∧ _user_id_map self = b_user_id_map st
              ∧ _item_id_map self = b_item_id_map st
    end
  ∧ for_each (load_file (major_map self) (minor_map self)
                (cfg_major_ind p) (cfg_minor_ind p) (cfg_r_id p) (cfg_delimiter p))
      [] (cfg_files p fs) = Ok (data self).
Proof.
  intros Hinit. destruct (decide (valid_major p)) as [Hm|Hm];
    [|by rewrite init_invalid_major in Hinit].
  split; [done|]. revert Hinit.
  unfold __init__, cfg_major_ind, cfg_minor_ind, cfg_major, cfg_u_id, cfg_i_id, cfg_r_id,
    cfg_delimiter, cfg_files, major_map, minor_map.
  destruct (negb _); [done|].
  intros (maps & Hmaps & (d & Hd & [= <-])%bind_Ok_inv)%bind_Ok_inv. simpl.
  split_and!; try done.
  destruct um as [u|], im as [i|]; simpl in Hmaps.
  - by injection Hmaps as <-.
  - apply bind_Ok_inv in Hmaps as (st & Hst & [= <-]). eauto.
  - apply bind_Ok_inv in Hmaps as (st & Hst & [= <-]). eauto.
  - apply bind_Ok_inv in Hmaps as (st & Hst & [= <-]). eauto.
Qed.

(** Both passes see the corpus only as its sequence of lines. *)
Lemma build_maps_lines u_ind i_ind delim files1 files2 st :
  corpus_lines files1 = corpus_lines files2 →
  _build_maps u_ind i_ind delim files1 = Ok st →
  _build_maps u_ind i_ind delim files2 = Ok st.
Proof.
  unfold _build_maps. intros Heq. rewrite !build_files_Ok. by rewrite Heq.
Qed.

Lemma load_files_lines mm nm major_ind minor_ind r_ind delim files1 files2 d d' :
  corpus_lines files1 = corpus_lines files2 →
  for_each (load_file mm nm major_ind minor_ind r_ind delim) d files1 = Ok d' →
  for_each (load_file mm nm major_ind minor_ind r_ind delim) d files2 = Ok d'.
Proof. intros Heq. rewrite !load_files_Ok. by rewrite Heq. Qed.

Lemma init_lines p um im fs1 fs2 self :
  corpus_lines (cfg_files p fs1) = corpus_lines (cfg_files p fs2) →
  __init__ p um im fs1 = Ok self → __init__ p um im fs2 = Ok self.
Proof.
  unfold __init__, cfg_files. intros Heq. destruct (negb _); [done|].
  intros (maps & Hmaps & (d & Hd & [= <-])%bind_Ok_inv)%bind_Ok_inv.
  assert (match um, im with
          | Some um, Some im => Ok (um, im)
          | _, _ =>
              st ← _build_maps (default 1 (userIdInd p)) (default 0 (itemIdInd p))
                     (default PyStr.tab (delimiter p))
                     (src_files (data_dir p) (default ".txt" (extension p)) fs2);
              Ok (b_user_id_map st, b_item_id_map st)
          end = Ok maps) as ->.
  { destruct um, im; try done;
      apply bind_Ok_inv in Hmaps as (st & Hst & [= <-]);
      by rewrite (build_maps_lines _ _ _ _ _ _ Heq Hst). }
  simpl. by rewrite (load_files_lines _ _ _ _ _ _ _ _ _ _ Heq Hd).
Qed.

End Construction.

Lemma result_by_raised {A} (r : result A) e : raised r = Some e → r = Raise e.
Proof. destruct r; simpl; congruence. Qed.

Lemma on_Ok_is_Ok {A B} (f : A → B) r b : on_Ok f r = Some b → is_Ok r.
Proof. destruct r; [by eexists|done]. Qed.

Lemma gmap_eq_to_list (m1 m2 : gmap Z Z) : map_to_list m1 = map_to_list m2 → m1 = m2.
Proof.
  intros Heq. by rewrite <-(list_to_map_to_list m1), <-(list_to_map_to_list m2), Heq.
Qed.

(** A provider is determined by its view. *)
Lemma provider_view_inj `{Builtins} (s1 s2 : UserItemRecDataProvider) :
  provider_view s1 = provider_view s2 → s1 = s2.
Proof.
  destruct s1, s2. unfold provider_view. simpl. intros [=]. subst.
  repeat match goal with
         | Hm : map_to_list _ = map_to_list _ |- _ => apply gmap_eq_to_list in Hm
         end.
  by subst.
Qed.

Lemma result_by_view `{Builtins} (r : result UserItemRecDataProvider) s :
  on_Ok provider_view r = Some (provider_view s) → r = Ok s.
Proof.
  destruct r as [s'|e]; simpl; [|done]. intros Hview%(inj Some). f_equal.
  by apply provider_view_inj.
Qed.

Lemma init_example b :
  __init__ (Example.config b) None None Example.dir = Ok (ExampleRun.provider b).
Proof. apply result_by_view. vm_compute. reflexivity. Qed.

Lemma indexed_dense_first_seen ids m n : indexed ids m n → dense_first_seen ids m.
Proof.
  intros [Hn Hsz Hdom Hran Hinj Hsur Hfst]. subst n. by split_and!.
Qed.

Section Bounds.
Context `{Builtins}.

(** A successful construction with internally built maps stores only
    minor indices below [vector_dim]. *)
Lemma init_data_in_range p um im fs self :
  um = None ∨ im = None →
  __init__ p um im fs = Ok self →
  Forall (λ kv, Forall (λ cv : Z * pyfloat, 0 ≤ cv.1 < _vector_dim self) kv.2) (data self).
Proof.
  intros Hnone (_ & _ & _ & Hvd & _ & Hmaps & Hload)%init_Ok_inv.
  assert (∃ st, _build_maps (cfg_u_id p) (cfg_i_id p) (cfg_delimiter p) (cfg_files p fs) = Ok st
                ∧ _user_id_map self = b_user_id_map st
                ∧ _item_id_map self = b_item_id_map st) as (st & Hst & Hum & Him).
  { destruct um, im; try done; by destruct Hnone. }
  pose proof Hst as (ids & Hids & _)%build_maps_Ok.
  destruct (build_maps_indexed _ _ _ _ _ _ Hst Hids) as [Hu Hi].
  assert (∀ raw c, minor_map self !! raw = Some c → 0 ≤ c < _vector_dim self) as Hminor.
  { rewrite Hvd. unfold minor_map. rewrite Hum, Him.
    destruct (bool_decide _); intros raw c Hc.
    - rewrite (ix_size _ _ _ Hu). by eapply ix_range.
    - rewrite (ix_size _ _ _ Hi). by eapply ix_range. }
  apply load_files_Ok in Hload as (es & Hes & ->).
  apply fold_add_entry_Forall; [constructor|].
  apply Forall_forall. intros e He.
  apply (Forall2_elem_of_r _ _ _ _ Hes) in He as (line & _ & Hline).
  apply entry_minor in Hline as [raw Hraw]. by eapply Hminor.
Qed.

(** One batch: the rows written are below the number of keys of the batch
    and the columns are columns of the table. *)
Lemma batch_rows_bounds (P : Z → Prop) d keys idxs acc acc' :
  Forall (λ kv, Forall (λ cv : Z * pyfloat, P cv.1) kv.2) d →
  for_each (batch_row d keys) acc idxs = Ok acc' →
  0 ≤ local_ind acc →
  Forall (λ r, 0 ≤ r < local_ind acc) (inds1 acc) →
  Forall P (inds2 acc) →
  local_ind acc' = local_ind acc + Z.of_nat (length idxs)
  ∧ Forall (λ r, 0 ≤ r < local_ind acc') (inds1 acc')
  ∧ Forall P (inds2 acc').
Proof.
  intros Hd. revert acc. induction idxs as [|i idxs IH]; intros acc Hrun Hlo H1 H2.
  - injection Hrun as <-. simpl. split_and!; [lia|done..].
  - rewrite for_each_cons in Hrun. apply bind_Ok_inv in Hrun as (acc1 & Hrow & Hrun).
    unfold batch_row in Hrow.
    apply bind_Ok_inv in Hrow as (k & Hk & (vs & Hvs & [= <-])%bind_Ok_inv).
    apply IH in Hrun as (Hl & H1' & H2'); simpl in *.
    + split_and!; [lia|done..].
    + lia.
    + apply Forall_app. split.
      * eapply Forall_impl; [exact H1|]. simpl. lia.
      * apply Forall_replicate. lia.
    + apply Forall_app. split; [done|].
      unfold data_get in Hvs. destruct (table_get d k) as [vs'|] eqn:Hget; [|done].
      injection Hvs as ->. apply Forall_fmap.
      clear -Hd Hget. induction Hd as [|[k' ws] d Hws Hd IH]; simpl in *; [done|].
      destruct (decide (k = k')); [by injection Hget as <-|auto].
Qed.

Lemma epoch_next_bounds self keys s e mb st' :
  Forall (λ kv, Forall (λ cv : Z * pyfloat, 0 ≤ cv.1 < _vector_dim self) kv.2) (data self) →
  e = s + _batch_size self →
  iterate_one_epoch_next self keys (s, e) = Ok (Some (mb, st')) →
  st' = (s + _batch_size self, e + _batch_size self)
  ∧ Forall (λ r, 0 ≤ r < _batch_size self) (indices mb).1
  ∧ Forall (λ c, 0 ≤ c < _vector_dim self) (indices mb).2.
Proof.
  intros Hd He. unfold iterate_one_epoch_next. destruct (e <? _); [|done].
  intros (acc & Hacc & [= <- <-])%bind_Ok_inv. simpl.
  eapply (batch_rows_bounds (λ c, 0 ≤ c < _vector_dim self)) in Hacc as (Hl & H1 & H2);
    [|exact Hd|simpl..]; try done.
  split_and!; [done| |done].
  eapply Forall_impl; [exact H1|]. simpl. intros r Hr.
  rewrite Hl, length_range in Hr. simpl in Hr. lia.
Qed.

Lemma epoch_run_bounds self keys n s e :
  Forall (λ kv, Forall (λ cv : Z * pyfloat, 0 ≤ cv.1 < _vector_dim self) kv.2) (data self) →
  e = s + _batch_size self →
  Forall (λ mb, Forall (λ r, 0 ≤ r < _batch_size self) (indices mb).1
                ∧ Forall (λ c, 0 ≤ c < _vector_dim self) (indices mb).2)
    (gen_run (iterate_one_epoch_next self keys) n (s, e)).1.
Proof.
  intros Hd. revert s e. induction n as [|n IH]; intros s e He; [constructor|].
  rewrite gen_run_S.
  destruct (iterate_one_epoch_next self keys (s, e)) as [[[mb st']|]|] eqn:Hnext;
    [|constructor..].
  apply epoch_next_bounds in Hnext as (-> & H1 & H2); [|done..].
  specialize (IH (s + _batch_size self) (e + _batch_size self)).
  destruct (gen_run _ n _) as [l o]. simpl in *. constructor; [done|]. apply IH. lia.
Qed.

End Bounds.

(** ** The evaluation generator *)

Section Eval.
Context `{Builtins}.

Lemma getitem_app_middle {A} (l1 l2 : list A) x :
  getitem (l1 ++ x :: l2) (Z.of_nat (length l1)) = Ok x.
Proof.
  destruct (getitem_Ok (l1 ++ x :: l2) (Z.of_nat (length l1))) as (y & -> & Hy).
  { rewrite length_app. simpl. lia. }
  rewrite Nat2Z.id, list_lookup_middle in Hy by done. congruence.
Qed.

(** A step at a key both tables have yields its element and moves on. *)
Lemma eval_next_yield self for_inf done k rest it :
  eval_item_of self for_inf k = Some it →
  iterate_one_epoch_eval_next self for_inf (done ++ k :: rest) (Z.of_nat (length done))
  = Ok (Some (it, Z.of_nat (length (done ++ [k])))).
Proof.
  unfold eval_item_of, iterate_one_epoch_eval_next, data_get, src_data_get.
  intros Hit.
  destruct (table_get (data self) k) as [vs|] eqn:Hvs; [|done].
  destruct (src_data self) as [t|] eqn:Ht; [|done]. simpl in Hit.
  destruct (table_get t k) as [src_vs|] eqn:Hsrc; [|done]. injection Hit as <-.
  assert ((Z.of_nat (length done) <? Z.of_nat (length (done ++ k :: rest))) = true) as ->.
  { apply Z.ltb_lt. rewrite length_app. simpl. lia. }
  rewrite getitem_app_middle. simpl. rewrite Hvs. simpl. rewrite Hsrc. simpl.
  replace (Z.of_nat (length done) + 1 - 1) with (Z.of_nat (length done)) by lia.
  rewrite getitem_app_middle, length_app. simpl.
  replace (Z.of_nat (length done + 1)) with (Z.of_nat (length done) + 1) by lia.
  by destruct for_inf.
Qed.

Lemma eval_next_stop self for_inf keys :
  iterate_one_epoch_eval_next self for_inf keys (Z.of_nat (length keys)) = Ok None.
Proof.
  unfold iterate_one_epoch_eval_next.
  by assert ((Z.of_nat (length keys) <? Z.of_nat (length keys)) = false) as ->
    by (apply Z.ltb_ge; lia).
Qed.

(** A step at a key the source table lacks, or without a source table,
    raises. *)
Lemma eval_next_raise self for_inf done k rest :
  is_Some (table_get (data self) k) →
  match src_data self with
  | None => True
  | Some t => table_get t k = None
  end →
  iterate_one_epoch_eval_next self for_inf (done ++ k :: rest) (Z.of_nat (length done))
  = Raise match src_data self with
          | None => AttributeError_src_data
          | Some _ => KeyError_src_data k
          end.
Proof.
  unfold iterate_one_epoch_eval_next, data_get, src_data_get. intros [vs Hvs] Hsrc.
  assert ((Z.of_nat (length done) <? Z.of_nat (length (done ++ k :: rest))) = true) as ->.
  { apply Z.ltb_lt. rewrite length_app. simpl. lia. }
  rewrite getitem_app_middle. simpl. rewrite Hvs. simpl.
  destruct (src_data self) as [t|]; [|done]. by rewrite Hsrc.
Qed.

(** Running over a stretch [mid] of keys both tables have yields their
    elements in order, and goes on with what follows. *)
Lemma eval_run_stretch self for_inf done mid rest its n :
  Forall2 (λ k it, eval_item_of self for_inf k = Some it) mid its →
  gen_run (iterate_one_epoch_eval_next self for_inf (done ++ mid ++ rest))
    (length mid + n) (Z.of_nat (length done))
  = let '(l, o) := gen_run (iterate_one_epoch_eval_next self for_inf (done ++ mid ++ rest))
                     n (Z.of_nat (length (done ++ mid))) in
    (its ++ l, o).
Proof.
  intros Hmid. revert done. induction Hmid as [|k it mid its Hit Hmid IH]; intros done.
  - simpl. rewrite app_nil_r. by destruct (gen_run _ _ _).
  - change (length (k :: mid) + n)%nat with (S (length mid + n)).
    rewrite gen_run_S.
    change (done ++ (k :: mid) ++ rest) with (done ++ k :: (mid ++ rest)).
    rewrite (eval_next_yield _ _ _ _ _ _ Hit).
    replace (done ++ k :: mid ++ rest) with ((done ++ [k]) ++ mid ++ rest)
      by by rewrite <-app_assoc.
    rewrite IH. rewrite <-(app_assoc done [k] mid). simpl.
    by destruct (gen_run _ _ _).
Qed.

End Eval.

(** ** The two passes of construction *)

Section Passes.
Context `{Builtins}.

Lemma init_raise_maps p um im fs e :
  valid_major p → init_maps p um im fs = Raise e → __init__ p um im fs = Raise e.
Proof.
  unfold valid_major, cfg_major, __init__, init_maps, cfg_u_id, cfg_i_id, cfg_delimiter,
    cfg_files.
  intros Hm.
  assert (negb (bool_decide (default "items" (major p) = "items")
                || bool_decide (default "items" (major p) = "users")) = false) as ->.
  { apply negb_false_iff, orb_true_iff. rewrite !bool_decide_eq_true. done. }
  by intros ->.
Qed.

Lemma init_raise_load p um im fs maps e :
  valid_major p → init_maps p um im fs = Ok maps → init_load p maps fs = Raise e →
  __init__ p um im fs = Raise e.
Proof.
  unfold valid_major, cfg_major, __init__, init_maps, init_load, cfg_major_ind,
    cfg_minor_ind, cfg_major, cfg_u_id, cfg_i_id, cfg_r_id, cfg_delimiter, cfg_files.
  intros Hm.
  assert (negb (bool_decide (default "items" (major p) = "items")
                || bool_decide (default "items" (major p) = "users")) = false) as ->.
  { apply negb_false_iff, orb_true_iff. rewrite !bool_decide_eq_true. done. }
  intros -> Hload. simpl. by rewrite Hload.
Qed.

Lemma init_Ok_passes p um im fs self :
  __init__ p um im fs = Ok self →
  ∃ maps, init_maps p um im fs = Ok maps ∧ init_load p maps fs = Ok (data self).
Proof.
  unfold __init__, init_maps, init_load, cfg_major_ind, cfg_minor_ind, cfg_major,
    cfg_u_id, cfg_i_id, cfg_r_id, cfg_delimiter, cfg_files.
  destruct (negb _); [done|].
  intros (maps & Hmaps & (d & Hd & [= <-])%bind_Ok_inv)%bind_Ok_inv. eauto.
Qed.

(** *** A line with fewer than 3 fields *)

Lemma read_parts_short delim source_file line parts :
  PyStr.split (PyStr.strip line) delim = Ok parts → (length parts < 3)%nat →
  read_parts delim source_file line = Raise (ValueError_bad_line source_file).
Proof.
  intros Hsplit Hlen. unfold read_parts. rewrite Hsplit. simpl.
  by assert ((length parts <? 3)%nat = true) as -> by by apply Nat.ltb_lt.
Qed.

Lemma for_each_raise_at {S A} (f : S → A → result S) st xs x ys st' e :
  for_each f st xs = Ok st' → f st' x = Raise e → for_each f st (xs ++ x :: ys) = Raise e.
Proof. intros Hxs Hx. rewrite for_each_app, Hxs. simpl. by rewrite Hx. Qed.

(** A pass [body] that raises at a line raises the same from the scan of
    the files, when the scan reaches the line. *)
Lemma scan_raise_at {S} (body : string → S → string → result S) st0
  files_pre f lines_pre line lines_post files_post e :
  is_Ok (for_each (λ st (sf : string * list string), for_each (body sf.1) st sf.2) st0
           (files_pre ++ [(f, lines_pre)])) →
  (∀ st, body f st line = Raise e) →
  for_each (λ st (sf : string * list string), for_each (body sf.1) st sf.2) st0
    (files_pre ++ (f, lines_pre ++ line :: lines_post) :: files_post) = Raise e.
Proof.
  intros [st2 Hpre] Hline. rewrite for_each_app in Hpre.
  apply bind_Ok_inv in Hpre as (st1 & Hpre & Hf). simpl in Hf.
  apply bind_Ok_inv in Hf as (st2' & Hf & [= ->]).
  eapply for_each_raise_at; [exact Hpre|]. simpl.
  eapply for_each_raise_at; [exact Hf|]. apply Hline.
Qed.

End Passes.

(** ** Numeric fields *)

Section Numeric.
Context `{Builtins}.

Lemma for_each_cases {S A} (P : exn → Prop) (f : S → A → result S) xs :
  (∀ st x, x ∈ xs → is_Ok (f st x) ∨ ∃ e, f st x = Raise e ∧ P e) →
  ∀ st, is_Ok (for_each f st xs) ∨ ∃ e, for_each f st xs = Raise e ∧ P e.
Proof.
  induction xs as [|x xs IH]; intros Hf st; simpl.
  - left. by eexists.
  - destruct (Hf st x) as [[st' ->]|(e & -> & He)]; [by left| |by right; eauto].
    simpl. apply IH. intros st'' y Hy. apply Hf. by right.
Qed.

Lemma elem_of_corpus_lines files f lines line :
  (f, lines) ∈ files → line ∈ lines → line ∈ corpus_lines files.
Proof.
  intros Hf Hline. unfold corpus_lines. apply list_elem_of_join.
  exists lines. split; [done|]. apply list_elem_of_fmap. by exists (f, lines).
Qed.

(** On a well-shaped line the map-building pass can only raise from
    [int()]. *)
Lemma build_line_cases p source_file st line :
  well_shaped p line →
  is_Ok (build_line (cfg_u_id p) (cfg_i_id p) (cfg_delimiter p) source_file st line)
  ∨ ∃ e, build_line (cfg_u_id p) (cfg_i_id p) (cfg_delimiter p) source_file st line = Raise e
         ∧ numeric_parse_failure e.
Proof.
  intros (parts & Hparts & [i_s Hi] & [u_s Hu] & _).
  apply (read_parts_fields _ source_file) in Hparts.
  apply getitem_field in Hi, Hu.
  unfold build_line, py_int. rewrite Hparts. simpl. rewrite Hu. simpl.
  destruct (int u_s) as [u|]; simpl; [|right; eexists; split; [done|]; eexists; eauto].
  destruct (b_user_id_map st !! u); simpl; rewrite Hi; simpl;
    (destruct (int i_s) as [i|]; simpl;
     [left; by eexists|right; eexists; split; [done|]; eexists; eauto]).
Qed.

Lemma build_maps_cases p files :
  Forall (well_shaped p) (corpus_lines files) →
  is_Ok (_build_maps (cfg_u_id p) (cfg_i_id p) (cfg_delimiter p) files)
  ∨ ∃ e, _build_maps (cfg_u_id p) (cfg_i_id p) (cfg_delimiter p) files = Raise e
         ∧ numeric_parse_failure e.
Proof.
  rewrite Forall_forall. intros Hshape. unfold _build_maps.
  apply for_each_cases. intros st [f lines] Hf. unfold build_file. simpl.
  apply for_each_cases. intros st' line Hline.
  apply build_line_cases, Hshape. by eapply elem_of_corpus_lines.
Qed.

(** On a well-shaped line whose identifiers are integer literals known to
    the maps the aggregation pass can only raise from [float()]. *)
Lemma load_line_cases p mm nm source_file d line :
  well_shaped p line →
  (∃ parts a b, fields (cfg_delimiter p) line = Some parts
     ∧ field parts (cfg_major_ind p) ≫= int = Some a ∧ is_Some (mm !! a)
     ∧ field parts (cfg_minor_ind p) ≫= int = Some b ∧ is_Some (nm !! b)) →
  is_Ok (load_line mm nm (cfg_major_ind p) (cfg_minor_ind p) (cfg_r_id p)
           (cfg_delimiter p) source_file d line)
  ∨ ∃ e, load_line mm nm (cfg_major_ind p) (cfg_minor_ind p) (cfg_r_id p)
           (cfg_delimiter p) source_file d line = Raise e
         ∧ numeric_parse_failure e.
Proof.
  intros (parts & Hparts & _ & _ & [r_s Hr])
         (parts' & a & b & Hparts' & Ha & [key Hkey] & Hb & [value Hvalue]).
  assert (parts' = parts) as -> by congruence.
  apply (read_parts_fields _ source_file) in Hparts. apply getitem_field in Hr.
  apply bind_Some in Ha as (a_s & Ha_s%getitem_field & Ha%py_int_Ok).
  apply bind_Some in Hb as (b_s & Hb_s%getitem_field & Hb%py_int_Ok).
  unfold load_line, id_map_get, py_float.
  rewrite Hparts; simpl. rewrite Ha_s; simpl. rewrite Ha; simpl. rewrite Hkey; simpl.
  rewrite Hb_s; simpl. rewrite Hb; simpl. rewrite Hvalue; simpl. rewrite Hr; simpl.
  destruct (float r_s); simpl;
    [left; by eexists|right; eexists; split; [done|]; eexists; eauto].
Qed.

End Numeric.

Section NumericErrors.
Context `{Builtins}.

Lemma numeric_parse_failure_undeclared e :
  numeric_parse_failure e → declared_kind e = None.
Proof. by intros [s [-> | ->]]. Qed.

(** The aggregation pass returns only when every line is parseable. *)
Lemma init_load_parseable p maps fs d :
  init_load p maps fs = Ok d → Forall (parseable p) (corpus_lines (cfg_files p fs)).
Proof.
  unfold init_load. intros (es & Hes & _)%load_files_Ok.
  apply Forall_forall. intros line Hline.
  apply (Forall2_elem_of_l _ _ _ _ Hes) in Hline as (e & _ & Hentry).
  unfold entry in Hentry.
  apply bind_Some in Hentry as (parts & Hparts & Hentry).
  apply bind_Some in Hentry as (a & Ha & Hentry).
  apply bind_Some in Hentry as (key & _ & Hentry).
  apply bind_Some in Hentry as (b & Hb & Hentry).
  apply bind_Some in Hentry as (value & _ & Hentry).
  apply bind_Some in Hentry as (r & Hr & _).
  exists parts. unfold cfg_major_ind, cfg_minor_ind in *.
  destruct (bool_decide (cfg_major p = "items")); split_and!; eauto.
Qed.

(** After a map-building pass that returned, the aggregation pass can only
    raise from [float()] on a corpus of well-shaped lines. *)
Lemma init_load_cases p fs st :
  Forall (well_shaped p) (corpus_lines (cfg_files p fs)) →
  _build_maps (cfg_u_id p) (cfg_i_id p) (cfg_delimiter p) (cfg_files p fs) = Ok st →
  is_Ok (init_load p (b_user_id_map st, b_item_id_map st) fs)
  ∨ ∃ e, init_load p (b_user_id_map st, b_item_id_map st) fs = Raise e
         ∧ numeric_parse_failure e.
Proof.
  rewrite Forall_forall. intros Hshape Hst.
  pose proof Hst as (ids & Hids & _)%build_maps_Ok.
  destruct (build_maps_indexed _ _ _ _ _ _ Hst Hids) as [Hu Hi].
  unfold init_load. apply for_each_cases. intros d [f lines] Hf.
  unfold load_file. simpl. apply for_each_cases. intros d' line Hline.
  assert (line ∈ corpus_lines (cfg_files p fs)) as Hin
    by by eapply elem_of_corpus_lines.
  apply load_line_cases; [by apply Hshape|].
  apply (Forall2_elem_of_l _ _ _ _ Hids) in Hin as ([u i] & Hui & Hraw).
  unfold raw_ids in Hraw.
  apply bind_Some in Hraw as (parts & Hparts & Hraw).
  apply bind_Some in Hraw as (u' & Hu' & Hraw).
  apply bind_Some in Hraw as (i' & Hi' & [= -> ->]).
  assert (is_Some (b_user_id_map st !! u)) as Hdu.
  { apply (ix_dom _ _ _ Hu). apply list_elem_of_fmap. by exists (u, i). }
  assert (is_Some (b_item_id_map st !! i)) as Hdi.
  { apply (ix_dom _ _ _ Hi). apply list_elem_of_fmap. by exists (u, i). }
  exists parts. unfold cfg_major_ind, cfg_minor_ind.
  destruct (bool_decide (cfg_major p = "items")); simpl; eauto 10.
Qed.

End NumericErrors.

(** * Further lemmas *)

(** ** The table *)

Section TableFacts.
Context {R : Type}.
Implicit Types (d : table R) (es : list (Z * (Z * R))).

Lemma table_get_append d k v k' :
  table_get (table_append d k v) k'
  = if decide (k' = k) then Some (default [] (table_get d k) ++ [v])
    else table_get d k'.
Proof.
  induction d as [|[k0 vs] d IH]; simpl.
  - destruct (decide (k' = k)); done.
  - destruct (decide (k = k0)) as [->|Hne]; simpl.
    + destruct (decide (k' = k0)); done.
    + rewrite IH. destruct (decide (k' = k0)) as [->|]; [|done].
      by destruct (decide (k0 = k)) as [->|].
Qed.

Lemma pairs_of_cons k (e : Z * (Z * R)) es :
  pairs_of k (e :: es) = if decide (e.1 = k) then e.2 :: pairs_of k es else pairs_of k es.
Proof. unfold pairs_of. rewrite filter_cons. by destruct (decide (e.1 = k)). Qed.

Lemma table_get_fold es d k :
  table_get (fold_left (λ d e, table_append d e.1 e.2) es d) k
  = match table_get d k, pairs_of k es with
    | Some ws, vs => Some (ws ++ vs)
    | None, [] => None
    | None, vs => Some vs
    end.
Proof.
  revert d. induction es as [|e es IH]; intros d; simpl.
  - destruct (table_get d k); [by rewrite app_nil_r|done].
  - rewrite IH, table_get_append, pairs_of_cons.
    destruct (decide (k = e.1)) as [->|Hne].
    + rewrite decide_True by done. destruct (table_get d e.1); simpl.
      * by rewrite <-app_assoc.
      * done.
    + rewrite decide_False by done. done.
Qed.

Lemma table_entries_append d k v :
  table_entries (table_append d k v) ≡ₚ table_entries d ++ [(k, v)].
Proof.
  unfold table_entries. induction d as [|[k0 vs] d IH]; simpl; [done|].
  destruct (decide (k = k0)) as [->|Hne]; simpl.
  - rewrite fmap_app. simpl. rewrite <-!app_assoc. f_equiv.
    apply Permutation_cons_append.
  - rewrite IH. by rewrite app_assoc.
Qed.

Lemma table_entries_fold es d :
  table_entries (fold_left (λ d e, table_append d e.1 e.2) es d) ≡ₚ table_entries d ++ es.
Proof.
  revert d. induction es as [|[k v] es IH]; intros d; simpl.
  - by rewrite app_nil_r.
  - rewrite IH, table_entries_append. by rewrite <-app_assoc.
Qed.

Lemma table_append_nonempty d k v :
  Forall (λ kv, kv.2 ≠ []) d → Forall (λ kv, kv.2 ≠ []) (table_append d k v).
Proof.
  induction 1 as [|[k0 vs] d Hvs Hd IH]; simpl.
  - by repeat constructor.
  - destruct (decide (k = k0)); constructor; simpl; auto.
    by destruct vs.
Qed.

Lemma table_fold_nonempty es d :
  Forall (λ kv, kv.2 ≠ []) d →
  Forall (λ kv, kv.2 ≠ []) (fold_left (λ d e, table_append d e.1 e.2) es d).
Proof.
  revert d. induction es as [|e es IH]; intros d Hd; simpl; [done|].
  by apply IH, table_append_nonempty.
Qed.

End TableFacts.

(** ** First occurrences *)

Lemma elem_of_nub l x : x ∈ nub l ↔ x ∈ l.
Proof.
  induction l as [|y l IH]; simpl; [done|].
  rewrite !elem_of_cons, list_elem_of_filter, IH.
  destruct (decide (x = y)); tauto.
Qed.

Lemma NoDup_nub l : NoDup (nub l).
Proof.
  induction l as [|y l IH]; simpl; [constructor|].
  constructor.
  - rewrite list_elem_of_filter. tauto.
  - by apply NoDup_filter.
Qed.

Lemma filter_not_elem_of_snoc (ks : list Z) k (l : list Z) :
  filter (λ y, y ∉ ks ++ [k]) l = filter (λ y, y ∉ ks) (filter (λ y, y ≠ k) l).
Proof.
  rewrite list_filter_filter. apply list_filter_iff. intros y.
  rewrite elem_of_app, list_elem_of_singleton. tauto.
Qed.

Lemma table_keys_fold `{Builtins} (es : list (Z * (Z * pyfloat))) (d : table pyfloat) :
  table_keys (fold_left (λ d e, table_append d e.1 e.2) es d)
  = table_keys d ++ filter (λ y, y ∉ table_keys d) (nub es.*1).
Proof.
  revert d. induction es as [|e es IH]; intros d; simpl.
  - by rewrite app_nil_r.
  - rewrite IH, table_keys_append. rewrite filter_cons.
    destruct (decide (e.1 ∈ table_keys d)) as [Hin|Hin].
    + rewrite decide_False by tauto. f_equal.
      rewrite list_filter_filter. apply list_filter_iff. intros y.
      split; [|tauto]. intros Hy. split; [done|]. by intros ->.
    + rewrite decide_True by done. rewrite <-app_assoc. simpl. do 2 f_equal.
      apply filter_not_elem_of_snoc.
Qed.

Lemma table_keys_fold_nil `{Builtins} (es : list (Z * (Z * pyfloat))) :
  table_keys (fold_left (λ d e, table_append d e.1 e.2) es []) = nub es.*1.
Proof.
  rewrite table_keys_fold. simpl. generalize (nub es.*1). intros l.
  induction l as [|x l IH]; [done|].
  rewrite filter_cons, IH. destruct (decide (x ∉ [])) as [|Hn]; [done|].
  destruct Hn. by intros ?%elem_of_nil.
Qed.

(** ** Construction, forwards *)

Section ConstructionFacts.
Context `{Builtins}.

Lemma init_Ok_intro p um im fs maps d :
  valid_major p → init_maps p um im fs = Ok maps → init_load p maps fs = Ok d →
  __init__ p um im fs = Ok (provider_of p maps d).
Proof.
  unfold valid_major, cfg_major, __init__, init_maps, init_load, provider_of,
    cfg_major_ind, cfg_minor_ind, cfg_major, cfg_u_id, cfg_i_id, cfg_r_id, cfg_delimiter,
    cfg_files.
  intros Hm.
  assert (negb (bool_decide (default "items" (major p) = "items")
                || bool_decide (default "items" (major p) = "users")) = false) as ->.
  { apply negb_false_iff, orb_true_iff. rewrite !bool_decide_eq_true. done. }
  intros -> Hload. simpl. by rewrite Hload.
Qed.

Lemma init_Ok_provider_of p um im fs self :
  __init__ p um im fs = Ok self →
  ∃ maps d, init_maps p um im fs = Ok maps ∧ init_load p maps fs = Ok d
            ∧ self = provider_of p maps d.
Proof.
  intros Hinit. pose proof Hinit as (maps & Hmaps & Hload)%init_Ok_passes.
  pose proof Hinit as (Hm & _)%init_Ok_inv.
  exists maps, (data self). split_and!; [done..|].
  rewrite (init_Ok_intro _ _ _ _ _ _ Hm Hmaps Hload) in Hinit. congruence.
Qed.

Lemma init_corpus_entries p um im fs self :
  __init__ p um im fs = Ok self →
  ∃ es, corpus_entries p self fs es
        ∧ data self = fold_left (λ d e, table_append d e.1 e.2) es [].
Proof.
  intros (_ & _ & _ & _ & _ & _ & Hload)%init_Ok_inv.
  apply load_files_Ok in Hload as (es & Hes & Hd). by exists es.
Qed.

End ConstructionFacts.

(** ** Indices and first occurrences *)

Lemma nub_snoc l x : nub (l ++ [x]) = if decide (x ∈ l) then nub l else nub l ++ [x].
Proof.
  induction l as [|y l IH].
  - destruct (decide (x ∈ [])) as [Hin|]; [by apply elem_of_nil in Hin|done].
  - change (nub ((y :: l) ++ [x])) with (y :: filter (λ z, z ≠ y) (nub (l ++ [x]))).
    change (nub (y :: l)) with (y :: filter (λ z, z ≠ y) (nub l)).
    rewrite IH. destruct (decide (x ∈ l)) as [Hin|Hin].
    + destruct (decide (x ∈ y :: l)) as [|Hn]; [done|]. destruct Hn. by right.
    + rewrite filter_app, filter_cons, filter_nil.
      destruct (decide (x = y)) as [->|Hne].
      * destruct (decide (y ≠ y)); [done|].
        destruct (decide (y ∈ y :: l)) as [|Hn]; [by rewrite app_nil_r|].
        destruct Hn. by left.
      * destruct (decide (x ≠ y)); [|done].
        destruct (decide (x ∈ y :: l)) as [[?|?]%elem_of_cons|]; done.
Qed.

Lemma first_split_unique (p1 p2 q1 q2 : list Z) r :
  p1 ++ r :: p2 = q1 ++ r :: q2 → r ∉ p1 → r ∉ q1 → p1 = q1.
Proof.
  revert q1. induction p1 as [|x p1 IH]; intros [|y q1] Heq Hp Hq; simpl in *.
  - done.
  - injection Heq as -> _. destruct Hq. by left.
  - injection Heq as -> _. destruct Hp. by left.
  - injection Heq as -> Heq. f_equal. apply IH; [done|..].
    + intros ?. apply Hp. by right.
    + intros ?. apply Hq. by right.
Qed.

Lemma distinct_app_le l l' : distinct l ≤ distinct (l ++ l').
Proof.
  unfold distinct. apply inj_le, subseteq_size.
  intros x. rewrite !elem_of_list_to_set, elem_of_app. tauto.
Qed.

Lemma distinct_nonneg l : 0 ≤ distinct l.
Proof. unfold distinct. lia. Qed.

Lemma indexed_first_index ids m n pre r suf :
  indexed ids m n → ids = pre ++ r :: suf → r ∉ pre → m !! r = Some (distinct pre).
Proof.
  intros Hix -> Hr.
  destruct (proj2 (ix_dom _ _ _ Hix r)) as [i Hi].
  { rewrite elem_of_app. right. by left. }
  destruct (ix_first _ _ _ Hix r i Hi) as (p1 & p2 & Heq & Hp1 & ->).
  by rewrite (first_split_unique _ _ _ _ _ Heq Hr Hp1).
Qed.

Lemma indexed_index_lt ids m n pre suf r k :
  indexed ids m n → ids = pre ++ suf → r ∈ pre → m !! r = Some k →
  0 ≤ k < distinct pre.
Proof.
  intros Hix -> Hr Hk.
  apply list_elem_of_split_l in Hr as (q1 & q2 & -> & Hq1).
  rewrite (indexed_first_index _ _ _ q1 r (q2 ++ suf) Hix) in Hk
    by (by rewrite <-app_assoc || done).
  injection Hk as <-. split; [apply distinct_nonneg|].
  pose proof (distinct_app_le (q1 ++ [r]) q2) as Hle.
  rewrite <-app_assoc in Hle. simpl in Hle.
  rewrite distinct_snoc_new in Hle by done. lia.
Qed.

(** The keys of the entries of identifiers indexed in first-seen order
    first occur in the order 0, 1, 2, ... *)
Lemma indexed_nub ids m n pre suf ks :
  indexed ids m n → ids = pre ++ suf →
  Forall2 (λ r k, m !! r = Some k) pre ks →
  nub ks = seqZ 0 (distinct pre).
Proof.
  intros Hix. revert suf ks. induction pre as [|r pre IH] using rev_ind; intros suf ks Hids Hks.
  - apply Forall2_nil_inv_l in Hks as ->. done.
  - apply Forall2_app_inv_l in Hks as (ks1 & ks2 & Hks1 & Hks2 & ->).
    apply Forall2_cons_inv_l in Hks2 as (k & ? & Hk & ->%Forall2_nil_inv_l & ->).
    rewrite <-app_assoc in Hids. simpl in Hids.
    pose proof (IH (r :: suf) ks1 Hids Hks1) as Hnub.
    assert (k ∈ ks1 ↔ 0 ≤ k < distinct pre) as Hmem.
    { rewrite <-elem_of_nub, Hnub, elem_of_seqZ. lia. }
    rewrite nub_snoc, Hnub.
    destruct (decide (r ∈ pre)) as [Hin|Hin].
    + rewrite distinct_snoc_old by done.
      pose proof (indexed_index_lt _ _ _ _ _ _ _ Hix Hids Hin Hk).
      destruct (decide (k ∈ ks1)) as [|Hn]; [done|]. destruct Hn. by apply Hmem.
    + rewrite distinct_snoc_new by done.
      rewrite (indexed_first_index _ _ _ _ _ _ Hix Hids Hin) in Hk. injection Hk as <-.
      destruct (decide (distinct pre ∈ ks1)) as [Hk1|_]; [apply Hmem in Hk1; lia|].
      unfold distinct. rewrite <-(Nat2Z.inj_add _ 1), Nat.add_1_r, seqZ_S. done.
Qed.

Lemma Forall2_same_l {A B C} (P : A → B → Prop) (Q : A → C → Prop) (S : B → C → Prop)
  l k1 k2 :
  (∀ x y z, P x y → Q x z → S y z) → Forall2 P l k1 → Forall2 Q l k2 → Forall2 S k1 k2.
Proof.
  intros HPQ HP. revert k2. induction HP as [|x y l k1 Hxy HP IH]; intros k2 HQ.
  - apply Forall2_nil_inv_l in HQ as ->. constructor.
  - apply Forall2_cons_inv_l in HQ as (z & k2' & Hxz & HQ & ->).
    constructor; eauto.
Qed.

(** ** The keys of the table under internally built maps *)

Section DenseKeys.
Context `{Builtins}.

Lemma entry_major mm nm major_ind minor_ind r_ind delim line e :
  entry mm nm major_ind minor_ind r_ind delim line = Some e →
  ∃ parts a, fields delim line = Some parts
             ∧ field parts major_ind ≫= int = Some a
             ∧ mm !! a = Some e.1.
Proof.
  unfold entry. intros Hentry.
  apply bind_Some in Hentry as (parts & Hparts & Hentry).
  apply bind_Some in Hentry as (a & Ha & Hentry).
  apply bind_Some in Hentry as (key & Hkey & Hentry).
  repeat (apply bind_Some in Hentry as (? & _ & Hentry)).
  injection Hentry as <-. eauto.
Qed.

Lemma raw_ids_fields u_ind i_ind delim line ui :
  raw_ids u_ind i_ind delim line = Some ui →
  ∃ parts, fields delim line = Some parts
           ∧ field parts u_ind ≫= int = Some ui.1
           ∧ field parts i_ind ≫= int = Some ui.2.
Proof.
  unfold raw_ids. intros Hraw.
  apply bind_Some in Hraw as (parts & Hparts & Hraw).
  apply bind_Some in Hraw as (u & Hu & Hraw).
  apply bind_Some in Hraw as (i & Hi & [= <-]). eauto.
Qed.

(** With maps built internally the key list of the table is
    [0, 1, ..., K - 1] for [K] the size of the major map. *)
Lemma init_table_keys_dense p um im fs self :
  um = None ∨ im = None →
  __init__ p um im fs = Ok self →
  table_keys (data self) = seqZ 0 (Z.of_nat (base.size (major_map self))).
Proof.
  intros Hnone Hinit.
  pose proof Hinit as (_ & _ & Hmajor & _ & _ & Hmaps & _)%init_Ok_inv.
  assert (∃ st, _build_maps (cfg_u_id p) (cfg_i_id p) (cfg_delimiter p) (cfg_files p fs) = Ok st
                ∧ _user_id_map self = b_user_id_map st
                ∧ _item_id_map self = b_item_id_map st) as (st & Hst & Hum & Him).
  { destruct um, im; try done; by destruct Hnone. }
  pose proof Hst as (ids & Hids & _)%build_maps_Ok.
  destruct (build_maps_indexed _ _ _ _ _ _ Hst Hids) as [Hu Hi].
  apply init_corpus_entries in Hinit as (es & Hes & Hd).
  assert (table_keys (data self) = nub es.*1) as ->.
  { rewrite Hd. apply table_keys_fold_nil. }
  unfold corpus_entries, major_map, cfg_major_ind in *. rewrite Hmajor, Hum, Him in *.
  destruct (bool_decide (cfg_major p = "items")).
  - rewrite (ix_size _ _ _ Hi), (ix_next _ _ _ Hi).
    apply (indexed_nub _ _ _ ids.*2 [] _ Hi); [by rewrite app_nil_r|].
    apply Forall2_fmap.
    eapply Forall2_same_l; [|exact Hids|exact Hes].
    intros line ui e (parts & Hp & _ & Hi')%raw_ids_fields (parts' & a & Hp' & Ha & Hk)%entry_major.
    simpl. congruence.
  - rewrite (ix_size _ _ _ Hu), (ix_next _ _ _ Hu).
    apply (indexed_nub _ _ _ ids.*1 [] _ Hu); [by rewrite app_nil_r|].
    apply Forall2_fmap.
    eapply Forall2_same_l; [|exact Hids|exact Hes].
    intros line ui e (parts & Hp & Hu' & _)%raw_ids_fields (parts' & a & Hp' & Ha & Hk)%entry_major.
    simpl. congruence.
Qed.

End DenseKeys.

(** ** Which exceptions a pass can raise *)

Section PassExceptions.
Context `{Builtins}.

Lemma init_cases p um im fs :
  (¬ valid_major p ∧ __init__ p um im fs = Raise (ValueError_major (cfg_major p)))
  ∨ (valid_major p ∧ ∃ e, init_maps p um im fs = Raise e ∧ __init__ p um im fs = Raise e)
  ∨ (valid_major p ∧ ∃ maps e, init_maps p um im fs = Ok maps
       ∧ init_load p maps fs = Raise e ∧ __init__ p um im fs = Raise e)
  ∨ (valid_major p ∧ ∃ maps d, init_maps p um im fs = Ok maps
       ∧ init_load p maps fs = Ok d ∧ __init__ p um im fs = Ok (provider_of p maps d)).
Proof.
  destruct (decide (valid_major p)) as [Hm|Hm]; [|left; eauto using init_invalid_major].
  right. destruct (init_maps p um im fs) as [maps|e] eqn:Hmaps.
  - right. destruct (init_load p maps fs) as [d|e] eqn:Hload.
    + right. eauto 10 using init_Ok_intro.
    + left. eauto 10 using init_raise_load.
  - left. eauto using init_raise_maps.
Qed.

(** The map-building pass never raises from a map lookup. *)
Lemma build_line_no_KeyError u_ind i_ind delim source_file st line :
  is_Ok (build_line u_ind i_ind delim source_file st line)
  ∨ ∃ e, build_line u_ind i_ind delim source_file st line = Raise e
         ∧ ∀ k, e ≠ KeyError_id_map k.
Proof.
  unfold build_line, read_parts, py_int, PyStr.split.
  destruct (decide (delim = "")); simpl; [right; eauto|].
  destruct (_ <? 3)%nat; simpl; [right; eauto|].
  destruct (getitem _ u_ind) as [u_s|e] eqn:Hu; simpl.
  2: { right. exists e. split; [done|]. intros k ->.
       unfold getitem in Hu. repeat case_match; done. }
  destruct (int u_s); simpl; [|right; eauto].
  match goal with
  | |- context [getitem ?parts i_ind] => destruct (getitem parts i_ind) as [i_s|e] eqn:Hi
  end; simpl.
  2: { right. exists e. split; [done|]. intros k ->.
       unfold getitem in Hi. repeat case_match; done. }
  destruct (int i_s); simpl; [left; by eexists|right; eauto].
Qed.

Lemma build_maps_no_KeyError u_ind i_ind delim files :
  is_Ok (_build_maps u_ind i_ind delim files)
  ∨ ∃ e, _build_maps u_ind i_ind delim files = Raise e ∧ ∀ k, e ≠ KeyError_id_map k.
Proof.
  unfold _build_maps. apply for_each_cases. intros st [f lines] _. unfold build_file.
  apply for_each_cases. intros st' line _. apply build_line_no_KeyError.
Qed.

(** Nor does the aggregation pass on a line whose identifiers the maps
    know. *)
Lemma load_line_no_KeyError mm nm major_ind minor_ind r_ind delim source_file d line :
  (∃ parts a b, fields delim line = Some parts
     ∧ field parts major_ind ≫= int = Some a ∧ is_Some (mm !! a)
     ∧ field parts minor_ind ≫= int = Some b ∧ is_Some (nm !! b)) →
  is_Ok (load_line mm nm major_ind minor_ind r_ind delim source_file d line)
  ∨ ∃ e, load_line mm nm major_ind minor_ind r_ind delim source_file d line = Raise e
         ∧ ∀ k, e ≠ KeyError_id_map k.
Proof.
  intros (parts & a & b & Hparts & Ha & [key Hkey] & Hb & [value Hvalue]).
  apply (read_parts_fields _ source_file) in Hparts.
  apply bind_Some in Ha as (a_s & Ha_s%getitem_field & Ha%py_int_Ok).
  apply bind_Some in Hb as (b_s & Hb_s%getitem_field & Hb%py_int_Ok).
  unfold load_line, id_map_get, py_float.
  rewrite Hparts; simpl. rewrite Ha_s; simpl. rewrite Ha; simpl. rewrite Hkey; simpl.
  rewrite Hb_s; simpl. rewrite Hb; simpl. rewrite Hvalue; simpl.
  destruct (getitem parts r_ind) as [r_s|e] eqn:Hr; simpl.
  2: { right. exists e. split; [done|]. intros k ->.
       unfold getitem in Hr. repeat case_match; done. }
  destruct (float r_s); simpl; [left; by eexists|right; eauto].
Qed.

Lemma init_load_no_KeyError p fs st :
  _build_maps (cfg_u_id p) (cfg_i_id p) (cfg_delimiter p) (cfg_files p fs) = Ok st →
  is_Ok (init_load p (b_user_id_map st, b_item_id_map st) fs)
  ∨ ∃ e, init_load p (b_user_id_map st, b_item_id_map st) fs = Raise e
         ∧ ∀ k, e ≠ KeyError_id_map k.
Proof.
  intros Hst.
  pose proof Hst as (ids & Hids & _)%build_maps_Ok.
  destruct (build_maps_indexed _ _ _ _ _ _ Hst Hids) as [Hu Hi].
  unfold init_load. apply for_each_cases. intros d [f lines] Hf.
  unfold load_file. simpl. apply for_each_cases. intros d' line Hline.
  assert (line ∈ corpus_lines (cfg_files p fs)) as Hin
    by by eapply elem_of_corpus_lines.
  apply load_line_no_KeyError.
  apply (Forall2_elem_of_l _ _ _ _ Hids) in Hin as ([u i] & Hui & Hraw).
  apply raw_ids_fields in Hraw as (parts & Hparts & Hu' & Hi'). simpl in Hu', Hi'.
  assert (is_Some (b_user_id_map st !! u)) as Hdu.
  { apply (ix_dom _ _ _ Hu). apply list_elem_of_fmap. by exists (u, i). }
  assert (is_Some (b_item_id_map st !! i)) as Hdi.
  { apply (ix_dom _ _ _ Hi). apply list_elem_of_fmap. by exists (u, i). }
  exists parts. unfold cfg_major_ind, cfg_minor_ind.
  destruct (bool_decide (cfg_major p = "items")); simpl; eauto 10.
Qed.

(** *** The first line of a corpus *)

Lemma corpus_first_line files :
  corpus_lines files ≠ [] →
  ∃ files_pre f line lines_post files_post,
    files = files_pre ++ (f, line :: lines_post) :: files_post
    ∧ corpus_lines files_pre = [].
Proof.
  induction files as [|[f lines] files IH]; [done|].
  change (corpus_lines ((f, lines) :: files)) with (lines ++ corpus_lines files).
  destruct lines as [|line lines].
  - intros Hne. destruct (IH Hne) as (fp & f' & l' & lp & fpost & -> & Hfp).
    exists ((f, []) :: fp), f', l', lp, fpost. split; [done|]. done.
  - intros _. exists [], f, line, lines, files. done.
Qed.

Lemma first_pass_no_lines p um im files :
  corpus_lines files = [] → first_pass_Ok p um im files.
Proof.
  intros Hnil. unfold first_pass_Ok.
  assert (∀ mm nm, is_Ok (for_each
      (load_file mm nm (cfg_major_ind p) (cfg_minor_ind p) (cfg_r_id p) (cfg_delimiter p))
      [] files)) as Hload.
  { intros mm nm. eexists. apply load_files_Ok. exists []. rewrite Hnil.
    split; [constructor|done]. }
  assert (is_Ok (_build_maps (cfg_u_id p) (cfg_i_id p) (cfg_delimiter p) files)) as Hbuild.
  { eexists. unfold _build_maps. apply build_files_Ok. exists []. rewrite Hnil.
    split; [constructor|done]. }
  destruct um, im; auto.
Qed.

End PassExceptions.

(** ** The content of a batch *)

Section BatchContent.
Context `{Builtins}.
Implicit Types (self : UserItemRecDataProvider) (d : table pyfloat).

Lemma table_get_elem_of (d : table pyfloat) k vs :
  table_get d k = Some vs → (k, vs) ∈ d.
Proof.
  induction d as [|[k' ws] d IH]; simpl; [done|].
  destruct (decide (k = k')) as [->|]; [intros [= ->]; by left|].
  intros ?. right. auto.
Qed.

Lemma zip_row (vs : list (Z * pyfloat)) i :
  zip (zip (replicate (length vs) i) vs.*1) vs.*2 = row_triples i vs.
Proof.
  unfold row_triples. induction vs as [|[c v] vs IH]; simpl; [done|]. f_equal. exact IH.
Qed.

Lemma triples_single_row vd (vs : list (Z * pyfloat)) :
  triples (single_row vd vs) = row_triples 0 vs.
Proof. apply zip_row. Qed.

Lemma elem_of_row_triples (vs : list (Z * pyfloat)) i r c v :
  (r, c, v) ∈ row_triples i vs ↔ r = i ∧ (c, v) ∈ vs.
Proof.
  unfold row_triples. rewrite list_elem_of_fmap. split.
  - intros ([c' v'] & [= -> -> ->] & Hin). done.
  - intros [-> Hin]. by exists (c, v).
Qed.

Lemma elem_of_rows_triples (rows : list (list (Z * pyfloat))) i r c v :
  (r, c, v) ∈ rows_triples i rows ↔
  ∃ (j : nat) vs, r = i + Z.of_nat j ∧ rows !! j = Some vs ∧ (c, v) ∈ vs.
Proof.
  revert i. induction rows as [|vs rows IH]; intros i; simpl.
  - split; [by intros ?%elem_of_nil|by intros (j & ? & _ & ? & _)].
  - rewrite elem_of_app, elem_of_row_triples, IH. split.
    + intros [[-> Hin]|(j & ws & -> & Hj & Hin)].
      * exists 0%nat, vs. split_and!; [lia|done..].
      * exists (S j), ws. split_and!; [lia|done..].
    + intros ([|j] & ws & -> & Hj & Hin); simpl in Hj.
      * injection Hj as ->. left. split; [lia|done].
      * right. exists j, ws. split_and!; [lia|done..].
Qed.

(** The loop over the indices of a batch appends the triples of their
    rows. *)
Lemma batch_rows_triples d keys idxs rows acc :
  Forall2 (λ ind vs, ∃ k, getitem keys ind = Ok k ∧ table_get d k = Some vs) idxs rows →
  length (inds1 acc) = length (inds2 acc) →
  length (inds2 acc) = length (vals acc) →
  ∃ acc', for_each (batch_row d keys) acc idxs = Ok acc'
          ∧ zip (zip (inds1 acc') (inds2 acc')) (vals acc')
            = zip (zip (inds1 acc) (inds2 acc)) (vals acc)
              ++ rows_triples (local_ind acc) rows.
Proof.
  intros Hrows. revert acc.
  induction Hrows as [|ind vs idxs rows (k & Hk & Hvs) Hrows IH]; intros acc Hl1 Hl2.
  - exists acc. by rewrite app_nil_r.
  - rewrite for_each_cons, (batch_row_Ok _ _ _ _ _ _ Hk Hvs). simpl.
    edestruct IH as (acc' & -> & Hz); simpl.
    { rewrite !length_app, length_replicate, length_fmap. lia. }
    { rewrite !length_app, !length_fmap. lia. }
    exists acc'. split; [done|]. rewrite Hz. cbn [inds1 inds2 vals local_ind rows_triples].
    rewrite !zip_with_app; [|rewrite ?length_zip_with; lia..].
    rewrite <-app_assoc. do 2 f_equal. apply zip_row.
Qed.

Lemma range_keys (keys : list Z) s b :
  0 ≤ s → 0 ≤ b → s + b ≤ Z.of_nat (length keys) →
  Forall2 (λ ind k, getitem keys ind = Ok k) (range s (s + b))
    (take (Z.to_nat b) (drop (Z.to_nat s) keys)).
Proof.
  intros Hs Hb Hlen. apply Forall2_same_length_lookup_2.
  - rewrite length_range, length_take, length_drop. lia.
  - intros i ind k Hind Hk. unfold range in Hind.
    rewrite list_lookup_fmap in Hind.
    destruct (seq 0 (Z.to_nat (s + b - s)) !! i) as [j|] eqn:Hj; [|done].
    apply lookup_seq in Hj as [-> Hi]. injection Hind as <-.
    apply lookup_take_Some in Hk as [Hk _]. rewrite lookup_drop in Hk.
    destruct (getitem_Ok keys (s + Z.of_nat i)) as (k' & -> & Hk'); [lia|].
    replace (Z.to_nat (s + Z.of_nat i)) with (Z.to_nat s + i)%nat in Hk' by lia.
    congruence.
Qed.

(** A turn of the loop that passes the test yields the batch of the keys
    from [s]. *)
Lemma epoch_next_batch self keys s :
  (∀ k, k ∈ keys → is_Some (table_get (data self) k)) →
  0 ≤ s → 0 ≤ _batch_size self →
  s + _batch_size self < Z.of_nat (length keys) →
  ∃ mb, iterate_one_epoch_next self keys (s, s + _batch_size self)
        = Ok (Some (mb, (s + _batch_size self, s + _batch_size self + _batch_size self)))
        ∧ batch_from self keys s mb.
Proof.
  intros Hkeys Hs Hb Hlt. unfold iterate_one_epoch_next.
  assert ((s + _batch_size self <? Z.of_nat (length keys)) = true) as ->
    by by apply Z.ltb_lt.
  pose proof (range_keys keys s (_batch_size self) Hs Hb ltac:(lia)) as Hrange.
  assert (∃ rows,
    Forall2 (λ k vs, table_get (data self) k = Some vs)
      (take (Z.to_nat (_batch_size self)) (drop (Z.to_nat s) keys)) rows) as [rows Hrows].
  { assert (∀ ks, (∀ k, k ∈ ks → k ∈ keys) →
              ∃ rows, Forall2 (λ k vs, table_get (data self) k = Some vs) ks rows) as Hall.
    { induction ks as [|k ks IH]; intros Hks; [by exists []|].
      destruct IH as [rows Hrows]; [intros; apply Hks; by right|].
      destruct (Hkeys k) as [vs Hvs]; [apply Hks; by left|].
      exists (vs :: rows). by constructor. }
    apply Hall. intros k Hk. by apply (subseteq_drop (Z.to_nat s)), (subseteq_take _ _ _ Hk). }
  edestruct (batch_rows_triples (data self) keys (range s (s + _batch_size self)) rows
               {| local_ind := 0; inds1 := []; inds2 := []; vals := [] |})
    as (acc & -> & Hz); [|done..|].
  { clear -Hrange Hrows. revert rows Hrows.
    induction Hrange as [|ind k idxs ks Hk Hrange IH]; intros rows Hrows.
    - apply Forall2_nil_inv_l in Hrows as ->. constructor.
    - apply Forall2_cons_inv_l in Hrows as (vs & rows' & Hvs & Hrows & ->).
      constructor; eauto. }
  simpl. eexists. split; [done|]. split; [done|]. exists rows. split; [done|].
  unfold triples. simpl. exact Hz.
Qed.

(** The whole run, from the batch at position [s]. *)
Lemma epoch_run_batches self keys (n : nat) s :
  (∀ k, k ∈ keys → is_Some (table_get (data self) k)) →
  1 ≤ _batch_size self → 0 ≤ s →
  Z.max 0 (Z.of_nat (length keys) - (s + _batch_size self)) < Z.of_nat n →
  ∃ l, gen_run (iterate_one_epoch_next self keys) n (s, s + _batch_size self)
       = (l, Exhausted)
       ∧ ∀ (j : nat) mb, l !! j = Some mb →
           s + (Z.of_nat j + 1) * _batch_size self < Z.of_nat (length keys)
           ∧ batch_from self keys (s + Z.of_nat j * _batch_size self) mb.
Proof.
  intros Hkeys Hb. revert s. induction n as [|n IH]; intros s Hs Hn; [lia|].
  rewrite gen_run_S.
  destruct (decide (s + _batch_size self < Z.of_nat (length keys))) as [He|He].
  - destruct (epoch_next_batch self keys s) as (mb & -> & Hmb); [done|lia..|].
    destruct (IH (s + _batch_size self)) as (l & -> & Hl); [lia..|].
    exists (mb :: l). split; [done|]. intros [|j] mb' Hj; simpl in Hj.
    + injection Hj as <-. split; [lia|]. by replace (s + Z.of_nat 0 * _batch_size self) with s by lia.
    + destruct (Hl j mb' Hj) as [Hlt Hfrom]. split; [lia|].
      by replace (s + Z.of_nat (S j) * _batch_size self)
        with (s + _batch_size self + Z.of_nat j * _batch_size self) by lia.
  - rewrite epoch_next_stop by lia. exists []. split; [done|]. by intros j mb ?.
Qed.

(** With a batch size of 0 or less every turn that passes the test yields
    the empty batch and moves the indices down (or not at all). *)
Lemma epoch_run_nonpositive self keys (n : nat) s :
  _batch_size self ≤ 0 →
  s + _batch_size self < Z.of_nat (length keys) →
  gen_run (iterate_one_epoch_next self keys) n (s, s + _batch_size self)
  = (replicate n (empty_batch self),
     Suspended (s + Z.of_nat n * _batch_size self,
                s + _batch_size self + Z.of_nat n * _batch_size self)).
Proof.
  intros Hb. revert s. induction n as [|n IH]; intros s Hlt.
  - simpl. do 3 f_equal; lia.
  - rewrite gen_run_S. unfold iterate_one_epoch_next at 1.
    assert ((s + _batch_size self <? Z.of_nat (length keys)) = true) as ->
      by by apply Z.ltb_lt.
    assert (range s (s + _batch_size self) = []) as ->.
    { unfold range. by replace (Z.to_nat (s + _batch_size self - s)) with 0%nat by lia. }
    simpl. rewrite IH by lia. simpl. unfold empty_batch. do 3 f_equal; lia.
Qed.

(** Every batch of a run is the batch of a full stretch of keys. *)
Lemma epoch_run_batch_from self keys (n : nat) s :
  (∀ k, k ∈ keys → is_Some (table_get (data self) k)) →
  0 ≤ _batch_size self → 0 ≤ s →
  Forall (λ mb, ∃ s', 0 ≤ s' ∧ s' + _batch_size self < Z.of_nat (length keys)
                      ∧ batch_from self keys s' mb)
    (gen_run (iterate_one_epoch_next self keys) n (s, s + _batch_size self)).1.
Proof.
  intros Hkeys Hb. revert s. induction n as [|n IH]; intros s Hs; [constructor|].
  rewrite gen_run_S.
  destruct (decide (s + _batch_size self < Z.of_nat (length keys))) as [He|He].
  - destruct (epoch_next_batch self keys s) as (mb & -> & Hmb); [done..|].
    specialize (IH (s + _batch_size self) ltac:(lia)).
    destruct (gen_run _ n _) as [l o]. simpl in *. constructor; eauto.
  - rewrite epoch_next_stop by lia. constructor.
Qed.

(** A row of a full stretch of keys whose rows are not empty has a
    triple. *)
Lemma batch_from_row self keys s mb r :
  Forall (λ kv, kv.2 ≠ []) (data self) →
  0 ≤ s → s + _batch_size self < Z.of_nat (length keys) →
  batch_from self keys s mb →
  0 ≤ r < _batch_size self →
  ∃ c v, (r, c, v) ∈ triples mb.
Proof.
  intros Hd Hs Hlt (_ & rows & Hrows & ->) Hr.
  assert (Z.to_nat r < length rows)%nat as Hlen.
  { rewrite <-(Forall2_length _ _ _ Hrows), length_take, length_drop. lia. }
  apply lookup_lt_is_Some_2 in Hlen as [vs Hvs].
  destruct (Forall2_lookup_r _ _ _ _ _ Hrows Hvs) as (k & _ & Hk).
  apply table_get_elem_of in Hk.
  rewrite Forall_forall in Hd. specialize (Hd _ Hk). simpl in Hd.
  destruct vs as [|[c v] vs]; [done|].
  exists c, v. apply elem_of_rows_triples. exists (Z.to_nat r), ((c, v) :: vs).
  split_and!; [lia|done|by left].
Qed.

End BatchContent.

(** ** The evaluation generator, element by element *)

Lemma gen_run_Forall {S A} (P : A → Prop) (next : S → result (option (A * S))) n s :
  (∀ s a s', next s = Ok (Some (a, s')) → P a) →
  Forall P (gen_run next n s).1.
Proof.
  intros Hnext. revert s. induction n as [|n IH]; intros s; [constructor|].
  rewrite gen_run_S. destruct (next s) as [[[a s']|]|] eqn:Hs; [|constructor..].
  specialize (IH s'). destruct (gen_run next n s') as [l o]. simpl in *.
  constructor; eauto.
Qed.

Lemma gen_run_simulation {S A B} (f : A → B)
  (next1 : S → result (option (A * S))) (next2 : S → result (option (B * S))) n s :
  (∀ s, next2 s = match next1 s with
                  | Ok (Some (a, s')) => Ok (Some (f a, s'))
                  | Ok None => Ok None
                  | Raise e => Raise e
                  end) →
  gen_run next2 n s = ((f <$> (gen_run next1 n s).1), (gen_run next1 n s).2).
Proof.
  intros Hnext. revert s. induction n as [|n IH]; intros s; [done|].
  rewrite !gen_run_S, Hnext. destruct (next1 s) as [[[a s']|]|]; [|done..].
  rewrite IH. by destruct (gen_run next1 n s').
Qed.

Section EvalContent.
Context `{Builtins}.

Lemma eval_next_item (self : UserItemRecDataProvider) for_inf keys s it s' :
  iterate_one_epoch_eval_next self for_inf keys s = Ok (Some (it, s')) →
  s < Z.of_nat (length keys) ∧ s' = s + 1
  ∧ ∃ k vs src_vs, getitem keys s = Ok k
                   ∧ table_get (data self) k = Some vs
                   ∧ target it = single_row (_vector_dim self) vs
                   ∧ source it = single_row (_vector_dim self) src_vs
                   ∧ item_key it = (if for_inf then Some k else None).
Proof.
  unfold iterate_one_epoch_eval_next. destruct (s <? _) eqn:Hlt; [|done].
  apply Z.ltb_lt in Hlt.
  intros (k & Hk & (vs & Hvs & (src_vs & Hsrc & Hit)%bind_Ok_inv)%bind_Ok_inv)%bind_Ok_inv.
  unfold data_get in Hvs. destruct (table_get (data self) k) as [vs'|] eqn:Hget; [|done].
  injection Hvs as ->.
  destruct for_inf; simpl in Hit.
  - replace (s + 1 - 1) with s in Hit by lia. rewrite Hk in Hit. simpl in Hit.
    injection Hit as <- <-. split_and!; [done..|]. by exists k, vs, src_vs.
  - injection Hit as <- <-. split_and!; [done..|]. by exists k, vs, src_vs.
Qed.

(** With [for_inf] the elements carry the keys of the table in order. *)
Lemma eval_run_keys (self : UserItemRecDataProvider) keys n (i : nat) :
  item_key <$> (gen_run (iterate_one_epoch_eval_next self true keys) n (Z.of_nat i)).1
  = Some <$> take (length (gen_run (iterate_one_epoch_eval_next self true keys)
                             n (Z.of_nat i)).1)
               (drop i keys).
Proof.
  revert i. induction n as [|n IH]; intros i; [done|].
  rewrite gen_run_S.
  destruct (iterate_one_epoch_eval_next self true keys (Z.of_nat i))
    as [[[it s']|]|] eqn:Hnext; [|done..].
  apply eval_next_item in Hnext as (Hlt & -> & k & vs & src_vs & Hk & _ & _ & _ & Hkey).
  destruct (getitem_Ok keys (Z.of_nat i)) as (k' & Hk' & Hlk); [lia|].
  rewrite Hk in Hk'. injection Hk' as <-. rewrite Nat2Z.id in Hlk.
  specialize (IH (S i)). replace (Z.of_nat i + 1) with (Z.of_nat (S i)) by lia.
  destruct (gen_run _ n (Z.of_nat (S i))) as [l o]. cbn [fst] in *.
  rewrite (drop_S _ _ _ Hlk). cbn [length take]. rewrite !fmap_cons. by rewrite Hkey, IH.
Qed.

(** The element yielded with [for_inf] is the one yielded without it, with
    the key added. *)
Lemma eval_next_for_inf (self : UserItemRecDataProvider) keys s :
  iterate_one_epoch_eval_next self false keys s
  = match iterate_one_epoch_eval_next self true keys s with
    | Ok (Some (it, s')) =>
        Ok (Some ({| target := target it; source := source it; item_key := None |}, s'))
    | Ok None => Ok None
    | Raise e => Raise e
    end.
Proof.
  unfold iterate_one_epoch_eval_next. destruct (s <? _); [|done].
  destruct (getitem keys s) as [k|e] eqn:Hk; simpl; [|done].
  destruct (data_get (data self) k); simpl; [|done].
  destruct (src_data_get self k); simpl; [|done].
  replace (s + 1 - 1) with s by lia. by rewrite Hk.
Qed.

(** When the source table is the table itself every key has its element,
    with equal matrices. *)
Lemma eval_items_own_table (self : UserItemRecDataProvider) for_inf ks :
  src_data self = Some (data self) →
  (∀ k, k ∈ ks → is_Some (table_get (data self) k)) →
  ∃ its, Forall2 (λ k it, eval_item_of self for_inf k = Some it) ks its
         ∧ Forall (λ it, source it = target it) its.
Proof.
  intros Hsrc. induction ks as [|k ks IH]; intros Hks.
  - exists []. by split; constructor.
  - destruct IH as (its & Hits & Heq); [intros; apply Hks; by right|].
    destruct (Hks k) as [vs Hvs]; [by left|].
    eexists (_ :: its). split.
    + constructor; [|done]. unfold eval_item_of. rewrite Hvs, Hsrc. simpl. by rewrite Hvs.
    + by constructor.
Qed.

End EvalContent.

(** ** Exchanging the roles of users and items *)

Section Transpose.
Context `{Builtins}.

Lemma entry_transpose mm nm a_ind b_ind r_ind delim line e :
  entry mm nm a_ind b_ind r_ind delim line = Some e →
  entry nm mm b_ind a_ind r_ind delim line = Some (transpose_entry e).
Proof.
  unfold entry. intros Hentry.
  apply bind_Some in Hentry as (parts & Hparts & Hentry).
  apply bind_Some in Hentry as (a & Ha & Hentry).
  apply bind_Some in Hentry as (key & Hkey & Hentry).
  apply bind_Some in Hentry as (b & Hb & Hentry).
  apply bind_Some in Hentry as (value & Hvalue & Hentry).
  apply bind_Some in Hentry as (r & Hr & [= <-]).
  rewrite Hparts; simpl. rewrite Hb; simpl. rewrite Hvalue; simpl.
  rewrite Ha; simpl. rewrite Hkey; simpl. by rewrite Hr.
Qed.

Lemma init_maps_with_major p m um im fs :
  init_maps (with_major p m) um im fs = init_maps p um im fs.
Proof. done. Qed.

Lemma init_load_transpose p maps fs d1 :
  init_load (with_major p "items") maps fs = Ok d1 →
  ∃ d2, init_load (with_major p "users") maps fs = Ok d2
        ∧ table_entries d2 ≡ₚ transpose_entry <$> table_entries d1.
Proof.
  unfold init_load, cfg_major_ind, cfg_minor_ind, cfg_major. simpl.
  change (cfg_i_id (with_major p ?m)) with (cfg_i_id p).
  change (cfg_u_id (with_major p ?m)) with (cfg_u_id p).
  change (cfg_r_id (with_major p ?m)) with (cfg_r_id p).
  change (cfg_delimiter (with_major p ?m)) with (cfg_delimiter p).
  change (cfg_files (with_major p ?m) fs) with (cfg_files p fs).
  intros (es & Hes & ->)%load_files_Ok.
  exists (fold_left add_entry (transpose_entry <$> es) []). split.
  - apply load_files_Ok. exists (transpose_entry <$> es). split; [|done].
    apply Forall2_fmap_r. eapply Forall2_impl; [exact Hes|].
    intros line e He. by apply entry_transpose.
  - unfold add_entry. rewrite !table_entries_fold. done.
Qed.

End Transpose.

(** * Properties of the specification *)

(** C1 (the code at the scenario of the specification): with
    [batch_size = 1] and the two major keys 0 and 1, one epoch yields a
    single batch, whichever way the keys are shuffled; the second key is
    in no batch. *)
Theorem C1_example_yields_one_batch :
  __init__ (Example.config 1) None None Example.dir = Ok (ExampleRun.provider 1)
  ∧ table_keys (data (ExampleRun.provider 1)) = [0; 1]
  ∧ iterate_one_epoch (ExampleRun.provider 1) id 3
    = ([ {| indices := ([0; 0], [0; 1]); values := [5%Q; 4%Q]; size := (1, 2) |} ],
       Exhausted)
  ∧ iterate_one_epoch (ExampleRun.provider 1) reverse 3
    = ([ {| indices := ([0], [0]); values := [3%Q]; size := (1, 2) |} ], Exhausted).
Proof. split_and!; [apply init_example|vm_compute; reflexivity..]. Qed.




(** C3: on a corpus every line of which has a raw user and a raw item
    identifier, [_build_maps] returns; with K distinct user identifiers
    and M distinct item identifiers the user map has K entries, its values
    a bijection onto [[0, K)], the item map has M entries, its values a
    bijection onto [[0, M)], and indices follow the order of first
    occurrence in the scan, from 0. *)
Theorem C3_build_maps_dense_first_seen `{Builtins} u_ind i_ind delim files ids :
  Forall2 (λ line ui, raw_ids u_ind i_ind delim line = Some ui) (corpus_lines files) ids →
  ∃ st, _build_maps u_ind i_ind delim files = Ok st
        ∧ dense_first_seen ids.*1 (b_user_id_map st)
        ∧ dense_first_seen ids.*2 (b_item_id_map st).
Proof.
  intros Hids.
  destruct (fold_build_step ids
    {| b_user_id_map := ∅; b_item_id_map := ∅; b_u_id := 0; b_i_id := 0 |}) as [Hu Hi].
  simpl in Hu, Hi.
  assert (_build_maps u_ind i_ind delim files
          = Ok (fold_left build_step ids
                  {| b_user_id_map := ∅; b_item_id_map := ∅; b_u_id := 0; b_i_id := 0 |}))
    as Hbuild.
  { unfold _build_maps. apply build_files_Ok. eauto. }
  eexists. split; [exact Hbuild|].
  destruct (build_maps_indexed _ _ _ _ _ _ Hbuild Hids) as [H1 H2].
  split; by eapply indexed_dense_first_seen.
Qed.

Lemma C3_build_maps_dense_first_seen_witness :
  ∃ st, _build_maps (H := Decimal.builtins) 1 0 PyStr.tab
          (cfg_files (Example.config 1) Example.dir) = Ok st
        ∧ dense_first_seen [0; 0; 1] (b_user_id_map st)
        ∧ dense_first_seen [0; 1; 0] (b_item_id_map st).
Proof.
  apply (C3_build_maps_dense_first_seen (H := Decimal.builtins) 1 0 PyStr.tab
           (cfg_files (Example.config 1) Example.dir) [(0, 0); (0, 1); (1, 0)]).
  repeat constructor.
Defined.

(** C4: in every mini-batch [iterate_one_epoch] yields on a provider
    whose maps were built internally, every triple has its row in
    [[0, batch_size)] and its column in [[0, vector_dim)]. *)
Theorem C4_epoch_triples_in_bounds `{Builtins} p um im fs self shuffle n mb row col v :
  um = None ∨ im = None →
  __init__ p um im fs = Ok self →
  mb ∈ (iterate_one_epoch self shuffle n).1 →
  (row, col, v) ∈ triples mb →
  0 ≤ row < _batch_size self ∧ 0 ≤ col < _vector_dim self.
Proof.
  intros Hnone Hinit Hmb Htriple.
  pose proof (init_data_in_range _ _ _ _ _ Hnone Hinit) as Hd.
  pose proof (epoch_run_bounds self (shuffle (table_keys (data self))) n 0
                (_batch_size self) Hd ltac:(lia)) as Hrun.
  rewrite Forall_forall in Hrun. destruct (Hrun mb Hmb) as [H1 H2].
  unfold triples in Htriple.
  apply elem_of_zip_l in Htriple.
  pose proof (elem_of_zip_l _ _ _ _ Htriple) as Hrow.
  pose proof (elem_of_zip_r _ _ _ _ Htriple) as Hcol.
  rewrite Forall_forall in H1, H2. auto.
Qed.

Lemma C4_epoch_triples_in_bounds_witness :
  0 ≤ 0 < _batch_size (ExampleRun.provider 1)
  ∧ 0 ≤ 1 < _vector_dim (ExampleRun.provider 1).
Proof.
  apply (C4_epoch_triples_in_bounds (Example.config 1) None None Example.dir
           (ExampleRun.provider 1) id 3
           {| indices := ([0; 0], [0; 1]); values := [5%Q; 4%Q]; size := (1, 2) |}
           0 1 4%Q).
  - left. reflexivity.
  - apply init_example.
  - vm_compute. left.
  - vm_compute. right. left.
Defined.

(** C5: when [src_data] has every key of the primary table, the
    evaluation generator yields one element per key and returns; the
    elements come in the table's key order, the keys are pairwise
    distinct, both matrices of an element have shape [(1, vector_dim)] and
    are built from that key's rows, and with [for_inf] the element carries
    that key (without it, none). *)
Theorem C5_eval_visits_each_key_once `{Builtins} p um im fs self0 t for_inf :
  __init__ p um im fs = Ok self0 →
  (∀ k, k ∈ table_keys (data self0) → is_Some (table_get t k)) →
  let self := set_src_data self0 t in
  let keys := table_keys (data self) in
  ∃ its, iterate_one_epoch_eval self for_inf (S (length keys)) = (its, Exhausted)
         ∧ length its = length keys
         ∧ NoDup keys
         ∧ Forall2 (λ k it,
              (∃ vs, table_get (data self) k = Some vs
                     ∧ target it = single_row (_vector_dim self) vs)
              ∧ (∃ src_vs, table_get t k = Some src_vs
                     ∧ source it = single_row (_vector_dim self) src_vs)
              ∧ size (target it) = (1, _vector_dim self)
              ∧ size (source it) = (1, _vector_dim self)
              ∧ item_key it = if for_inf then Some k else None) keys its.
Proof.
  intros Hinit Hsrc self keys.
  assert (∀ ks, (∀ k, k ∈ ks → k ∈ keys) →
            ∃ its, Forall2 (λ k it, eval_item_of self for_inf k = Some it) ks its)
    as Hitems.
  { induction ks as [|k ks IH]; intros Hks; [by exists []|].
    destruct IH as [its Hits]; [intros; apply Hks; by right|].
    destruct (table_get_is_Some (data self) k) as [vs Hvs]; [apply Hks; by left|].
    destruct (Hsrc k) as [src_vs Hsv]; [apply Hks; by left|].
    eexists (_ :: its). constructor; [|done].
    unfold eval_item_of. rewrite Hvs. simpl. by rewrite Hsv. }
  destruct (Hitems keys) as [its Hits]; [done|].
  exists its. split_and!.
  - unfold iterate_one_epoch_eval. fold keys.
    pose proof (eval_run_stretch self for_inf [] keys [] its 1 Hits) as Hrun.
    rewrite app_nil_r in Hrun. simpl app in Hrun. simpl length in Hrun.
    replace (S (length keys)) with (length keys + 1)%nat by lia.
    change 0 with (Z.of_nat 0). rewrite Hrun.
    rewrite gen_run_S, eval_next_stop. by rewrite app_nil_r.
  - symmetry. by eapply Forall2_length.
  - apply init_Ok_inv in Hinit as (_ & _ & _ & _ & _ & _ & Hload).
    apply load_files_Ok in Hload as (es & _ & Hd).
    unfold keys. simpl. rewrite Hd. apply fold_add_entry_NoDup. constructor.
  - eapply Forall2_impl; [exact Hits|]. intros k it. unfold eval_item_of. simpl.
    destruct (table_get (data self0) k) as [vs|]; [|done]. simpl.
    destruct (table_get t k) as [src_vs|]; [|done]. intros [= <-]. simpl.
    split_and!; eauto.
Qed.

Lemma C5_eval_visits_each_key_once_witness :
  let self := set_src_data (ExampleRun.provider 1) (data (ExampleRun.provider 1)) in
  let keys := table_keys (data self) in
  ∃ its, iterate_one_epoch_eval self true (S (length keys)) = (its, Exhausted)
         ∧ length its = length keys
         ∧ NoDup keys
         ∧ Forall2 (λ k it,
              (∃ vs, table_get (data self) k = Some vs
                     ∧ target it = single_row (_vector_dim self) vs)
              ∧ (∃ src_vs, table_get (data (ExampleRun.provider 1)) k = Some src_vs
                     ∧ source it = single_row (_vector_dim self) src_vs)
              ∧ size (target it) = (1, _vector_dim self)
              ∧ size (source it) = (1, _vector_dim self)
              ∧ item_key it = if true then Some k else None) keys its.
Proof.
  apply (C5_eval_visits_each_key_once (Example.config 1) None None Example.dir
           (ExampleRun.provider 1) (data (ExampleRun.provider 1)) true).
  - apply init_example.
  - intros k Hk. apply table_get_is_Some. exact Hk.
Defined.

(** C6 (as stated, refuted): each of three corpora has a line with two
    fields only, yet construction raises another exception than the
    malformed-record one.  An earlier line raises first: from [int()] in
    the map-building pass, which is no declared kind, or from the lookup
    in a supplied map in the aggregation pass; and a [major] that is not
    legal raises before any line is read. *)
Lemma C6_counterexample_earlier_error :
  PyStr.split (PyStr.strip ExampleBad.two_fields) PyStr.tab = Ok ["1"; "2"]
  ∧ (ExampleBad.two_fields
       ∈ corpus_lines (cfg_files (Example.config 1) ExampleBad.dir_item_then_short)
     ∧ __init__ (H := Decimal.builtins) (Example.config 1) None None
         ExampleBad.dir_item_then_short
       = Raise (ValueError_int "x")
     ∧ declared_kind (ValueError_int "x") = None)
  ∧ (ExampleBad.two_fields
       ∈ corpus_lines (cfg_files (Example.config 1) ExampleBad.dir_item7_then_short)
     ∧ __init__ (H := Decimal.builtins) (Example.config 1)
         (Some {[0 := 0]}) (Some {[0 := 0]}) ExampleBad.dir_item7_then_short
       = Raise (KeyError_id_map 7)
     ∧ declared_kind (KeyError_id_map 7) = Some UnknownIdentifier)
  ∧ (ExampleBad.two_fields
       ∈ corpus_lines (cfg_files ExampleConfig.bad_major ExampleBad.dir_short_line)
     ∧ __init__ (H := Decimal.builtins) ExampleConfig.bad_major None None
         ExampleBad.dir_short_line
       = Raise (ValueError_major "both")
     ∧ declared_kind (ValueError_major "both") = Some ConfigurationError).
Proof.
  split; [vm_compute; reflexivity|].
  split_and!; [| |done| | |done| | |done].
  - vm_compute. right. left.
  - apply result_by_raised. vm_compute. reflexivity.
  - vm_compute. right. left.
  - apply result_by_raised. vm_compute. reflexivity.
  - vm_compute. right. left.
  - apply result_by_raised. vm_compute. reflexivity.
Qed.

(** C6 (amended): with a legal [major], when the first pass over the
    corpus reaches a line that splits into fewer than 3 fields, that is,
    when no earlier line makes it raise, construction raises the
    malformed-record exception naming the file of that line, whatever
    follows the line in the file and in the later files; the pass is the
    map-building pass, or the aggregation pass when both maps are
    supplied. *)
Theorem C6_short_line_aborts `{Builtins} p um im fs
  files_pre f lines_pre line lines_post files_post parts :
  valid_major p →
  cfg_files p fs = files_pre ++ (f, lines_pre ++ line :: lines_post) :: files_post →
  PyStr.split (PyStr.strip line) (cfg_delimiter p) = Ok parts →
  (length parts < 3)%nat →
  first_pass_Ok p um im (files_pre ++ [(f, lines_pre)]) →
  __init__ p um im fs = Raise (ValueError_bad_line f)
  ∧ declared_kind (ValueError_bad_line f) = Some MalformedRecord.
Proof.
  intros Hm Hfiles Hsplit Hlen Hpre. split; [|done].
  destruct um as [u|], im as [i|]; simpl in Hpre.
  1: { eapply (init_raise_load p (Some u) (Some i) fs (u, i)); [done..|].
       unfold init_load. rewrite Hfiles. simpl.
       apply (scan_raise_at (load_line _ _ (cfg_major_ind p) (cfg_minor_ind p)
                               (cfg_r_id p) (cfg_delimiter p))); [done|].
       intros d. unfold load_line.
       by rewrite (read_parts_short _ _ _ _ Hsplit Hlen). }
  all: apply init_raise_maps; [done|]; unfold init_maps;
    (assert (_build_maps (cfg_u_id p) (cfg_i_id p) (cfg_delimiter p) (cfg_files p fs)
             = Raise (ValueError_bad_line f)) as ->; [|done]);
    rewrite Hfiles; unfold _build_maps;
    apply (scan_raise_at (build_line (cfg_u_id p) (cfg_i_id p) (cfg_delimiter p)));
    [done|]; intros st; unfold build_line;
    by rewrite (read_parts_short _ _ _ _ Hsplit Hlen).
Qed.

Lemma C6_short_line_aborts_witness :
  __init__ (H := Decimal.builtins) (Example.config 1) None None ExampleBad.dir_short_line
  = Raise (ValueError_bad_line "data/a.txt")
  ∧ declared_kind (ValueError_bad_line "data/a.txt") = Some MalformedRecord.
Proof.
  apply (C6_short_line_aborts (H := Decimal.builtins) (Example.config 1) None None
           ExampleBad.dir_short_line
           [] "data/a.txt" [Example.line3 "0" "0" "5.0"]
           ("1" +:+ PyStr.tab +:+ "2" +:+ Example.nl)
           ["no record at all"]
           [("data/b.txt", [Example.line3 "zero" "0" "5.0"])]
           ["1"; "2"]).
  - left. reflexivity.
  - vm_compute. reflexivity.
  - vm_compute. reflexivity.
  - simpl. lia.
  - apply (on_Ok_is_Ok (λ _, ()) _ ()). vm_compute. reflexivity.
Defined.

(** C7 (as stated, refuted): on an empty data directory construction
    returns a provider with no key; [src_data] is unset, and the
    evaluation generator returns at its first step without raising. *)
Lemma C7_counterexample_empty_table :
  __init__ (Example.config 1) None None [] = Ok ExampleEval.empty
  ∧ table_keys (data ExampleEval.empty) = []
  ∧ src_data ExampleEval.empty = None
  ∧ iterate_one_epoch_eval ExampleEval.empty false 1 = ([], Exhausted).
Proof.
  split_and!; [|reflexivity..]. apply result_by_view. vm_compute. reflexivity.
Qed.

(** C7 (amended): when the key list of the primary table is
    [pre ++ k :: post], the keys of [pre] have their elements [its] (they
    are in both tables) and [self.src_data[k]] raises, the evaluation
    generator yields [its] and then raises at [k] a MissingSourceData
    exception.  [self.src_data[k]] raises when [k] is absent from
    [src_data], and when [src_data] was never assigned; in the latter case
    no key has an element, so [pre] is empty: the generator raises at the
    first key, provided there is one. *)
Theorem C7_eval_missing_source_data `{Builtins} (self : UserItemRecDataProvider)
  for_inf pre k post its (n : nat) :
  table_keys (data self) = pre ++ k :: post →
  Forall2 (λ k' it, eval_item_of self for_inf k' = Some it) pre its →
  src_data_missing self k →
  (length pre < n)%nat →
  iterate_one_epoch_eval self for_inf n = (its, Raised (src_data_exn self k))
  ∧ declared_kind (src_data_exn self k) = Some MissingSourceData.
Proof.
  intros Hkeys Hpre Hmiss Hn. split.
  - unfold iterate_one_epoch_eval. rewrite Hkeys.
    replace n with (length pre + S (n - length pre - 1))%nat by lia.
    pose proof (eval_run_stretch self for_inf [] pre (k :: post) its
                  (S (n - length pre - 1)) Hpre) as Hrun.
    simpl app in Hrun. simpl length in Hrun. change (Z.of_nat 0) with 0 in Hrun.
    rewrite Hrun, gen_run_S.
    rewrite (eval_next_raise self for_inf pre k post).
    + by rewrite app_nil_r.
    + apply table_get_is_Some. rewrite Hkeys, elem_of_app. right. by left.
    + exact Hmiss.
  - unfold src_data_exn. by destruct (src_data self).
Qed.

Lemma C7_eval_missing_source_data_witness :
  (iterate_one_epoch_eval (ExampleRun.provider 1) true 5
   = ([], Raised (src_data_exn (ExampleRun.provider 1) 0))
   ∧ declared_kind (src_data_exn (ExampleRun.provider 1) 0) = Some MissingSourceData)
  ∧ (iterate_one_epoch_eval ExampleEval.partial_source true 5
     = ([ {| target := single_row (H := Decimal.builtins) 2 [(0, 5%Q); (1, 4%Q)];
             source := single_row (H := Decimal.builtins) 2 [(1, 2%Q)];
             item_key := Some 0 |} ],
        Raised (src_data_exn ExampleEval.partial_source 1))
     ∧ declared_kind (src_data_exn ExampleEval.partial_source 1) = Some MissingSourceData).
Proof.
  split.
  - apply (C7_eval_missing_source_data (ExampleRun.provider 1) true [] 0 [1]).
    + reflexivity.
    + constructor.
    + reflexivity.
    + simpl. lia.
  - apply (C7_eval_missing_source_data ExampleEval.partial_source true [0] 1 []).
    + reflexivity.
    + repeat constructor.
    + reflexivity.
    + simpl. lia.
Defined.

(** C8: construction is a function of the configuration and of the
    sequence of records: two directory listings that give the same lines
    in the same order give the same provider, in particular the same user
    map, item map and table. *)
Theorem C8_construction_deterministic `{Builtins} p um im fs1 fs2 self1 :
  corpus_lines (cfg_files p fs1) = corpus_lines (cfg_files p fs2) →
  __init__ p um im fs1 = Ok self1 →
  ∃ self2, __init__ p um im fs2 = Ok self2
           ∧ _user_id_map self2 = _user_id_map self1
           ∧ _item_id_map self2 = _item_id_map self1
           ∧ data self2 = data self1.
Proof. intros Heq Hinit. exists self1. split; [|done]. by eapply init_lines. Qed.

Lemma C8_construction_deterministic_witness :
  ∃ self2, __init__ (Example.config 1) None None ExampleRun.dir_split = Ok self2
           ∧ _user_id_map self2 = _user_id_map (ExampleRun.provider 1)
           ∧ _item_id_map self2 = _item_id_map (ExampleRun.provider 1)
           ∧ data self2 = data (ExampleRun.provider 1).
Proof.
  apply (C8_construction_deterministic (Example.config 1) None None
           Example.dir ExampleRun.dir_split (ExampleRun.provider 1)).
  - vm_compute. reflexivity.
  - apply init_example.
Defined.

(** C9 (as stated, refuted): with [batch_size = 0] on the scenario's
    table the generator never stops: after any number of steps it is
    still suspended. *)
Lemma C9_counterexample_batch_size_zero :
  __init__ (Example.config 0) None None Example.dir = Ok (ExampleRun.provider 0)
  ∧ data (ExampleRun.provider 0) ≠ []
  ∧ ¬ iterate_one_epoch_terminates (ExampleRun.provider 0) id.
Proof.
  split_and!; [apply init_example|done|].
  intros (n & l & o & Hrun & Ho). unfold iterate_one_epoch in Hrun.
  destruct (epoch_run_zero_suspended (ExampleRun.provider 0)
              (id (table_keys (data (ExampleRun.provider 0)))) n) as (l' & Hrun' & _);
    [done..|].
  simpl in Hrun, Hrun'. rewrite Hrun' in Hrun. injection Hrun as _ <-. by eapply Ho.
Qed.

(** C9 (amended): with a batch size of at least 1, one call of
    [iterate_one_epoch] yields finitely many batches and returns, on every
    table, empty or not. *)
Theorem C9_epoch_terminates `{Builtins} (self : UserItemRecDataProvider) shuffle :
  1 ≤ _batch_size self →
  shuffle (table_keys (data self)) ≡ₚ table_keys (data self) →
  ∃ n l, iterate_one_epoch self shuffle n = (l, Exhausted).
Proof.
  intros Hb Hperm. set (keys := shuffle (table_keys (data self))).
  destruct (epoch_run_exhausts self keys (S (length keys)) 0 (_batch_size self))
    as (l & Hrun & _); [|lia..|].
  { intros k Hk. apply table_get_is_Some. unfold keys in Hk. by rewrite Hperm in Hk. }
  by exists (S (length keys)), l.
Qed.

Lemma C9_epoch_terminates_witness :
  ∃ n l, iterate_one_epoch (ExampleRun.provider 1) reverse n = (l, Exhausted).
Proof.
  apply (C9_epoch_terminates (ExampleRun.provider 1) reverse).
  - simpl. lia.
  - vm_compute. apply perm_swap.
Defined.

(** C10 (as stated, refuted): the first record has three fields and a
    rating that is no float literal, yet construction raises the
    malformed-record exception, a declared kind: the map-building pass
    does not read the rating and meets the two-field record first. *)
Lemma C10_counterexample_rating_then_short_line :
  fields PyStr.tab (Example.line3 "0" "0" "x") = Some ["0"; "0"; "x"]
  ∧ float (Builtins := Decimal.builtins) "x" = None
  ∧ __init__ (H := Decimal.builtins) (Example.config 1) None None
      ExampleBad.dir_rating_then_short
    = Raise (ValueError_bad_line "data/ratings.txt")
  ∧ declared_kind (ValueError_bad_line "data/ratings.txt") = Some MalformedRecord.
Proof.
  split_and!; [vm_compute; reflexivity..| |reflexivity].
  apply result_by_raised. vm_compute. reflexivity.
Qed.

(** C10 (amended): construction returns only when every line has item and
    user fields that are integer literals and a rating field that is a
    float literal; and on a corpus whose lines all split into at least 3
    fields with the configured positions present, with a valid [major] and
    maps built internally, a line with a field that is no such literal
    makes construction raise from [int()] or [float()], an exception that
    is none of the four declared kinds. *)
Theorem C10_numeric_fields `{Builtins} p um im fs :
  (∀ self, __init__ p um im fs = Ok self →
           Forall (parseable p) (corpus_lines (cfg_files p fs)))
  ∧ (valid_major p → um = None ∨ im = None →
     Forall (well_shaped p) (corpus_lines (cfg_files p fs)) →
     Exists (λ line, ¬ parseable p line) (corpus_lines (cfg_files p fs)) →
     ∃ e, __init__ p um im fs = Raise e
          ∧ numeric_parse_failure e
          ∧ declared_kind e = None).
Proof.
  split.
  - intros self (maps & _ & Hload)%init_Ok_passes. by eapply init_load_parseable.
  - intros Hm Hnone Hshape Hbad.
    assert (init_maps p um im fs
            = st ← _build_maps (cfg_u_id p) (cfg_i_id p) (cfg_delimiter p) (cfg_files p fs);
              Ok (b_user_id_map st, b_item_id_map st)) as Hmaps.
    { unfold init_maps. destruct um, im; try done; by destruct Hnone. }
    destruct (build_maps_cases p (cfg_files p fs) Hshape) as [[st Hst]|(e & He & Hnum)].
    + rewrite Hst in Hmaps. simpl in Hmaps.
      destruct (init_load_cases p fs st Hshape Hst) as [[d Hd]|(e & He & Hnum)].
      * apply init_load_parseable in Hd. apply Exists_exists in Hbad as (line & Hin & Hnp).
        rewrite Forall_forall in Hd. destruct Hnp. by apply Hd.
      * exists e. split_and!; [|done|by apply numeric_parse_failure_undeclared].
        by eapply init_raise_load.
    + rewrite He in Hmaps. simpl in Hmaps.
      exists e. split_and!; [|done|by apply numeric_parse_failure_undeclared].
      by apply init_raise_maps.
Qed.

Lemma C10_numeric_fields_witness :
  ∃ e, __init__ (H := Decimal.builtins) (Example.config 1) None None ExampleBad.dir_bad_rating
       = Raise e
       ∧ numeric_parse_failure e
       ∧ declared_kind e = None.
Proof.
  apply (proj2 (C10_numeric_fields (H := Decimal.builtins) (Example.config 1) None None
                  ExampleBad.dir_bad_rating)).
  - left. reflexivity.
  - left. reflexivity.
  - repeat constructor; eexists; (split_and!; [vm_compute; reflexivity|by eexists..]).
  - apply Exists_cons_tl, Exists_cons_hd.
    intros (parts & Hparts & _ & _ & Hr). vm_compute in Hparts.
    injection Hparts as <-. vm_compute in Hr. by destruct Hr.
Defined.

(** * Further properties *)

(** ** The aggregated table *)

(** X1: after construction [data[k]] is the list of the (minor index,
    rating) pairs of the records whose major key is [k], in the order of
    the scan, and a key no record has is absent. *)
Theorem X1_table_holds_pairs_per_key `{Builtins} p um im fs self :
  __init__ p um im fs = Ok self →
  ∃ es, corpus_entries p self fs es
        ∧ ∀ k, table_get (data self) k
               = match pairs_of k es with
                 | [] => None
                 | vs => Some vs
                 end.
Proof.
  intros (es & Hes & Hd)%init_corpus_entries. exists es. split; [done|].
  intros k. rewrite Hd, table_get_fold. simpl. by destruct (pairs_of k es).
Qed.

Lemma X1_table_holds_pairs_per_key_witness :
  ∃ es, corpus_entries (Example.config 1) (ExampleRun.provider 1) Example.dir es
        ∧ ∀ k, table_get (data (ExampleRun.provider 1)) k
               = match pairs_of k es with
                 | [] => None
                 | vs => Some vs
                 end.
Proof.
  apply (X1_table_holds_pairs_per_key (Example.config 1) None None Example.dir).
  apply init_example.
Defined.

(** X2: the keys of the table are listed in the order in which they first
    occur in the scan, each once, and every key has at least one pair. *)
Theorem X2_table_keys_first_seen `{Builtins} p um im fs self :
  __init__ p um im fs = Ok self →
  ∃ es, corpus_entries p self fs es
        ∧ table_keys (data self) = nub es.*1
        ∧ NoDup (table_keys (data self))
        ∧ Forall (λ kv, kv.2 ≠ []) (data self).
Proof.
  intros (es & Hes & Hd)%init_corpus_entries. exists es. split; [done|].
  assert (table_keys (data self) = nub es.*1) as Hkeys.
  { rewrite Hd. apply table_keys_fold_nil. }
  split_and!; [done| |].
  - rewrite Hkeys. apply NoDup_nub.
  - rewrite Hd. apply table_fold_nonempty. constructor.
Qed.

Lemma X2_table_keys_first_seen_witness :
  ∃ es, corpus_entries (Example.config 1) (ExampleRun.provider 1) Example.dir es
        ∧ table_keys (data (ExampleRun.provider 1)) = nub es.*1
        ∧ NoDup (table_keys (data (ExampleRun.provider 1)))
        ∧ Forall (λ kv, kv.2 ≠ []) (data (ExampleRun.provider 1)).
Proof.
  apply (X2_table_keys_first_seen (Example.config 1) None None Example.dir).
  apply init_example.
Defined.

(** X3: every record of the corpus is stored exactly once: the pairs of
    the table, with their keys, are a permutation of the entries of the
    lines, so the table holds as many pairs as the corpus has lines. *)
Theorem X3_table_stores_each_record_once `{Builtins} p um im fs self :
  __init__ p um im fs = Ok self →
  ∃ es, corpus_entries p self fs es
        ∧ table_entries (data self) ≡ₚ es
        ∧ length (table_entries (data self)) = length (corpus_lines (cfg_files p fs)).
Proof.
  intros (es & Hes & Hd)%init_corpus_entries. exists es. split; [done|].
  assert (table_entries (data self) ≡ₚ es) as Hperm.
  { rewrite Hd, table_entries_fold. done. }
  split; [done|]. rewrite Hperm. symmetry. by eapply Forall2_length.
Qed.

Lemma X3_table_stores_each_record_once_witness :
  ∃ es, corpus_entries (Example.config 1) (ExampleRun.provider 1) Example.dir es
        ∧ table_entries (data (ExampleRun.provider 1)) ≡ₚ es
        ∧ length (table_entries (data (ExampleRun.provider 1)))
          = length (corpus_lines (cfg_files (Example.config 1) Example.dir)).
Proof.
  apply (X3_table_stores_each_record_once (Example.config 1) None None Example.dir).
  apply init_example.
Defined.

(** X4: with maps built internally the table has one key per major
    identifier and lists them in index order: [list(data.keys())] is
    [0, 1, ..., K - 1] for [K] the size of the major map. *)
Theorem X4_table_keys_are_0_to_K `{Builtins} p um im fs self :
  um = None ∨ im = None →
  __init__ p um im fs = Ok self →
  table_keys (data self) = seqZ 0 (Z.of_nat (base.size (major_map self)))
  ∧ length (data self) = base.size (major_map self).
Proof.
  intros Hnone Hinit. pose proof (init_table_keys_dense _ _ _ _ _ Hnone Hinit) as Hkeys.
  split; [done|].
  apply (f_equal length) in Hkeys. unfold table_keys in Hkeys.
  rewrite length_fmap, length_seqZ in Hkeys. lia.
Qed.

Lemma X4_table_keys_are_0_to_K_witness :
  table_keys (data (ExampleRun.provider 1))
  = seqZ 0 (Z.of_nat (base.size (major_map (ExampleRun.provider 1))))
  ∧ length (data (ExampleRun.provider 1)) = base.size (major_map (ExampleRun.provider 1)).
Proof.
  apply (X4_table_keys_are_0_to_K (Example.config 1) None None Example.dir).
  - left. reflexivity.
  - apply init_example.
Defined.

(** ** Construction: configuration, maps and errors *)

(** X5: a [major] other than "items" and "users" makes construction raise
    the configuration error carrying that value, before any file is read:
    whatever the directory holds and whichever maps are supplied. *)
Theorem X5_invalid_major_raises_first `{Builtins} p um im fs :
  ¬ valid_major p →
  __init__ p um im fs = Raise (ValueError_major (cfg_major p))
  ∧ declared_kind (ValueError_major (cfg_major p)) = Some ConfigurationError.
Proof. intros Hm. split; [by apply init_invalid_major|done]. Qed.

Lemma X5_invalid_major_raises_first_witness :
  __init__ (H := Decimal.builtins) ExampleConfig.bad_major None None ExampleBad.dir_short_line
  = Raise (ValueError_major (cfg_major ExampleConfig.bad_major))
  ∧ declared_kind (ValueError_major (cfg_major ExampleConfig.bad_major))
    = Some ConfigurationError.
Proof.
  apply (X5_invalid_major_raises_first (H := Decimal.builtins) ExampleConfig.bad_major).
  intros [Hm|Hm]; vm_compute in Hm; discriminate.
Defined.

(** X6: a provider constructed with both maps supplied keeps them, also
    when they differ from the maps the scan would build: [userIdMap] and
    [itemIdMap] return them unchanged, [params] returns the configuration,
    [vector_dim] is the size of the supplied minor map, and the table is
    indexed through them: every key is a value of the supplied major map
    and every column a value of the supplied minor map. *)
Theorem X6_supplied_maps_are_kept `{Builtins} p u i fs self :
  __init__ p (Some u) (Some i) fs = Ok self →
  Accessors.userIdMap self = u
  ∧ Accessors.itemIdMap self = i
  ∧ Accessors.params self = p
  ∧ Accessors.vector_dim self
    = Z.of_nat (base.size (if bool_decide (cfg_major p = "items") then u else i))
  ∧ ∀ k c v, (k, (c, v)) ∈ table_entries (data self) →
      (∃ raw, (if bool_decide (cfg_major p = "items") then i else u) !! raw = Some k)
      ∧ (∃ raw, (if bool_decide (cfg_major p = "items") then u else i) !! raw = Some c).
Proof.
  intros Hinit. pose proof (init_corpus_entries _ _ _ _ _ Hinit) as (es & Hes & Hd).
  apply init_Ok_provider_of in Hinit as (maps & d & Hmaps & _ & ->).
  injection Hmaps as <-. split_and!; [done..|].
  intros k c v Hin. rewrite Hd, table_entries_fold in Hin. simpl in Hin.
  destruct (Forall2_elem_of_r _ _ _ _ Hes Hin) as (line & _ & Hentry).
  split.
  - apply entry_major in Hentry as (parts & a & _ & _ & Ha). by exists a.
  - by apply entry_minor in Hentry.
Qed.

Lemma X6_supplied_maps_are_kept_witness :
  Accessors.userIdMap ExampleSupplied.provider = ExampleSupplied.user_map
  ∧ Accessors.itemIdMap ExampleSupplied.provider = ExampleSupplied.item_map
  ∧ Accessors.params ExampleSupplied.provider = Example.config 1
  ∧ Accessors.vector_dim ExampleSupplied.provider
    = Z.of_nat (base.size (if bool_decide (cfg_major (Example.config 1) = "items")
                           then ExampleSupplied.user_map else ExampleSupplied.item_map))
  ∧ ∀ k c v, (k, (c, v)) ∈ table_entries (data ExampleSupplied.provider) →
      (∃ raw, (if bool_decide (cfg_major (Example.config 1) = "items")
               then ExampleSupplied.item_map else ExampleSupplied.user_map) !! raw = Some k)
      ∧ (∃ raw, (if bool_decide (cfg_major (Example.config 1) = "items")
                 then ExampleSupplied.user_map else ExampleSupplied.item_map) !! raw
                = Some c).
Proof.
  apply (X6_supplied_maps_are_kept (Example.config 1)
           ExampleSupplied.user_map ExampleSupplied.item_map Example.dir).
  apply result_by_view. vm_compute. reflexivity.
Defined.

(** X7: the maps of a provider can be reused on the corpus they were built
    from: supplying the [userIdMap] and [itemIdMap] of an internally built
    provider to a construction over the same directory and configuration
    returns the same provider. *)
Theorem X7_own_maps_reconstruct `{Builtins} p um im fs self :
  __init__ p um im fs = Ok self →
  __init__ p (Some (Accessors.userIdMap self)) (Some (Accessors.itemIdMap self)) fs
  = Ok self.
Proof.
  intros Hinit. pose proof Hinit as (Hm & _)%init_Ok_inv.
  apply init_Ok_provider_of in Hinit as (maps & d & Hmaps & Hload & ->).
  apply (init_Ok_intro p _ _ fs maps d Hm); [|done].
  unfold init_maps, Accessors.userIdMap, Accessors.itemIdMap. simpl. by destruct maps.
Qed.

Lemma X7_own_maps_reconstruct_witness :
  __init__ (Example.config 1)
    (Some (Accessors.userIdMap (ExampleRun.provider 1)))
    (Some (Accessors.itemIdMap (ExampleRun.provider 1))) Example.dir
  = Ok (ExampleRun.provider 1).
Proof.
  apply (X7_own_maps_reconstruct (Example.config 1) None None Example.dir).
  apply init_example.
Defined.

(** X8: with both maps supplied, when the aggregation pass reaches a line
    with at least 3 fields whose major identifier is an integer absent
    from the major map, or whose major identifier is known and whose minor
    identifier is an integer absent from the minor map, construction raises
    the unknown-identifier error carrying that raw identifier. *)
Theorem X8_unknown_identifier_raises `{Builtins} p u i fs
  files_pre f lines_pre line lines_post files_post parts a k :
  valid_major p →
  cfg_files p fs = files_pre ++ (f, lines_pre ++ line :: lines_post) :: files_post →
  first_pass_Ok p (Some u) (Some i) (files_pre ++ [(f, lines_pre)]) →
  fields (cfg_delimiter p) line = Some parts →
  field parts (cfg_major_ind p) ≫= int = Some a →
  let mm := if bool_decide (cfg_major p = "items") then i else u in
  let nm := if bool_decide (cfg_major p = "items") then u else i in
  (mm !! a = None ∧ k = a)
  ∨ (is_Some (mm !! a) ∧ field parts (cfg_minor_ind p) ≫= int = Some k ∧ nm !! k = None) →
  __init__ p (Some u) (Some i) fs = Raise (KeyError_id_map k)
  ∧ declared_kind (KeyError_id_map k) = Some UnknownIdentifier.
Proof.
  intros Hm Hfiles Hpre Hparts Ha mm nm Hk. split; [|done].
  eapply (init_raise_load p (Some u) (Some i) fs (u, i)); [done..|].
  unfold init_load. rewrite Hfiles. simpl. fold mm nm.
  apply (scan_raise_at (load_line mm nm (cfg_major_ind p) (cfg_minor_ind p)
                          (cfg_r_id p) (cfg_delimiter p))); [done|].
  intros d. apply (read_parts_fields _ f) in Hparts.
  apply bind_Some in Ha as (a_s & Ha_s%getitem_field & Ha%py_int_Ok).
  unfold load_line, id_map_get. rewrite Hparts; simpl. rewrite Ha_s; simpl.
  rewrite Ha; simpl.
  destruct Hk as [[Hnone ->]|([key Hkey] & Hb & Hnone)].
  - by rewrite Hnone.
  - apply bind_Some in Hb as (b_s & Hb_s%getitem_field & Hb%py_int_Ok).
    rewrite Hkey; simpl. rewrite Hb_s; simpl. rewrite Hb; simpl. by rewrite Hnone.
Qed.

Lemma X8_unknown_identifier_raises_witness :
  __init__ (H := Decimal.builtins) (Example.config 1)
    (Some {[0 := 0]}) (Some {[0 := 0]}) Example.dir
  = Raise (KeyError_id_map 1)
  ∧ declared_kind (KeyError_id_map 1) = Some UnknownIdentifier.
Proof.
  apply (X8_unknown_identifier_raises (H := Decimal.builtins) (Example.config 1)
           {[0 := 0]} {[0 := 0]} Example.dir
           [] "data/ratings.txt" [Example.line3 "0" "0" "5.0"]
           (Example.line3 "1" "0" "3.0") [Example.line3 "0" "1" "4.0"] []
           ["1"; "0"; "3.0"] 1 1).
  - left. reflexivity.
  - vm_compute. reflexivity.
  - apply (on_Ok_is_Ok (λ _, ()) _ ()). vm_compute. reflexivity.
  - vm_compute. reflexivity.
  - vm_compute. reflexivity.
  - left. split; [vm_compute; reflexivity|reflexivity].
Defined.

(** X9: with maps built internally construction never raises the
    unknown-identifier error: every identifier the aggregation pass looks
    up was indexed by the map-building pass. *)
Theorem X9_internal_maps_know_every_identifier `{Builtins} p um im fs k :
  um = None ∨ im = None →
  __init__ p um im fs ≠ Raise (KeyError_id_map k).
Proof.
  intros Hnone.
  assert (init_maps p um im fs
          = st ← _build_maps (cfg_u_id p) (cfg_i_id p) (cfg_delimiter p) (cfg_files p fs);
            Ok (b_user_id_map st, b_item_id_map st)) as Hmaps.
  { unfold init_maps. destruct um, im; try done; by destruct Hnone. }
  destruct (init_cases p um im fs)
    as [[_ ->]|[(_ & e & He & ->)|[(_ & maps & e & Hm & He & ->)|(_ & maps & d & _ & _ & ->)]]];
    [done| | |done].
  - rewrite Hmaps in He.
    destruct (build_maps_no_KeyError (cfg_u_id p) (cfg_i_id p) (cfg_delimiter p)
                (cfg_files p fs)) as [[st Hst]|(e' & He' & Hne)];
      [by rewrite Hst in He|].
    rewrite He' in He. injection He as <-. intros [= ->]. by eapply Hne.
  - rewrite Hmaps in Hm. apply bind_Ok_inv in Hm as (st & Hst & [= <-]).
    destruct (init_load_no_KeyError p fs st Hst) as [[d Hd]|(e' & He' & Hne)];
      [by rewrite Hd in He|].
    rewrite He' in He. injection He as <-. intros [= ->]. by eapply Hne.
Qed.

Lemma X9_internal_maps_know_every_identifier_witness :
  __init__ (H := Decimal.builtins) (Example.config 1) (Some {[0 := 0]}) None Example.dir
  ≠ Raise (KeyError_id_map 1).
Proof.
  apply (X9_internal_maps_know_every_identifier (H := Decimal.builtins)
           (Example.config 1) (Some {[0 := 0]}) None Example.dir 1).
  right. reflexivity.
Defined.

(** X10: with maps built internally, when the map-building pass reaches a
    line that has at least 3 fields but none at the configured user
    position, or an integer there and no field at the configured item
    position, construction raises [IndexError], which is none of the
    declared error kinds. *)
Theorem X10_missing_position_raises_IndexError `{Builtins} p um im fs
  files_pre f lines_pre line lines_post files_post parts :
  valid_major p →
  um = None ∨ im = None →
  cfg_files p fs = files_pre ++ (f, lines_pre ++ line :: lines_post) :: files_post →
  first_pass_Ok p um im (files_pre ++ [(f, lines_pre)]) →
  fields (cfg_delimiter p) line = Some parts →
  field parts (cfg_u_id p) = None
  ∨ (is_Some (field parts (cfg_u_id p) ≫= int) ∧ field parts (cfg_i_id p) = None) →
  __init__ p um im fs = Raise IndexError ∧ declared_kind IndexError = None.
Proof.
  intros Hm Hnone Hfiles Hpre Hparts Hmiss. split; [|done].
  apply init_raise_maps; [done|].
  assert (init_maps p um im fs
          = st ← _build_maps (cfg_u_id p) (cfg_i_id p) (cfg_delimiter p) (cfg_files p fs);
            Ok (b_user_id_map st, b_item_id_map st)) as ->.
  { unfold init_maps. destruct um, im; try done; by destruct Hnone. }
  assert (_build_maps (cfg_u_id p) (cfg_i_id p) (cfg_delimiter p) (cfg_files p fs)
          = Raise IndexError) as ->; [|done].
  rewrite Hfiles. unfold _build_maps.
  apply (scan_raise_at (build_line (cfg_u_id p) (cfg_i_id p) (cfg_delimiter p))).
  { unfold first_pass_Ok in Hpre. destruct um, im; try done; by destruct Hnone. }
  intros st. apply (read_parts_fields _ f) in Hparts.
  assert (∀ ind, field parts ind = None → getitem parts ind = Raise IndexError) as Hget.
  { intros ind. unfold field, getitem. repeat case_match; done. }
  unfold build_line. rewrite Hparts; simpl.
  destruct Hmiss as [Hu|([u Hu] & Hi)].
  - by rewrite (Hget _ Hu).
  - apply bind_Some in Hu as (u_s & Hu_s%getitem_field & Hu%py_int_Ok).
    rewrite Hu_s; simpl. rewrite Hu; simpl.
    destruct (b_user_id_map st !! u); simpl; by rewrite (Hget _ Hi).
Qed.

Lemma X10_missing_position_raises_IndexError_witness :
  __init__ (H := Decimal.builtins) ExampleConfig.far_user None None Example.dir
  = Raise IndexError
  ∧ declared_kind IndexError = None.
Proof.
  apply (X10_missing_position_raises_IndexError (H := Decimal.builtins)
           ExampleConfig.far_user None None Example.dir
           [] "data/ratings.txt" [] (Example.line3 "0" "0" "5.0")
           [Example.line3 "1" "0" "3.0"; Example.line3 "0" "1" "4.0"] []
           ["0"; "0"; "5.0"]).
  - left. reflexivity.
  - left. reflexivity.
  - vm_compute. reflexivity.
  - apply (on_Ok_is_Ok (λ _, ()) _ ()). vm_compute. reflexivity.
  - vm_compute. reflexivity.
  - left. vm_compute. reflexivity.
Defined.

(** X11: with an empty delimiter construction raises the empty-separator
    [ValueError] of [str.split] at the first line of the corpus, whichever
    maps are supplied; it is none of the declared error kinds. *)
Theorem X11_empty_delimiter_raises `{Builtins} p um im fs :
  valid_major p →
  cfg_delimiter p = "" →
  corpus_lines (cfg_files p fs) ≠ [] →
  __init__ p um im fs = Raise ValueError_empty_separator
  ∧ declared_kind ValueError_empty_separator = None.
Proof.
  intros Hm Hdelim Hne. split; [|done].
  destruct (corpus_first_line _ Hne) as (fp & f & line & lp & fpost & Hfiles & Hfp).
  assert (∀ source_file l, read_parts (cfg_delimiter p) source_file l
                           = Raise ValueError_empty_separator) as Hread.
  { intros sf l. unfold read_parts, PyStr.split. rewrite Hdelim. done. }
  assert (corpus_lines (fp ++ [(f, [])]) = []) as Hfp'.
  { unfold corpus_lines in *. rewrite fmap_app, join_app, Hfp. done. }
  pose proof (first_pass_no_lines p um im _ Hfp') as Hpre.
  destruct um as [u|] eqn:Hum, im as [i|] eqn:Him.
  1: { eapply (init_raise_load p (Some u) (Some i) fs (u, i)); [done..|].
       unfold init_load. rewrite Hfiles.
       apply (scan_raise_at (load_line _ _ (cfg_major_ind p) (cfg_minor_ind p)
                               (cfg_r_id p) (cfg_delimiter p)) [] fp f [] line lp fpost);
         [done|].
       intros d. unfold load_line. by rewrite Hread. }
  all: apply init_raise_maps; [done|]; unfold init_maps;
    (assert (_build_maps (cfg_u_id p) (cfg_i_id p) (cfg_delimiter p) (cfg_files p fs)
             = Raise ValueError_empty_separator) as ->; [|done]);
    rewrite Hfiles; unfold _build_maps;
    apply (scan_raise_at (build_line (cfg_u_id p) (cfg_i_id p) (cfg_delimiter p))
             _ fp f [] line lp fpost);
    [done|]; intros st; unfold build_line; by rewrite Hread.
Qed.

Lemma X11_empty_delimiter_raises_witness :
  __init__ (H := Decimal.builtins) ExampleConfig.no_delimiter None None Example.dir
  = Raise ValueError_empty_separator
  ∧ declared_kind ValueError_empty_separator = None.
Proof.
  apply (X11_empty_delimiter_raises (H := Decimal.builtins) ExampleConfig.no_delimiter).
  - left. reflexivity.
  - reflexivity.
  - vm_compute. discriminate.
Defined.

(** X12: on a corpus without any line (no source file, or empty ones)
    construction with a valid [major] and no maps returns a provider with
    two empty maps, an empty table and [vector_dim] 0. *)
Theorem X12_empty_corpus_constructs `{Builtins} p fs :
  valid_major p →
  corpus_lines (cfg_files p fs) = [] →
  __init__ p None None fs = Ok (provider_of p (∅, ∅) [])
  ∧ Accessors.vector_dim (provider_of p (∅, ∅) []) = 0.
Proof.
  intros Hm Hnil. split.
  - apply init_Ok_intro; [done|..].
    + unfold init_maps.
      assert (_build_maps (cfg_u_id p) (cfg_i_id p) (cfg_delimiter p) (cfg_files p fs)
              = Ok {| b_user_id_map := ∅; b_item_id_map := ∅; b_u_id := 0; b_i_id := 0 |})
        as ->; [|done].
      unfold _build_maps. apply build_files_Ok. exists []. rewrite Hnil.
      split; [constructor|done].
    + unfold init_load. apply load_files_Ok. exists []. rewrite Hnil.
      split; [constructor|done].
  - unfold Accessors.vector_dim, provider_of. simpl. by destruct (bool_decide _).
Qed.

Lemma X12_empty_corpus_constructs_witness :
  __init__ (H := Decimal.builtins) (Example.config 1) None None [ExampleConfig.subdir]
  = Ok (provider_of (Example.config 1) (∅, ∅) [])
  ∧ Accessors.vector_dim (provider_of (H := Decimal.builtins) (Example.config 1) (∅, ∅) [])
    = 0.
Proof.
  apply (X12_empty_corpus_constructs (H := Decimal.builtins) (Example.config 1)
           [ExampleConfig.subdir]).
  - left. reflexivity.
  - vm_compute. reflexivity.
Defined.

(** X13: a directory entry that is not a regular file, or whose name does
    not end with the configured extension, does not count: construction
    returns (or raises) the same with and without it. *)
Theorem X13_other_entries_are_ignored `{Builtins} p um im fs1 e fs2 :
  d_isfile e = false ∨ PyStr.endswith (default ".txt" (extension p)) (d_name e) = false →
  __init__ p um im (fs1 ++ e :: fs2) = __init__ p um im (fs1 ++ fs2).
Proof.
  intros He.
  assert (src_files (data_dir p) (default ".txt" (extension p)) (fs1 ++ e :: fs2)
          = src_files (data_dir p) (default ".txt" (extension p)) (fs1 ++ fs2)) as Heq.
  { unfold src_files. rewrite !filter_app, filter_cons.
    destruct (decide _) as [Hsel|]; [|done].
    apply Is_true_true, andb_true_iff in Hsel as [? ?]. destruct He; congruence. }
  unfold __init__. by rewrite Heq.
Qed.

Lemma X13_other_entries_are_ignored_witness :
  __init__ (H := Decimal.builtins) (Example.config 1) None None
    (Example.dir ++ ExampleConfig.subdir :: [])
  = __init__ (Example.config 1) None None (Example.dir ++ []).
Proof.
  apply (X13_other_entries_are_ignored (H := Decimal.builtins) (Example.config 1) None None
           Example.dir ExampleConfig.subdir []).
  left. reflexivity.
Defined.

(** ** The generators *)

(** X14: with a batch size of at least 1, [iterate_one_epoch] returns
    after its batches, and batch number [j] is the batch of the
    [batch_size] shuffled keys from position [j * batch_size]: it has shape
    [(batch_size, vector_dim)] and its row [i] holds the pairs of the key at
    position [j * batch_size + i]; it is only yielded when
    [(j + 1) * batch_size] is below the number of keys. *)
Theorem X14_epoch_batches_follow_shuffled_keys `{Builtins}
  (self : UserItemRecDataProvider) shuffle :
  1 ≤ _batch_size self →
  shuffle (table_keys (data self)) ≡ₚ table_keys (data self) →
  let keys := shuffle (table_keys (data self)) in
  ∃ l, iterate_one_epoch self shuffle (S (length keys)) = (l, Exhausted)
       ∧ ∀ (j : nat) mb, l !! j = Some mb →
           (Z.of_nat j + 1) * _batch_size self < Z.of_nat (length keys)
           ∧ batch_from self keys (Z.of_nat j * _batch_size self) mb.
Proof.
  intros Hb Hperm keys.
  destruct (epoch_run_batches self keys (S (length keys)) 0) as (l & Hrun & Hl);
    [|lia..|].
  { intros k Hk. apply table_get_is_Some. unfold keys in Hk. by rewrite Hperm in Hk. }
  exists l. split; [exact Hrun|]. intros j mb Hj.
  destruct (Hl j mb Hj) as [Hlt Hfrom]. split; [lia|exact Hfrom].
Qed.

Lemma X14_epoch_batches_follow_shuffled_keys_witness :
  let keys := reverse (table_keys (data (ExampleRun.provider 1))) in
  ∃ l, iterate_one_epoch (ExampleRun.provider 1) reverse (S (length keys)) = (l, Exhausted)
       ∧ ∀ (j : nat) mb, l !! j = Some mb →
           (Z.of_nat j + 1) * _batch_size (ExampleRun.provider 1) < Z.of_nat (length keys)
           ∧ batch_from (ExampleRun.provider 1) keys
               (Z.of_nat j * _batch_size (ExampleRun.provider 1)) mb.
Proof.
  apply (X14_epoch_batches_follow_shuffled_keys (ExampleRun.provider 1) reverse).
  - simpl. lia.
  - vm_compute. apply perm_swap.
Defined.

(** X15: in a batch [iterate_one_epoch] yields on a constructed provider
    no row is empty: every row from 0 to [batch_size - 1] has at least one
    triple. *)
Theorem X15_every_batch_row_is_populated `{Builtins} p um im fs self shuffle n mb r :
  __init__ p um im fs = Ok self →
  shuffle (table_keys (data self)) ≡ₚ table_keys (data self) →
  mb ∈ (iterate_one_epoch self shuffle n).1 →
  0 ≤ r < _batch_size self →
  ∃ c v, (r, c, v) ∈ triples mb.
Proof.
  intros (es & _ & Hd)%init_corpus_entries Hperm Hmb Hr.
  pose proof (epoch_run_batch_from self (shuffle (table_keys (data self))) n 0) as Hrun.
  rewrite Forall_forall in Hrun.
  destruct (Hrun ltac:(intros k Hk; apply table_get_is_Some; by rewrite Hperm in Hk)
              ltac:(lia) ltac:(lia) mb Hmb) as (s & Hs & Hlt & Hfrom).
  apply (batch_from_row self (shuffle (table_keys (data self))) s mb r); [|done..].
  rewrite Hd. apply table_fold_nonempty. constructor.
Qed.

Lemma X15_every_batch_row_is_populated_witness :
  ∃ c v, (0, c, v)
         ∈ triples {| indices := ([0; 0], [0; 1]); values := [5%Q; 4%Q]; size := (1, 2) |}.
Proof.
  apply (X15_every_batch_row_is_populated (Example.config 1) None None Example.dir
           (ExampleRun.provider 1) id 3
           {| indices := ([0; 0], [0; 1]); values := [5%Q; 4%Q]; size := (1, 2) |} 0).
  - apply init_example.
  - reflexivity.
  - vm_compute. left.
  - simpl. lia.
Defined.

(** X16: with a batch size of 0 and a table that has a key,
    [iterate_one_epoch] yields at each step a batch of shape
    [(0, vector_dim)] without any triple and stays where it is: after any
    number [n] of steps it has yielded [n] such batches and is suspended in
    its first state. *)
Theorem X16_batch_size_zero_yields_empty_batches `{Builtins}
  (self : UserItemRecDataProvider) shuffle (n : nat) :
  _batch_size self = 0 →
  data self ≠ [] →
  shuffle (table_keys (data self)) ≡ₚ table_keys (data self) →
  iterate_one_epoch self shuffle n = (replicate n (empty_batch self), Suspended (0, 0))
  ∧ triples (empty_batch self) = []
  ∧ size (empty_batch self) = (0, _vector_dim self).
Proof.
  intros Hb Hd Hperm. split_and!; [|done|by unfold empty_batch; rewrite Hb].
  unfold iterate_one_epoch.
  change (0, _batch_size self) with (0, 0 + _batch_size self).
  rewrite epoch_run_nonpositive; [|lia|].
  - rewrite Hb. do 3 f_equal; lia.
  - rewrite Hperm, Hb. unfold table_keys. rewrite length_fmap.
    destruct (data self); [done|]. simpl length. lia.
Qed.

Lemma X16_batch_size_zero_yields_empty_batches_witness :
  iterate_one_epoch (ExampleRun.provider 0) reverse 4
  = (replicate 4 (empty_batch (ExampleRun.provider 0)), Suspended (0, 0))
  ∧ triples (empty_batch (ExampleRun.provider 0)) = []
  ∧ size (empty_batch (ExampleRun.provider 0)) = (0, _vector_dim (ExampleRun.provider 0)).
Proof.
  apply (X16_batch_size_zero_yields_empty_batches (ExampleRun.provider 0) reverse 4).
  - reflexivity.
  - discriminate.
  - vm_compute. apply perm_swap.
Defined.

(** X17: construction never creates [src_data]; on a constructed provider
    whose table has a key, the evaluation generator therefore raises the
    missing-attribute error at its first step, before yielding anything,
    whatever [for_inf] is. *)
Theorem X17_constructed_provider_has_no_source `{Builtins} p um im fs self for_inf (n : nat) :
  __init__ p um im fs = Ok self →
  data self ≠ [] →
  (1 ≤ n)%nat →
  src_data self = None
  ∧ iterate_one_epoch_eval self for_inf n = ([], Raised AttributeError_src_data).
Proof.
  intros (_ & _ & _ & _ & Hsrc & _)%init_Ok_inv Hd Hn. split; [done|].
  unfold iterate_one_epoch_eval. destruct n as [|n]; [lia|]. rewrite gen_run_S.
  destruct (data self) as [|[k vs] d] eqn:Hdata; [done|].
  pose proof (eval_next_raise self for_inf [] k (table_keys d)) as Hraise.
  rewrite Hsrc, Hdata in Hraise.
  change (table_keys ((k, vs) :: d)) with ([] ++ k :: table_keys d).
  change 0 with (Z.of_nat (length (@nil Z))) at 1.
  rewrite Hraise; [done| |done].
  simpl. rewrite decide_True by done. by eexists.
Qed.

Lemma X17_constructed_provider_has_no_source_witness :
  src_data (ExampleRun.provider 1) = None
  ∧ iterate_one_epoch_eval (ExampleRun.provider 1) true 2
    = ([], Raised AttributeError_src_data).
Proof.
  apply (X17_constructed_provider_has_no_source (Example.config 1) None None Example.dir
           (ExampleRun.provider 1) true 2).
  - apply init_example.
  - discriminate.
  - lia.
Defined.

(** X18: on a provider whose maps were built internally and to which a
    source table was assigned, both matrices of every element the
    evaluation generator yields have shape [(1, vector_dim)] and all their
    triples in row 0, and the columns of the target are in
    [[0, vector_dim)]. *)
Theorem X18_eval_matrices_have_one_row `{Builtins} p um im fs self0 t for_inf n it :
  um = None ∨ im = None →
  __init__ p um im fs = Ok self0 →
  it ∈ (iterate_one_epoch_eval (set_src_data self0 t) for_inf n).1 →
  size (target it) = (1, _vector_dim self0)
  ∧ size (source it) = (1, _vector_dim self0)
  ∧ (∀ r c v, (r, c, v) ∈ triples (target it) → r = 0 ∧ 0 ≤ c < _vector_dim self0)
  ∧ (∀ r c v, (r, c, v) ∈ triples (source it) → r = 0).
Proof.
  intros Hnone Hinit.
  pose proof (init_data_in_range _ _ _ _ _ Hnone Hinit) as Hd.
  revert it. apply Forall_forall. unfold iterate_one_epoch_eval.
  apply gen_run_Forall. intros s it s' Hnext.
  apply eval_next_item in Hnext
    as (_ & _ & k & vs & src_vs & _ & Hvs & -> & -> & _).
  change (data (set_src_data self0 t)) with (data self0) in Hvs.
  change (_vector_dim (set_src_data self0 t)) with (_vector_dim self0).
  split_and!; [done..| |].
  - intros r c v. rewrite triples_single_row, elem_of_row_triples. intros [-> Hcv].
    split; [done|]. apply table_get_elem_of in Hvs.
    rewrite Forall_forall in Hd. specialize (Hd _ Hvs). simpl in Hd.
    rewrite Forall_forall in Hd. exact (Hd _ Hcv).
  - intros r c v. rewrite triples_single_row, elem_of_row_triples. by intros [-> _].
Qed.

Lemma X18_eval_matrices_have_one_row_witness :
  let it := {| target := single_row (H := Decimal.builtins) 2 [(0, 5%Q); (1, 4%Q)];
               source := single_row (H := Decimal.builtins) 2 [(1, 2%Q)];
               item_key := Some 0 |} in
  size (target it) = (1, _vector_dim (ExampleRun.provider 1))
  ∧ size (source it) = (1, _vector_dim (ExampleRun.provider 1))
  ∧ (∀ r c v, (r, c, v) ∈ triples (target it)
              → r = 0 ∧ 0 ≤ c < _vector_dim (ExampleRun.provider 1))
  ∧ (∀ r c v, (r, c, v) ∈ triples (source it) → r = 0).
Proof.
  apply (X18_eval_matrices_have_one_row (Example.config 1) None None Example.dir
           (ExampleRun.provider 1) [(0, [(1, 2%Q)])] true 5).
  - left. reflexivity.
  - apply init_example.
  - apply list_elem_of_lookup. exists 0%nat. reflexivity.
Defined.

(** X19: [for_inf] changes nothing but the key: the run without it yields
    the elements of the run with it, key removed, and ends as that run
    does, by returning or with the same exception; and the keys the
    elements carry with [for_inf] are the keys of the table, in its order,
    one per element. *)
Theorem X19_for_inf_only_adds_the_key `{Builtins} (self : UserItemRecDataProvider) (n : nat) :
  iterate_one_epoch_eval self false n
  = ((λ it, {| target := target it; source := source it; item_key := None |})
       <$> (iterate_one_epoch_eval self true n).1,
     (iterate_one_epoch_eval self true n).2)
  ∧ item_key <$> (iterate_one_epoch_eval self true n).1
    = Some <$> take (length (iterate_one_epoch_eval self true n).1)
                 (table_keys (data self)).
Proof.
  split.
  - unfold iterate_one_epoch_eval.
    apply (gen_run_simulation
             (λ it, {| target := target it; source := source it; item_key := None |})).
    intros s. apply eval_next_for_inf.
  - unfold iterate_one_epoch_eval.
    apply (eval_run_keys self (table_keys (data self)) n 0).
Qed.

(** X20: when the source table is the primary table itself, the
    evaluation generator yields one element per key and returns, and in
    every element the source matrix is the target matrix. *)
Theorem X20_eval_on_own_table `{Builtins} (self : UserItemRecDataProvider) for_inf :
  ∃ its, iterate_one_epoch_eval (set_src_data self (data self)) for_inf
           (S (length (data self))) = (its, Exhausted)
         ∧ length its = length (data self)
         ∧ Forall (λ it, source it = target it) its.
Proof.
  set (keys := table_keys (data self)).
  destruct (eval_items_own_table (set_src_data self (data self)) for_inf keys)
    as (its & Hits & Heq); [done|intros k Hk; by apply table_get_is_Some|].
  assert (length keys = length (data self)) as Hlen
    by (unfold keys, table_keys; by rewrite length_fmap).
  exists its. split_and!; [|by rewrite <-(Forall2_length _ _ _ Hits)|done].
  unfold iterate_one_epoch_eval.
  change (table_keys (data (set_src_data self (data self)))) with keys.
  pose proof (eval_run_stretch (set_src_data self (data self)) for_inf [] keys [] its 1 Hits)
    as Hrun.
  rewrite app_nil_r in Hrun. simpl app in Hrun. simpl length in Hrun.
  rewrite <-Hlen. replace (S (length keys)) with (length keys + 1)%nat by lia.
  change 0 with (Z.of_nat 0). rewrite Hrun.
  rewrite gen_run_S, eval_next_stop. by rewrite app_nil_r.
Qed.

(** X21: with a batch size of at least 1 and a table that has a key, an
    epoch never covers the whole table: its batches hold
    [batch_size * number of batches] keys, which leaves at least one and
    at most [batch_size] of the shuffled keys in no batch. *)
Theorem X21_epoch_leaves_keys_out `{Builtins} (self : UserItemRecDataProvider) shuffle :
  1 ≤ _batch_size self →
  data self ≠ [] →
  shuffle (table_keys (data self)) ≡ₚ table_keys (data self) →
  ∃ l, iterate_one_epoch self shuffle (S (length (data self))) = (l, Exhausted)
       ∧ 1 ≤ Z.of_nat (length (data self)) - Z.of_nat (length l) * _batch_size self
           ≤ _batch_size self.
Proof.
  intros Hb Hd Hperm. set (keys := shuffle (table_keys (data self))).
  assert (length keys = length (data self)) as Hlen.
  { unfold keys. rewrite Hperm. unfold table_keys. by rewrite length_fmap. }
  assert (1 ≤ Z.of_nat (length (data self))) as Hpos.
  { destruct (data self); [done|]. simpl length. lia. }
  destruct (epoch_run_exhausts self keys (S (length keys)) 0 (_batch_size self))
    as (l & Hrun & Hl); [|lia..|].
  { intros k Hk. apply table_get_is_Some. unfold keys in Hk. by rewrite Hperm in Hk. }
  exists l. split; [unfold iterate_one_epoch; by rewrite <-Hlen|].
  rewrite Hl, Hlen.
  replace (Z.of_nat (length (data self)) - _batch_size self + _batch_size self - 1)
    with (Z.of_nat (length (data self)) - 1) by lia.
  pose proof (Z.mul_div_le (Z.of_nat (length (data self)) - 1) (_batch_size self)
                ltac:(lia)) as Hle.
  pose proof (Z.mul_succ_div_gt (Z.of_nat (length (data self)) - 1) (_batch_size self)
                ltac:(lia)) as Hgt.
  pose proof (Z.div_pos (Z.of_nat (length (data self)) - 1) (_batch_size self)
                ltac:(lia) ltac:(lia)) as Hq.
  rewrite Z.max_r by done. lia.
Qed.

Lemma X21_epoch_leaves_keys_out_witness :
  ∃ l, iterate_one_epoch (ExampleRun.provider 1) reverse
         (S (length (data (ExampleRun.provider 1)))) = (l, Exhausted)
       ∧ 1 ≤ Z.of_nat (length (data (ExampleRun.provider 1)))
             - Z.of_nat (length l) * _batch_size (ExampleRun.provider 1)
           ≤ _batch_size (ExampleRun.provider 1).
Proof.
  apply (X21_epoch_leaves_keys_out (ExampleRun.provider 1) reverse).
  - simpl. lia.
  - discriminate.
  - vm_compute. apply perm_swap.
Defined.

(** ** Users and items exchanged *)

(** X22: constructing with [major] set to ["users"] instead of ["items"],
    all else equal, succeeds whenever the latter does, with the same two
    maps, and gives the transposed table: its (key, column, rating)
    entries are those of the other table with key and column exchanged. *)
Theorem X22_major_users_transposes_the_table `{Builtins} p um im fs by_item :
  __init__ (with_major p "items") um im fs = Ok by_item →
  ∃ by_user, __init__ (with_major p "users") um im fs = Ok by_user
             ∧ _user_id_map by_user = _user_id_map by_item
             ∧ _item_id_map by_user = _item_id_map by_item
             ∧ _vector_dim by_item = Z.of_nat (base.size (_user_id_map by_item))
             ∧ _vector_dim by_user = Z.of_nat (base.size (_item_id_map by_item))
             ∧ table_entries (data by_user)
               ≡ₚ transpose_entry <$> table_entries (data by_item).
Proof.
  intros (maps & d1 & Hmaps & Hload & ->)%init_Ok_provider_of.
  rewrite init_maps_with_major in Hmaps.
  destruct (init_load_transpose p maps fs d1 Hload) as (d2 & Hload2 & Hperm).
  exists (provider_of (with_major p "users") maps d2). split_and!; [|done..].
  apply init_Ok_intro; [by right|by rewrite init_maps_with_major|done].
Qed.

Lemma X22_major_users_transposes_the_table_witness :
  ∃ by_user, __init__ (with_major (Example.config 1) "users") None None Example.dir
             = Ok by_user
             ∧ _user_id_map by_user = _user_id_map ExampleTranspose.by_item
             ∧ _item_id_map by_user = _item_id_map ExampleTranspose.by_item
             ∧ _vector_dim ExampleTranspose.by_item
               = Z.of_nat (base.size (_user_id_map ExampleTranspose.by_item))
             ∧ _vector_dim by_user
               = Z.of_nat (base.size (_item_id_map ExampleTranspose.by_item))
             ∧ table_entries (data by_user)
               ≡ₚ transpose_entry <$> table_entries (data ExampleTranspose.by_item).
Proof.
  apply (X22_major_users_transposes_the_table (Example.config 1) None None Example.dir
           ExampleTranspose.by_item).
  apply result_by_view. vm_compute. reflexivity.
Defined.
